(** * Kalibr TypeScript SDK: cost calculator, span lifecycle and function
    wrappers, identifiers, trace capsule, router fallback protocol and
    provider responses, embedded from the TypeScript sources.

    Conventions of the embedding:
    - a JavaScript string is a [string] of bytes; [toLowerCase] acts on
      the ASCII letters (model identifiers are ASCII);
    - a finite JavaScript number is a rational [Q], and [NaN] is kept as
      a value of its own; the arithmetic of the cost calculator and the
      additions of the capsule are carried out exactly, without the
      rounding of double precision, and the two roundings of
      [TraceCapsule.toJson] are not computed at all
      ([CapsuleStore.Rounding]); token counts and millisecond clock
      readings are integers [Z];
    - [undefined] and [null] are both [None] (the code only tests them
      with [!x], [x || d] and [x ?? d]);
    - a rejected promise or a thrown exception is the [Err] branch of
      [result]; a callback of the user ([successWhen]) may throw as
      well;
    - everything the code reads from the outside (clock, random
      identifiers, HTTP endpoints, provider SDKs) is an explicit
      argument. *)

From Stdlib Require Import ZArith QArith Qround Lia Bool List.
From Stdlib Require Import Strings.String Strings.Ascii Numbers.DecimalString.
Import ListNotations.

Local Open Scope string_scope.
Local Open Scope list_scope.

(** ** Results of fallible operations *)

Inductive result (E A : Type) : Type :=
| Ok (a : A)
| Err (e : E).

Arguments Ok {E A} a.
Arguments Err {E A} e.

(** A JavaScript [Error]: only its message is observed by the code. *)
Record Error : Type := mkError { message : string }.

(** ** JavaScript strings *)

Module JsString.

(** [c.toLowerCase()] on one ASCII character. *)
Definition lower_ascii (c : ascii) : ascii :=
  let n := N_of_ascii c in
  if ((65 <=? n) && (n <=? 90))%N then ascii_of_N (n + 32) else c.

Fixpoint toLowerCase (s : string) : string :=
  match s with
  | EmptyString => EmptyString
  | String c t => String (lower_ascii c) (toLowerCase t)
  end.

(** [s.startsWith(pat)]. *)
Fixpoint startsWith (s pat : string) : bool :=
  match pat, s with
  | EmptyString, _ => true
  | String _ _, EmptyString => false
  | String p pat', String c s' => Ascii.eqb c p && startsWith s' pat'
  end.

(** [s.includes(pat)]: [pat] occurs at some offset of [s]. *)
Fixpoint includes (s pat : string) : bool :=
  startsWith s pat ||
  match s with
  | EmptyString => false
  | String _ t => includes t pat
  end.

(** [!s] for a value of type [string | undefined | null]. *)
Definition falsy (o : option string) : bool :=
  match o with
  | None => true
  | Some s => String.eqb s ""
  end.

End JsString.

(** ** JavaScript numbers and plain objects *)

Module Js.

(** A number is a finite value or [NaN]. *)
Inductive number : Type :=
| Num (q : Q)
| NaN.

Definition num_add (a b : number) : number :=
  match a, b with
  | Num x, Num y => Num (x + y)
  | _, _ => NaN
  end.

Definition num_mul (a b : number) : number :=
  match a, b with
  | Num x, Num y => Num (x * y)
  | _, _ => NaN
  end.

(** Division by a non-zero constant (the only divisor in the code is
    [1_000_000]). *)
Definition num_div (a b : number) : number :=
  match a, b with
  | Num x, Num y => Num (x / y)
  | _, _ => NaN
  end.

(** [Math.round]: the nearest integer, ties towards plus infinity. *)
Definition Math_round (a : number) : number :=
  match a with
  | Num x => Num (inject_Z (Qfloor (x + (1 # 2))))
  | NaN => NaN
  end.

(** [a >= 0] as JavaScript evaluates it: false on [NaN]. *)
Definition num_nonneg (a : number) : Prop :=
  match a with
  | Num x => 0 <= x
  | NaN => False
  end.

(** [a] is the finite number [q]. *)
Definition num_is (a : number) (q : Q) : Prop :=
  match a with
  | Num x => x == q
  | NaN => False
  end.

(** The property names every plain object inherits from
    [Object.prototype]; [obj[k]] finds them when [k] is not an own
    property. *)
Definition Object_prototype_keys : list string :=
  [ "constructor"; "hasOwnProperty"; "isPrototypeOf"; "propertyIsEnumerable";
    "toLocaleString"; "toString"; "valueOf"; "__proto__";
    "__defineGetter__"; "__defineSetter__"; "__lookupGetter__";
    "__lookupSetter__" ].

(** What [obj[k]] evaluates to on an object literal whose own
    properties are the association list [own]. *)
Inductive property (A : Type) : Type :=
| Own (a : A)          (* own property of the literal *)
| Inherited            (* a member of Object.prototype: a truthy object *)
| Undefined.

Arguments Own {A} a.
Arguments Inherited {A}.
Arguments Undefined {A}.

Fixpoint own_property {A : Type} (own : list (string * A)) (k : string) : option A :=
  match own with
  | [] => None
  | (k', v) :: rest => if String.eqb k' k then Some v else own_property rest k
  end.

Definition mem_string (k : string) (l : list string) : bool :=
  existsb (String.eqb k) l.

Definition get {A : Type} (own : list (string * A)) (k : string) : property A :=
  match own_property own k with
  | Some v => Own v
  | None => if mem_string k Object_prototype_keys then Inherited else Undefined
  end.

End Js.

(** ** Cost calculator (kalibr.ts) *)

Module Cost.
Import JsString Js.

(** [type Provider = 'openai' | 'anthropic' | 'google' | 'cohere' | 'custom'] *)
Inductive Provider : Type := openai | anthropic | google | cohere | custom.

Definition provider_name (p : Provider) : string :=
  match p with
  | openai => "openai"
  | anthropic => "anthropic"
  | google => "google"
  | cohere => "cohere"
  | custom => "custom"
  end.

(** Pricing per 1M tokens. *)
Record ModelPricing : Type := mkPricing { input : Q; output : Q }.

(** [PRICING[provider]]: the table has no ['custom'] entry. *)
Definition PRICING (p : Provider) : option (list (string * ModelPricing)) :=
  match p with
  | openai => Some
      [ ("gpt-4", mkPricing 30.0 60.0);
        ("gpt-4-turbo", mkPricing 10.0 30.0);
        ("gpt-4o", mkPricing 2.5 10.0);
        ("gpt-3.5-turbo", mkPricing 0.5 1.5);
        ("gpt-4o-mini", mkPricing 0.15 0.6) ]
  | anthropic => Some
      [ ("claude-3-opus", mkPricing 15.0 75.0);
        ("claude-3-sonnet", mkPricing 3.0 15.0);
        ("claude-3-haiku", mkPricing 0.25 1.25);
        ("claude-3.5-sonnet", mkPricing 3.0 15.0) ]
  | google => Some
      [ ("gemini-pro", mkPricing 1.25 5.0);
        ("gemini-1.5-pro", mkPricing 1.25 5.0);
        ("gemini-1.5-flash", mkPricing 0.075 0.3) ]
  | cohere => Some
      [ ("command", mkPricing 1.0 2.0);
        ("command-r", mkPricing 0.5 1.5);
        ("command-r-plus", mkPricing 3.0 15.0) ]
  | custom => None
  end.

(** Default pricing for unknown models. *)
Definition DEFAULT_PRICING : ModelPricing := mkPricing 30.0 60.0.

Definition normalizeModelName (provider : Provider) (modelName : string) : string :=
  let modelLower := toLowerCase modelName in
  match provider with
  | openai =>
      if includes modelLower "gpt-4o-mini" then "gpt-4o-mini"
      else if includes modelLower "gpt-4o" then "gpt-4o"
      else if includes modelLower "gpt-4-turbo" then "gpt-4-turbo"
      else if includes modelLower "gpt-4" then "gpt-4"
      else if includes modelLower "gpt-3.5" then "gpt-3.5-turbo"
      else modelLower
  | anthropic =>
      if includes modelLower "claude-3.5-sonnet" || includes modelLower "claude-3-5-sonnet"
      then "claude-3.5-sonnet"
      else if includes modelLower "claude-3-opus" then "claude-3-opus"
      else if includes modelLower "claude-3-sonnet" then "claude-3-sonnet"
      else if includes modelLower "claude-3-haiku" then "claude-3-haiku"
      else modelLower
  | google =>
      if includes modelLower "gemini-1.5-flash" then "gemini-1.5-flash"
      else if includes modelLower "gemini-1.5-pro" then "gemini-1.5-pro"
      else if includes modelLower "gemini-pro" then "gemini-pro"
      else modelLower
  | cohere =>
      if includes modelLower "command-r-plus" then "command-r-plus"
      else if includes modelLower "command-r" then "command-r"
      else if includes modelLower "command" then "command"
      else modelLower
  | custom => modelLower
  end.

(** The value bound to [pricing]: a pricing record, or a member of
    [Object.prototype] that the lookup found up the prototype chain. *)
Inductive pricing_value : Type :=
| IsPricing (p : ModelPricing)
| Foreign.

(** [v || DEFAULT_PRICING]: only [undefined] is falsy here. *)
Definition or_default (v : property ModelPricing) : pricing_value :=
  match v with
  | Own p => IsPricing p
  | Inherited => Foreign
  | Undefined => IsPricing DEFAULT_PRICING
  end.

(** [pricing.input] and [pricing.output] as operands of [*]: a missing
    property is [undefined], which multiplies to [NaN]. *)
Definition price (field : ModelPricing -> Q) (v : pricing_value) : number :=
  match v with
  | IsPricing p => Num (field p)
  | Foreign => NaN
  end.

Definition calculateCost (provider : Provider) (modelId : string)
  (inputTokens outputTokens : Z) : number :=
  let providerPricing :=
    match PRICING provider with Some t => t | None => [] end in
  let normalizedModel := normalizeModelName provider modelId in
  let pricing := or_default (get providerPricing normalizedModel) in
  let inputCost :=
    num_mul (num_div (Num (inject_Z inputTokens)) (Num 1000000)) (price input pricing) in
  let outputCost :=
    num_mul (num_div (Num (inject_Z outputTokens)) (Num 1000000)) (price output pricing) in
  num_div (Math_round (num_mul (num_add inputCost outputCost) (Num 1000000)))
          (Num 1000000).

End Cost.

(** ** Spans: builder, started span, transport client (kalibr.ts) *)

Module Span.
Import JsString Js Cost.

(** [type Status = 'success' | 'error' | 'timeout'] *)
Inductive Status : Type := st_success | st_error | st_timeout.

(** [type Environment = 'prod' | 'staging' | 'dev'] *)
Inductive Environment : Type := prod | staging | dev.

(** [type DataClass = 'economic' | 'performance' | 'diagnostic'] *)
Inductive DataClass : Type := economic | performance | diagnostic.

(** [Record<string, unknown>]: keys in insertion order, values by their
    JSON text. *)
Definition Metadata : Type := list (string * string).

(** The fields of [Partial<KalibrSpan>] that the builder writes and
    [finish] reads; an absent field is [None]. *)
Record PartialSpan : Type := mkPartialSpan {
  ps_trace_id : option string;
  ps_span_id : option string;
  ps_parent_span_id : option string;
  ps_tenant_id : option string;
  ps_workflow_id : option string;
  ps_sandbox_id : option string;
  ps_runtime_env : option string;
  ps_provider : option Provider;
  ps_model_id : option string;
  ps_model_name : option string;
  ps_operation : option string;
  ps_endpoint : option string;
  ps_environment : option Environment;
  ps_service : option string;
  ps_user_id : option string;
  ps_request_id : option string;
  ps_metadata : option Metadata;
  ps_data_class : option DataClass;
  ps_vendor : option string
}.

(** [{ schema_version: '1.0' }]: nothing else is set on a new builder. *)
Definition empty_span : PartialSpan :=
  mkPartialSpan None None None None None None None None None None
    None None None None None None None None None.

(** [this.span.f = v], one assignment per field. *)
Definition assign_trace_id (v : option string) (s : PartialSpan) : PartialSpan :=
  mkPartialSpan v (ps_span_id s) (ps_parent_span_id s) (ps_tenant_id s)
    (ps_workflow_id s) (ps_sandbox_id s) (ps_runtime_env s) (ps_provider s)
    (ps_model_id s) (ps_model_name s) (ps_operation s) (ps_endpoint s)
    (ps_environment s) (ps_service s) (ps_user_id s) (ps_request_id s) (ps_metadata s)
    (ps_data_class s) (ps_vendor s).

Definition assign_span_id (v : option string) (s : PartialSpan) : PartialSpan :=
  mkPartialSpan (ps_trace_id s) v (ps_parent_span_id s) (ps_tenant_id s)
    (ps_workflow_id s) (ps_sandbox_id s) (ps_runtime_env s) (ps_provider s)
    (ps_model_id s) (ps_model_name s) (ps_operation s) (ps_endpoint s)
    (ps_environment s) (ps_service s) (ps_user_id s) (ps_request_id s) (ps_metadata s)
    (ps_data_class s) (ps_vendor s).

Definition assign_parent_span_id (v : option string) (s : PartialSpan) : PartialSpan :=
  mkPartialSpan (ps_trace_id s) (ps_span_id s) v (ps_tenant_id s) (ps_workflow_id s)
    (ps_sandbox_id s) (ps_runtime_env s) (ps_provider s) (ps_model_id s)
    (ps_model_name s) (ps_operation s) (ps_endpoint s) (ps_environment s)
    (ps_service s) (ps_user_id s) (ps_request_id s) (ps_metadata s) (ps_data_class s)
    (ps_vendor s).

Definition assign_tenant_id (v : option string) (s : PartialSpan) : PartialSpan :=
  mkPartialSpan (ps_trace_id s) (ps_span_id s) (ps_parent_span_id s) v
    (ps_workflow_id s) (ps_sandbox_id s) (ps_runtime_env s) (ps_provider s)
    (ps_model_id s) (ps_model_name s) (ps_operation s) (ps_endpoint s)
    (ps_environment s) (ps_service s) (ps_user_id s) (ps_request_id s) (ps_metadata s)
    (ps_data_class s) (ps_vendor s).

Definition assign_workflow_id (v : option string) (s : PartialSpan) : PartialSpan :=
  mkPartialSpan (ps_trace_id s) (ps_span_id s) (ps_parent_span_id s) (ps_tenant_id s)
    v (ps_sandbox_id s) (ps_runtime_env s) (ps_provider s) (ps_model_id s)
    (ps_model_name s) (ps_operation s) (ps_endpoint s) (ps_environment s)
    (ps_service s) (ps_user_id s) (ps_request_id s) (ps_metadata s) (ps_data_class s)
    (ps_vendor s).

Definition assign_sandbox_id (v : option string) (s : PartialSpan) : PartialSpan :=
  mkPartialSpan (ps_trace_id s) (ps_span_id s) (ps_parent_span_id s) (ps_tenant_id s)
    (ps_workflow_id s) v (ps_runtime_env s) (ps_provider s) (ps_model_id s)
    (ps_model_name s) (ps_operation s) (ps_endpoint s) (ps_environment s)
    (ps_service s) (ps_user_id s) (ps_request_id s) (ps_metadata s) (ps_data_class s)
    (ps_vendor s).

Definition assign_runtime_env (v : option string) (s : PartialSpan) : PartialSpan :=
  mkPartialSpan (ps_trace_id s) (ps_span_id s) (ps_parent_span_id s) (ps_tenant_id s)
    (ps_workflow_id s) (ps_sandbox_id s) v (ps_provider s) (ps_model_id s)
    (ps_model_name s) (ps_operation s) (ps_endpoint s) (ps_environment s)
    (ps_service s) (ps_user_id s) (ps_request_id s) (ps_metadata s) (ps_data_class s)
    (ps_vendor s).

Definition assign_provider (v : option Provider) (s : PartialSpan) : PartialSpan :=
  mkPartialSpan (ps_trace_id s) (ps_span_id s) (ps_parent_span_id s) (ps_tenant_id s)
    (ps_workflow_id s) (ps_sandbox_id s) (ps_runtime_env s) v (ps_model_id s)
    (ps_model_name s) (ps_operation s) (ps_endpoint s) (ps_environment s)
    (ps_service s) (ps_user_id s) (ps_request_id s) (ps_metadata s) (ps_data_class s)
    (ps_vendor s).

Definition assign_model_id (v : option string) (s : PartialSpan) : PartialSpan :=
  mkPartialSpan (ps_trace_id s) (ps_span_id s) (ps_parent_span_id s) (ps_tenant_id s)
    (ps_workflow_id s) (ps_sandbox_id s) (ps_runtime_env s) (ps_provider s) v
    (ps_model_name s) (ps_operation s) (ps_endpoint s) (ps_environment s)
    (ps_service s) (ps_user_id s) (ps_request_id s) (ps_metadata s) (ps_data_class s)
    (ps_vendor s).

Definition assign_model_name (v : option string) (s : PartialSpan) : PartialSpan :=
  mkPartialSpan (ps_trace_id s) (ps_span_id s) (ps_parent_span_id s) (ps_tenant_id s)
    (ps_workflow_id s) (ps_sandbox_id s) (ps_runtime_env s) (ps_provider s)
    (ps_model_id s) v (ps_operation s) (ps_endpoint s) (ps_environment s)
    (ps_service s) (ps_user_id s) (ps_request_id s) (ps_metadata s) (ps_data_class s)
    (ps_vendor s).

Definition assign_operation (v : option string) (s : PartialSpan) : PartialSpan :=
  mkPartialSpan (ps_trace_id s) (ps_span_id s) (ps_parent_span_id s) (ps_tenant_id s)
    (ps_workflow_id s) (ps_sandbox_id s) (ps_runtime_env s) (ps_provider s)
    (ps_model_id s) (ps_model_name s) v (ps_endpoint s) (ps_environment s)
    (ps_service s) (ps_user_id s) (ps_request_id s) (ps_metadata s) (ps_data_class s)
    (ps_vendor s).

Definition assign_endpoint (v : option string) (s : PartialSpan) : PartialSpan :=
  mkPartialSpan (ps_trace_id s) (ps_span_id s) (ps_parent_span_id s) (ps_tenant_id s)
    (ps_workflow_id s) (ps_sandbox_id s) (ps_runtime_env s) (ps_provider s)
    (ps_model_id s) (ps_model_name s) (ps_operation s) v (ps_environment s)
    (ps_service s) (ps_user_id s) (ps_request_id s) (ps_metadata s) (ps_data_class s)
    (ps_vendor s).

Definition assign_environment (v : option Environment) (s : PartialSpan) : PartialSpan :=
  mkPartialSpan (ps_trace_id s) (ps_span_id s) (ps_parent_span_id s) (ps_tenant_id s)
    (ps_workflow_id s) (ps_sandbox_id s) (ps_runtime_env s) (ps_provider s)
    (ps_model_id s) (ps_model_name s) (ps_operation s) (ps_endpoint s) v
    (ps_service s) (ps_user_id s) (ps_request_id s) (ps_metadata s) (ps_data_class s)
    (ps_vendor s).

Definition assign_service (v : option string) (s : PartialSpan) : PartialSpan :=
  mkPartialSpan (ps_trace_id s) (ps_span_id s) (ps_parent_span_id s) (ps_tenant_id s)
    (ps_workflow_id s) (ps_sandbox_id s) (ps_runtime_env s) (ps_provider s)
    (ps_model_id s) (ps_model_name s) (ps_operation s) (ps_endpoint s)
    (ps_environment s) v (ps_user_id s) (ps_request_id s) (ps_metadata s)
    (ps_data_class s) (ps_vendor s).

Definition assign_user_id (v : option string) (s : PartialSpan) : PartialSpan :=
  mkPartialSpan (ps_trace_id s) (ps_span_id s) (ps_parent_span_id s) (ps_tenant_id s)
    (ps_workflow_id s) (ps_sandbox_id s) (ps_runtime_env s) (ps_provider s)
    (ps_model_id s) (ps_model_name s) (ps_operation s) (ps_endpoint s)
    (ps_environment s) (ps_service s) v (ps_request_id s) (ps_metadata s)
    (ps_data_class s) (ps_vendor s).

Definition assign_request_id (v : option string) (s : PartialSpan) : PartialSpan :=
  mkPartialSpan (ps_trace_id s) (ps_span_id s) (ps_parent_span_id s) (ps_tenant_id s)
    (ps_workflow_id s) (ps_sandbox_id s) (ps_runtime_env s) (ps_provider s)
    (ps_model_id s) (ps_model_name s) (ps_operation s) (ps_endpoint s)
    (ps_environment s) (ps_service s) (ps_user_id s) v (ps_metadata s)
    (ps_data_class s) (ps_vendor s).

Definition assign_metadata (v : option Metadata) (s : PartialSpan) : PartialSpan :=
  mkPartialSpan (ps_trace_id s) (ps_span_id s) (ps_parent_span_id s) (ps_tenant_id s)
    (ps_workflow_id s) (ps_sandbox_id s) (ps_runtime_env s) (ps_provider s)
    (ps_model_id s) (ps_model_name s) (ps_operation s) (ps_endpoint s)
    (ps_environment s) (ps_service s) (ps_user_id s) (ps_request_id s) v
    (ps_data_class s) (ps_vendor s).

Definition assign_data_class (v : option DataClass) (s : PartialSpan) : PartialSpan :=
  mkPartialSpan (ps_trace_id s) (ps_span_id s) (ps_parent_span_id s) (ps_tenant_id s)
    (ps_workflow_id s) (ps_sandbox_id s) (ps_runtime_env s) (ps_provider s)
    (ps_model_id s) (ps_model_name s) (ps_operation s) (ps_endpoint s)
    (ps_environment s) (ps_service s) (ps_user_id s) (ps_request_id s) (ps_metadata s)
    v (ps_vendor s).

Definition assign_vendor (v : option string) (s : PartialSpan) : PartialSpan :=
  mkPartialSpan (ps_trace_id s) (ps_span_id s) (ps_parent_span_id s) (ps_tenant_id s)
    (ps_workflow_id s) (ps_sandbox_id s) (ps_runtime_env s) (ps_provider s)
    (ps_model_id s) (ps_model_name s) (ps_operation s) (ps_endpoint s)
    (ps_environment s) (ps_service s) (ps_user_id s) (ps_request_id s) (ps_metadata s)
    (ps_data_class s) v.

(** [KalibrSpan]: the finished span, field for field. *)
Record KalibrSpan : Type := mkKalibrSpan {
  schema_version : string;
  trace_id : option string;
  span_id : option string;
  parent_span_id : option string;
  tenant_id : string;
  workflow_id : option string;
  sandbox_id : option string;
  runtime_env : option string;
  provider : Provider;
  model_id : string;
  model_name : option string;
  operation : string;
  endpoint : option string;
  duration_ms : Z;
  latency_ms : option Z;
  input_tokens : Z;
  output_tokens : Z;
  total_tokens : option Z;
  cost_usd : number;
  total_cost_usd : option number;
  status : Status;
  error_type : option string;
  error_message : option string;
  stack_trace : option string;
  timestamp : string;
  ts_start : option string;
  ts_end : option string;
  environment : option Environment;
  service : option string;
  user_id : option string;
  request_id : option string;
  metadata : option Metadata;
  data_class : option DataClass;
  vendor : option string
}.

(** *** Transport client *)

(** What awaiting [fetch] yields: a response ([ok], [status], body text)
    or a rejection. *)
Inductive FetchOutcome : Type :=
| Responded (ok : bool) (status : Z) (text : string)
| Rejected (e : Error).

(** One POST: the spans serialised into its NDJSON body, in order. *)
Definition Transmission : Type := list KalibrSpan.

(** The [Kalibr] client: its configuration and its [fetch] function. *)
Record Kalibr : Type := mkKalibr {
  cfg_apiKey : string;
  cfg_tenantId : string;
  cfg_endpoint : string;
  cfg_environment : option Environment;
  cfg_service : option string;
  cfg_debug : bool;
  fetchFn : string -> Transmission -> FetchOutcome
}.

Definition getTenantId (c : Kalibr) : string := cfg_tenantId c.
Definition getEnvironment (c : Kalibr) : option Environment := cfg_environment c.
Definition getService (c : Kalibr) : option string := cfg_service c.

Definition string_of_Z (z : Z) : string :=
  NilZero.string_of_int (Z.to_int z).

(** [sendSpans]: no request on an empty list, otherwise exactly one POST;
    a non-2xx response or a rejected [fetch] is thrown to the caller.
    Returns the outcome and the requests made. *)
Definition sendSpans (c : Kalibr) (spans : list KalibrSpan)
  : result Error unit * list Transmission :=
  match spans with
  | [] => (Ok tt, [])
  | _ :: _ =>
      match fetchFn c (cfg_endpoint c) spans with
      | Responded true _ _ => (Ok tt, [spans])
      | Responded false st text =>
          (Err (mkError ("Kalibr API error " ++ string_of_Z st ++ ": " ++ text)), [spans])
      | Rejected e => (Err e, [spans])
      end
  end.

Definition sendSpan (c : Kalibr) (span : KalibrSpan)
  : result Error unit * list Transmission :=
  sendSpans c [span].

(** *** Span builder *)

Record SpanBuilder : Type := mkSpanBuilder {
  b_span : PartialSpan;
  b_startTime : option Z;
  b_startTimestamp : option string;
  b_client : option Kalibr
}.

Definition new_SpanBuilder : SpanBuilder :=
  mkSpanBuilder empty_span None None None.

(** A setter mutates [this.span] and returns the builder. *)
Definition on_span (f : PartialSpan -> PartialSpan) (b : SpanBuilder) : SpanBuilder :=
  mkSpanBuilder (f (b_span b)) (b_startTime b) (b_startTimestamp b) (b_client b).

Definition setTraceId (traceId : string) : SpanBuilder -> SpanBuilder :=
  on_span (assign_trace_id (Some traceId)).

Definition setSpanId (spanId : string) : SpanBuilder -> SpanBuilder :=
  on_span (assign_span_id (Some spanId)).

Definition setParentSpanId (parentSpanId : option string) : SpanBuilder -> SpanBuilder :=
  on_span (assign_parent_span_id parentSpanId).

Definition setTenantId (tenantId : string) : SpanBuilder -> SpanBuilder :=
  on_span (assign_tenant_id (Some tenantId)).

Definition setWorkflowId (workflowId : string) : SpanBuilder -> SpanBuilder :=
  on_span (assign_workflow_id (Some workflowId)).

Definition setSandboxId (sandboxId : string) : SpanBuilder -> SpanBuilder :=
  on_span (assign_sandbox_id (Some sandboxId)).

Definition setRuntimeEnv (runtimeEnv : string) : SpanBuilder -> SpanBuilder :=
  on_span (assign_runtime_env (Some runtimeEnv)).

(** Sets [provider] and the legacy [vendor] together. *)
Definition setProvider (p : Provider) : SpanBuilder -> SpanBuilder :=
  on_span (fun s => assign_vendor (Some (provider_name p)) (assign_provider (Some p) s)).

(** Sets [model_id] and defaults [model_name] to it. *)
Definition setModel (modelId : string) : SpanBuilder -> SpanBuilder :=
  on_span (fun s => assign_model_name (Some modelId) (assign_model_id (Some modelId) s)).

Definition setModelName (modelName : string) : SpanBuilder -> SpanBuilder :=
  on_span (assign_model_name (Some modelName)).

Definition setOperation (op : string) : SpanBuilder -> SpanBuilder :=
  on_span (assign_operation (Some op)).

Definition setEndpoint (ep : string) : SpanBuilder -> SpanBuilder :=
  on_span (assign_endpoint (Some ep)).

Definition setEnvironment (e : Environment) : SpanBuilder -> SpanBuilder :=
  on_span (assign_environment (Some e)).

Definition setService (sv : string) : SpanBuilder -> SpanBuilder :=
  on_span (assign_service (Some sv)).

Definition setUserId (userId : string) : SpanBuilder -> SpanBuilder :=
  on_span (assign_user_id (Some userId)).

Definition setRequestId (requestId : string) : SpanBuilder -> SpanBuilder :=
  on_span (assign_request_id (Some requestId)).

Definition setMetadata (m : Metadata) : SpanBuilder -> SpanBuilder :=
  on_span (assign_metadata (Some m)).

Definition setDataClass (d : DataClass) : SpanBuilder -> SpanBuilder :=
  on_span (assign_data_class (Some d)).

Definition useClient (c : Kalibr) (b : SpanBuilder) : SpanBuilder :=
  mkSpanBuilder (b_span b) (b_startTime b) (b_startTimestamp b) (Some c).

(** What [start] reads from outside the builder: [Date.now()],
    [timestamp()], two results of [generateId()], and the singleton
    client when [Kalibr.isInitialized()]. *)
Record StartWorld : Type := mkStartWorld {
  w_now : Z;
  w_iso : string;
  w_id1 : string;
  w_id2 : string;
  w_singleton : option Kalibr
}.

(** A started span. Its [span] is the builder's own object, not a copy;
    [ss_span] is the content of that object when [finish] reads it. *)
Record StartedSpan : Type := mkStartedSpan {
  ss_span : PartialSpan;
  ss_startTime : Z;
  ss_startTimestamp : string;
  ss_client : option Kalibr
}.

(** The client [start] selects: [this.client || singleton]. *)
Definition start_client (b : SpanBuilder) (w : StartWorld) : option Kalibr :=
  match b_client b with
  | Some c => Some c
  | None => w_singleton w
  end.

(** The assignments [start] makes to [this.span]. *)
Definition start_span (b : SpanBuilder) (w : StartWorld) : PartialSpan :=
  let s0 := b_span b in
  let s1 := if falsy (ps_trace_id s0) then assign_trace_id (Some (w_id1 w)) s0 else s0 in
  let s2 := if falsy (ps_span_id s1) then assign_span_id (Some (w_id2 w)) s1 else s1 in
  match start_client b w with
  | Some client =>
      let s3 :=
        if falsy (ps_tenant_id s2)
        then assign_tenant_id (Some (getTenantId client)) s2 else s2 in
      let s4 :=
        match ps_environment s3, getEnvironment client with
        | None, Some e => assign_environment (Some e) s3
        | _, _ => s3
        end in
      if falsy (ps_service s4) && negb (falsy (getService client))
      then assign_service (getService client) s4 else s4
  | None => s2
  end.

(** [start()]: the builder after the call and the span it returns. *)
Definition start (b : SpanBuilder) (w : StartWorld) : SpanBuilder * StartedSpan :=
  let s := start_span b w in
  (mkSpanBuilder s (Some (w_now w)) (Some (w_iso w)) (b_client b),
   mkStartedSpan s (w_now w) (w_iso w) (start_client b w)).

(** *** Finishing a span *)

Record FinishOptions : Type := mkFinishOptions {
  inputTokens : Z;
  outputTokens : Z;
  opt_status : option Status;
  errorType : option string;
  errorMessage : option string;
  stackTrace : option string;
  costUsd : option number;
  opt_metadata : option Metadata;
  autoSend : option bool
}.

(** [m[k] = v] on an object: an existing key keeps its position. *)
Fixpoint assign_key (m : Metadata) (k v : string) : Metadata :=
  match m with
  | [] => [(k, v)]
  | (k', v') :: rest =>
      if String.eqb k' k then (k', v) :: rest else (k', v') :: assign_key rest k v
  end.

(** [{ ...target, ...src }]: the own properties of [src] copied in order. *)
Definition spread (target src : Metadata) : Metadata :=
  fold_left (fun m kv => assign_key m (fst kv) (snd kv)) src target.

(** [a || b ? { ...a, ...b } : undefined]; spreading [undefined] copies
    nothing. *)
Definition merge_metadata (a b : option Metadata) : option Metadata :=
  match a, b with
  | None, None => None
  | _, _ =>
      Some (spread (spread [] (match a with Some m => m | None => [] end))
                   (match b with Some m => m | None => [] end))
  end.

(** [x ?? d] *)
Definition nullish {A : Type} (x : option A) (d : A) : A :=
  match x with
  | Some v => v
  | None => d
  end.

(** The object literal [completeSpan] that [finish] builds once the
    required fields are known to be set; [prov] is [this.span.provider]. *)
Definition completeSpan (ss : StartedSpan) (prov : Provider) (options : FinishOptions)
  (endTime : Z) (endTimestamp : string) : KalibrSpan :=
  let durationMs := (endTime - ss_startTime ss)%Z in
  let span := ss_span ss in
  let model := nullish (ps_model_id span) "" in
  let cost :=
    match costUsd options with
    | Some c => c
    | None => calculateCost prov model (inputTokens options) (outputTokens options)
    end in
  let meta := merge_metadata (ps_metadata span) (opt_metadata options) in
  {| schema_version := "1.0";
     trace_id := ps_trace_id span;
     span_id := ps_span_id span;
     parent_span_id := ps_parent_span_id span;
     tenant_id := nullish (ps_tenant_id span) "";
     workflow_id := ps_workflow_id span;
     sandbox_id := ps_sandbox_id span;
     runtime_env := ps_runtime_env span;
     provider := prov;
     model_id := model;
     model_name := Some (nullish (ps_model_name span) model);
     operation := nullish (ps_operation span) "";
     endpoint := ps_endpoint span;
     duration_ms := durationMs;
     latency_ms := Some durationMs;
     input_tokens := inputTokens options;
     output_tokens := outputTokens options;
     total_tokens := Some (inputTokens options + outputTokens options)%Z;
     cost_usd := cost;
     total_cost_usd := Some cost;
     status := nullish (opt_status options) st_success;
     error_type := errorType options;
     error_message := errorMessage options;
     stack_trace := stackTrace options;
     timestamp := endTimestamp;
     ts_start := Some (ss_startTimestamp ss);
     ts_end := Some endTimestamp;
     environment := ps_environment span;
     service := ps_service span;
     user_id := ps_user_id span;
     request_id := ps_request_id span;
     metadata := meta;
     data_class := ps_data_class span;
     vendor := Some (nullish (ps_vendor span) (provider_name prov)) |}.

(** [finish(options)], with [endTime = Date.now()] and
    [endTimestamp = timestamp()] read at its entry. Returns what the
    promise settles to and the requests made meanwhile. *)
Definition finish (ss : StartedSpan) (options : FinishOptions)
  (endTime : Z) (endTimestamp : string)
  : result Error KalibrSpan * list Transmission :=
  let span := ss_span ss in
  match ps_provider span with
  | None => (Err (mkError "SpanBuilder: provider is required"), [])
  | Some prov =>
  if falsy (ps_model_id span)
  then (Err (mkError "SpanBuilder: model_id is required (use setModel())"), [])
  else if falsy (ps_operation span)
  then (Err (mkError "SpanBuilder: operation is required"), [])
  else if falsy (ps_tenant_id span)
  then (Err (mkError "SpanBuilder: tenant_id is required"), [])
  else
    let complete := completeSpan ss prov options endTime endTimestamp in
    match autoSend options, ss_client ss with
    | Some false, _ | _, None => (Ok complete, [])
    | _, Some client =>
        match sendSpan client complete with
        | (Ok _, sent) => (Ok complete, sent)
        | (Err e, sent) => (Err e, sent)
        end
    end
  end.

(** The value passed to [error]: an [Error] instance (with its class
    name) or a plain object with an optional [type]. *)
Record ErrorValue : Type := mkErrorValue {
  ev_class : option string;
  ev_type : option string;
  ev_message : string;
  ev_stack : option string
}.

(** [error(err, options)]: finish with status ['error']. *)
Definition error (ss : StartedSpan) (err : ErrorValue) (options : FinishOptions)
  (endTime : Z) (endTimestamp : string)
  : result Error KalibrSpan * list Transmission :=
  let ty :=
    match ev_class err with
    | Some cls => cls
    | None => nullish (ev_type err) "Error"
    end in
  finish ss
    (mkFinishOptions (inputTokens options) (outputTokens options) (Some st_error)
       (Some ty) (Some (ev_message err)) (ev_stack err)
       (costUsd options) (opt_metadata options) (autoSend options))
    endTime endTimestamp.

(** [timeout(options)]: finish with status ['timeout']. *)
Definition timeout (ss : StartedSpan) (options : FinishOptions)
  (endTime : Z) (endTimestamp : string)
  : result Error KalibrSpan * list Transmission :=
  finish ss
    (mkFinishOptions (inputTokens options) (outputTokens options) (Some st_timeout)
       (errorType options) (errorMessage options) (stackTrace options)
       (costUsd options) (opt_metadata options) (autoSend options))
    endTime endTimestamp.

(** *** Programs over the builder interface *)

(** One call on a builder. *)
Inductive BuilderCall : Type :=
| CallSetTraceId (v : string)
| CallSetSpanId (v : string)
| CallSetParentSpanId (v : option string)
| CallSetTenantId (v : string)
| CallSetWorkflowId (v : string)
| CallSetSandboxId (v : string)
| CallSetRuntimeEnv (v : string)
| CallSetProvider (v : Provider)
| CallSetModel (v : string)
| CallSetModelName (v : string)
| CallSetOperation (v : string)
| CallSetEndpoint (v : string)
| CallSetEnvironment (v : Environment)
| CallSetService (v : string)
| CallSetUserId (v : string)
| CallSetRequestId (v : string)
| CallSetMetadata (v : Metadata)
| CallSetDataClass (v : DataClass)
| CallUseClient (c : Kalibr)
| CallStart (w : StartWorld).

Definition call (c : BuilderCall) (b : SpanBuilder) : SpanBuilder :=
  match c with
  | CallSetTraceId v => setTraceId v b
  | CallSetSpanId v => setSpanId v b
  | CallSetParentSpanId v => setParentSpanId v b
  | CallSetTenantId v => setTenantId v b
  | CallSetWorkflowId v => setWorkflowId v b
  | CallSetRuntimeEnv v => setRuntimeEnv v b
  | CallSetSandboxId v => setSandboxId v b
  | CallSetProvider v => setProvider v b
  | CallSetModel v => setModel v b
  | CallSetModelName v => setModelName v b
  | CallSetOperation v => setOperation v b
  | CallSetEndpoint v => setEndpoint v b
  | CallSetEnvironment v => setEnvironment v b
  | CallSetService v => setService v b
  | CallSetUserId v => setUserId v b
  | CallSetRequestId v => setRequestId v b
  | CallSetMetadata v => setMetadata v b
  | CallSetDataClass v => setDataClass v b
  | CallUseClient c => useClient c b
  | CallStart w => fst (start b w)
  end.

Definition calls (cs : list BuilderCall) (b : SpanBuilder) : SpanBuilder :=
  fold_left (fun b c => call c b) cs b.

(** The started span returned by [start] after the calls [before] on a
    new builder, as [finish] sees it when the calls [after] were made on
    the builder in between: they write to the one shared span object. *)
Definition started_span (before : list BuilderCall) (w : StartWorld)
  (after : list BuilderCall) : StartedSpan :=
  let '(b1, ss) := start (calls before new_SpanBuilder) w in
  mkStartedSpan (b_span (calls after b1))
    (ss_startTime ss) (ss_startTimestamp ss) (ss_client ss).

End Span.

(** ** Ambient context (context.ts) *)

Module Context.

(** [newTraceId()]: [`${timestamp}-${random}`], where the two base-36
    strings come from the clock and the random source. *)
Definition newTraceId (timestamp36 random36 : string) : string :=
  timestamp36 ++ "-" ++ random36.

End Context.

(** ** Trace capsule (capsule.ts) *)

Module Capsule.
Import JsString Js.

(** ['success' | 'error' | 'timeout'] *)
Inductive HopStatus : Type := hop_success | hop_error | hop_timeout.

(** [CapsuleHop]: every field is optional; [extra] holds the custom
    fields allowed by the index signature. *)
Record CapsuleHop : Type := mkHop {
  provider : option string;
  operation : option string;
  model : option string;
  duration_ms : option number;
  status : option HopStatus;
  cost_usd : option number;
  input_tokens : option number;
  output_tokens : option number;
  error_type : option string;
  agent_name : option string;
  hop_index : option Z;
  extra : list (string * string)
}.

Record TraceCapsule : Type := mkCapsule {
  traceId : string;
  timestamp : string;
  aggregateCostUsd : number;
  aggregateLatencyMs : number;
  lastNHops : list CapsuleHop;
  tenantId : option string;
  workflowId : option string;
  metadata : list (string * string);
  contextToken : string;
  parentContextToken : option string
}.

(** Maximum number of hops to keep. *)
Definition MAX_HOPS : nat := 5.

(** The constructor's [options] object. *)
Record CapsuleOptions : Type := mkCapsuleOptions {
  o_traceId : option string;
  o_lastNHops : option (list CapsuleHop);
  o_aggregateCostUsd : option number;
  o_aggregateLatencyMs : option number;
  o_tenantId : option string;
  o_workflowId : option string;
  o_metadata : option (list (string * string));
  o_contextToken : option string;
  o_parentContextToken : option string
}.

(** [{}], the default argument of the constructor. *)
Definition no_options : CapsuleOptions :=
  mkCapsuleOptions None None None None None None None None None.

(** What the constructor reads from outside: the current ISO time and
    two fresh trace identifiers. *)
Record CapsuleWorld : Type := mkCapsuleWorld {
  cw_iso : string;
  cw_newTraceId1 : string;
  cw_newTraceId2 : string
}.

(** [x || d] on strings. *)
Definition or_else (x : option string) (d : string) : string :=
  match x with
  | Some s => if String.eqb s "" then d else s
  | None => d
  end.

(** [new TraceCapsule(options)] *)
Definition new_TraceCapsule (options : CapsuleOptions) (w : CapsuleWorld) : TraceCapsule :=
  {| traceId := or_else (o_traceId options) (cw_newTraceId1 w);
     timestamp := cw_iso w;
     aggregateCostUsd :=
       match o_aggregateCostUsd options with Some x => x | None => Num 0 end;
     aggregateLatencyMs :=
       match o_aggregateLatencyMs options with Some x => x | None => Num 0 end;
     lastNHops := match o_lastNHops options with Some l => l | None => [] end;
     tenantId := o_tenantId options;
     workflowId := o_workflowId options;
     metadata := match o_metadata options with Some m => m | None => [] end;
     contextToken := or_else (o_contextToken options) (cw_newTraceId2 w);
     parentContextToken := o_parentContextToken options |}.

(** [{ ...hop, hop_index: i }] *)
Definition with_hop_index (hop : CapsuleHop) (i : Z) : CapsuleHop :=
  mkHop (provider hop) (operation hop) (model hop) (duration_ms hop) (status hop)
    (cost_usd hop) (input_tokens hop) (output_tokens hop) (error_type hop)
    (agent_name hop) (Some i) (extra hop).

(** [hop.cost_usd ?? 0.0] and [hop.duration_ms ?? 0.0] *)
Definition or_zero (x : option number) : number :=
  match x with
  | Some v => v
  | None => Num 0
  end.

(** [appendHop(hop)], with [nowIso = new Date().toISOString()]. *)
Definition appendHop (hop : CapsuleHop) (nowIso : string) (c : TraceCapsule) : TraceCapsule :=
  let indexedHop := with_hop_index hop (Z.of_nat (List.length (lastNHops c))) in
  let pushed := lastNHops c ++ [indexedHop] in
  let hops := if (MAX_HOPS <? List.length pushed)%nat then tl pushed else pushed in
  {| traceId := traceId c;
     timestamp := nowIso;
     aggregateCostUsd := num_add (aggregateCostUsd c) (or_zero (cost_usd hop));
     aggregateLatencyMs := num_add (aggregateLatencyMs c) (or_zero (duration_ms hop));
     lastNHops := hops;
     tenantId := tenantId c;
     workflowId := workflowId c;
     metadata := metadata c;
     contextToken := contextToken c;
     parentContextToken := parentContextToken c |}.

(** A sequence of [appendHop] calls, each with the time it was made at. *)
Definition appendHops (hops : list (CapsuleHop * string)) (c : TraceCapsule) : TraceCapsule :=
  fold_left (fun c h => appendHop (fst h) (snd h) c) hops c.

(** [getHopCount()] *)
Definition getHopCount (c : TraceCapsule) : nat := List.length (lastNHops c).

End Capsule.

(** ** Router (router section of context.ts) *)

Module Router.
Import JsString Js.

(** [type LLMProvider = 'openai' | 'anthropic' | 'google' | 'cohere'] *)
Inductive LLMProvider : Type := llm_openai | llm_anthropic | llm_google | llm_cohere.

(** [detectProvider(model)]: throws on an unrecognised identifier. *)
Definition detectProvider (model : string) : result Error LLMProvider :=
  let modelLower := toLowerCase model in
  if startsWith modelLower "gpt-" || startsWith modelLower "o1-"
     || startsWith modelLower "o3-"
  then Ok llm_openai
  else if startsWith modelLower "claude-" then Ok llm_anthropic
  else if startsWith modelLower "gemini-" || includes modelLower "models/gemini"
  then Ok llm_google
  else if startsWith modelLower "command" then Ok llm_cohere
  else Err (mkError
    ("Cannot determine provider for model: " ++ model ++ ". " ++
     "Supported prefixes: gpt-, o1-, o3- (OpenAI), claude- (Anthropic), " ++
     "gemini-, models/gemini (Google), command (Cohere)")).

(** [string | string[]] for the [tools] of a path. *)
Inductive Tools : Type :=
| OneTool (t : string)
| ManyTools (ts : list string).

Record PathConfig : Type := mkPath {
  model : string;
  tools : option Tools;
  params : option (list (string * string))
}.

(** [type PathSpec = string | PathConfig] *)
Inductive PathSpec : Type :=
| SpecModel (m : string)
| SpecConfig (p : PathConfig).

Definition normalizePath (path : PathSpec) : PathConfig :=
  match path with
  | SpecModel m => mkPath m None None
  | SpecConfig p => p
  end.

(** The fields of [DecideResponse] the router reads or stores. *)
Record DecideResponse : Type := mkDecide {
  path_id : string;
  model_id : string;
  tool_id : option string;
  reason : string;
  exploration : bool
}.

Inductive Role : Type := role_system | role_user | role_assistant.

Record Message : Type := mkMessage { role : Role; content : string }.

Record CompletionOptions : Type := mkCompletionOptions {
  forceModel : option string;
  maxTokens : option Z;
  temperature : option number;
  topP : option number;
  stop : option (list string)
}.

Record Choice : Type := mkChoice {
  index : Z;
  message_content : option string;
  finish_reason : string
}.

Record ChatCompletion : Type := mkChatCompletion {
  id : string;
  created : Z;
  completion_model : string;
  choices : list Choice;
  prompt_tokens : Z;
  completion_tokens : Z;
  total_tokens : Z
}.

(** The arguments of one [reportOutcome(traceId, goal, success, options)]. *)
Record OutcomeArgs : Type := mkOutcomeArgs {
  oa_traceId : string;
  oa_goal : string;
  oa_success : bool;
  oa_score : option number;
  oa_failureReason : option string;
  oa_metadata : option (list (string * string))
}.

(** The trace of one router: every request that left it, with whether
    it settled successfully, and two markers of the fallback loop: the
    start of an iteration and the entry of its [catch] block (where the
    code logs the failure of the candidate). *)
Inductive Event : Type :=
| EvDecide (goal : string) (settled : bool)
| EvAttempt (candidate : PathConfig)
| EvDispatch (provider : LLMProvider) (model : string) (settled : bool)
| EvFailed (candidate : PathConfig) (e : Error)
| EvReportOutcome (args : OutcomeArgs) (settled : bool).

(** The services behind the router. Each answer may depend on
    everything that happened before the request. *)
Record Services : Type := mkServices {
  decide : list Event -> string -> result Error DecideResponse;
  callProvider : list Event -> LLMProvider -> string -> list Message ->
                 CompletionOptions -> result Error ChatCompletion;
  reportOutcome : list Event -> OutcomeArgs -> result Error unit
}.

(** What one method call reads from its surroundings: the ambient trace
    id ([getTraceId()]) and the ingredients of [newTraceId()]. *)
Record Ambient : Type := mkAmbient {
  getTraceId : option string;
  timestamp36 : string;
  random36 : string
}.

(** The [successWhen] callback is code of the user: called on an
    output it returns a verdict or throws, and what it does may depend
    on everything that happened before. *)
Definition SuccessWhen : Type := list Event -> string -> result Error bool.

Record Router : Type := mkRouter {
  goal : string;
  paths : list PathConfig;
  successWhen : option SuccessWhen;
  explorationRate : number;
  autoRegister : bool;
  lastTraceId : option string;
  lastDecision : option DecideResponse;
  lastModel : option string;
  outcomeReported : bool
}.

Record RouterConfig : Type := mkRouterConfig {
  c_goal : string;
  c_paths : option (list PathSpec);
  c_successWhen : option SuccessWhen;
  c_explorationRate : option number;
  c_autoRegister : option bool
}.

(** The constructor. The background registration of the paths is not
    awaited and its failures are discarded; it is left out. *)
Definition new_Router (config : RouterConfig) : result Error Router :=
  let ps := map normalizePath (match c_paths config with Some l => l | None => [] end) in
  match ps with
  | [] => Err (mkError "Router requires at least one path")
  | _ :: _ =>
      Ok (mkRouter (c_goal config) ps (c_successWhen config)
            (match c_explorationRate config with Some x => x | None => Num 0.1 end)
            (match c_autoRegister config with Some b => b | None => true end)
            None None None false)
  end.

(** [addPath]: the new path goes to the end of the list. *)
Definition addPath (m : string) (t : option Tools) (p : option (list (string * string)))
  (r : Router) : Router :=
  mkRouter (goal r) (paths r ++ [mkPath m t p]) (successWhen r) (explorationRate r)
    (autoRegister r) (lastTraceId r) (lastDecision r) (lastModel r) (outcomeReported r).

Definition set_outcomeReported (b : bool) (r : Router) : Router :=
  mkRouter (goal r) (paths r) (successWhen r) (explorationRate r) (autoRegister r)
    (lastTraceId r) (lastDecision r) (lastModel r) b.

Definition set_lastTraceId (t : option string) (r : Router) : Router :=
  mkRouter (goal r) (paths r) (successWhen r) (explorationRate r) (autoRegister r)
    t (lastDecision r) (lastModel r) (outcomeReported r).

Definition set_lastDecision (d : option DecideResponse) (r : Router) : Router :=
  mkRouter (goal r) (paths r) (successWhen r) (explorationRate r) (autoRegister r)
    (lastTraceId r) d (lastModel r) (outcomeReported r).

Definition set_lastModel (m : option string) (r : Router) : Router :=
  mkRouter (goal r) (paths r) (successWhen r) (explorationRate r) (autoRegister r)
    (lastTraceId r) (lastDecision r) m (outcomeReported r).

(** [a || b] on optional strings. *)
Definition or_string (a b : option string) : option string :=
  if falsy a then b else a.

(** The state threaded through the methods: the router's fields and the
    trace so far. *)
Definition State : Type := (Router * list Event)%type.

(** [reportFailure(errorType, errorMessage)] *)
Definition reportFailure (sv : Services) (errorType errorMessage : string)
  (st : State) : State :=
  let '(r, h) := st in
  if outcomeReported r || falsy (lastTraceId r) then st
  else
    let args :=
      mkOutcomeArgs (match lastTraceId r with Some t => t | None => "" end) (goal r) false
        None (Some (errorType ++ ": " ++ errorMessage)%string)
        (Some [("error_type", errorType)]) in
    match reportOutcome sv h args with
    | Ok _ => (set_outcomeReported true r, h ++ [EvReportOutcome args true])
    | Err _ => (r, h ++ [EvReportOutcome args false])
    end.

(** [report(success, reason?, score?)] *)
Definition report (sv : Services) (am : Ambient) (success : bool)
  (reason : option string) (score : option number) (st : State) : State :=
  let '(r, h) := st in
  if outcomeReported r then st
  else
    let traceId := or_string (lastTraceId r) (getTraceId am) in
    if falsy traceId then st
    else
      let args :=
        mkOutcomeArgs (match traceId with Some t => t | None => "" end) (goal r) success
          score (if success then None else reason) None in
      match reportOutcome sv h args with
      | Ok _ => (set_outcomeReported true r, h ++ [EvReportOutcome args true])
      | Err _ => (r, h ++ [EvReportOutcome args false])
      end.

(** The ordered candidate list built by [completion]. *)
Definition candidatePaths (ps : list PathConfig) (selectedModel : string)
  : list PathConfig :=
  (match find (fun p => String.eqb (model p) selectedModel) ps with
   | Some selectedPath => [selectedPath]
   | None => []
   end)
  ++ filter (fun p => negb (String.eqb (model p) selectedModel)) ps.

(** The [try] body of one iteration: detect the provider, dispatch. *)
Definition attempt (sv : Services) (messages : list Message)
  (options : CompletionOptions) (candidate : PathConfig) (h : list Event)
  : result Error ChatCompletion * list Event :=
  match detectProvider (model candidate) with
  | Err e => (Err e, h)
  | Ok candidateProvider =>
      match callProvider sv h candidateProvider (model candidate) messages options with
      | Ok response =>
          (Ok response, h ++ [EvDispatch candidateProvider (model candidate) true])
      | Err e =>
          (Err e, h ++ [EvDispatch candidateProvider (model candidate) false])
      end
  end.

(** The fallback loop over the remaining candidates. Returns
    [response], [lastError] and the state. *)
Fixpoint try_candidates (sv : Services) (messages : list Message)
  (options : CompletionOptions) (candidates : list PathConfig)
  (lastError : option Error) (st : State)
  : option ChatCompletion * option Error * State :=
  match candidates with
  | [] => (None, lastError, st)
  | candidate :: rest =>
      let '(r, h) := st in
      match attempt sv messages options candidate (h ++ [EvAttempt candidate]) with
      | (Ok response, h') =>
          (Some response, lastError, (set_lastModel (Some (model candidate)) r, h'))
      | (Err e, h') =>
          try_candidates sv messages options rest (Some e)
            (reportFailure sv "provider_error" (message e)
               (r, h' ++ [EvFailed candidate e]))
      end
  end.

(** [response.choices[0]?.message?.content || ''] *)
Definition primary_content (response : ChatCompletion) : string :=
  match choices response with
  | c :: _ => match message_content c with Some s => s | None => "" end
  | [] => ""
  end.

(** The model [completion] selects: the forced one, else the decision
    of the service, else (when the query fails) the first configured
    path. With no path at all the last step throws. *)
Definition selectModel (sv : Services) (options : CompletionOptions) (st : State)
  : result (Error * State) (string * State) :=
  let '(r, h) := st in
  if negb (falsy (forceModel options))
  then Ok (match forceModel options with Some m => m | None => "" end, (r, h))
  else
    match decide sv h (goal r) with
    | Ok decision =>
        Ok (model_id decision,
            (set_lastDecision (Some decision) r, h ++ [EvDecide (goal r) true]))
    | Err _ =>
        match paths r with
        | first :: _ => Ok (model first, (r, h ++ [EvDecide (goal r) false]))
        | [] =>
            Err (mkError "Cannot read properties of undefined (reading 'model')",
                 (r, h ++ [EvDecide (goal r) false]))
        end
    end.

(** After the loop: throw the last error when no candidate served the
    request, else evaluate the outcome if a predicate is configured and
    nothing was reported yet, and return the response. The callback is
    called outside any [try]: what it throws rejects the completion. *)
Definition conclude (sv : Services) (am : Ambient)
  (loop : option ChatCompletion * option Error * State)
  : result Error ChatCompletion * State :=
  match loop with
  | (None, lastError, st) =>
      (Err (match lastError with
            | Some e => e
            | None => mkError "All paths failed"
            end), st)
  | (Some response, _, (r, h)) =>
      match successWhen r with
      | Some pred =>
          if negb (outcomeReported r)
          then
            let output := primary_content response in
            match pred h output with
            | Ok success =>
                (Ok response,
                 report sv am success
                   (if success then None
                    else Some "Output did not meet success criteria")
                   None (r, h))
            | Err e => (Err e, (r, h))
            end
          else (Ok response, (r, h))
      | None => (Ok response, (r, h))
      end
  end.

(** [completion(messages, options)] *)
Definition completion (sv : Services) (am : Ambient) (messages : list Message)
  (options : CompletionOptions) (st : State)
  : result Error ChatCompletion * State :=
  let '(r, h) := st in
  let r := set_outcomeReported false r in
  let r :=
    set_lastTraceId
      (or_string (getTraceId am)
         (Some (Context.newTraceId (timestamp36 am) (random36 am)))) r in
  match selectModel sv options (r, h) with
  | Err (e, st') => (Err e, st')
  | Ok (selectedModel, st') =>
      let candidates := candidatePaths (paths r) selectedModel in
      conclude sv am (try_candidates sv messages options candidates None st')
  end.

Definition getLastModel (r : Router) : option string := lastModel r.
Definition getLastTraceId (r : Router) : option string := lastTraceId r.
Definition getLastDecision (r : Router) : option DecideResponse := lastDecision r.

End Router.

(** ** Reference definitions, in the words of the specification

    These are compared with the code above; none of them is used by it. *)

Module Reference.
Import JsString Js Cost.

(** The ordered substring patterns of each provider with the canonical
    bucket each one selects. *)
Definition spec_patterns (p : Provider) : list (list string * string) :=
  match p with
  | openai =>
      [ (["gpt-4o-mini"], "gpt-4o-mini"); (["gpt-4o"], "gpt-4o");
        (["gpt-4-turbo"], "gpt-4-turbo"); (["gpt-4"], "gpt-4");
        (["gpt-3.5"], "gpt-3.5-turbo") ]
  | anthropic =>
      [ (["claude-3.5-sonnet"; "claude-3-5-sonnet"], "claude-3.5-sonnet");
        (["claude-3-opus"], "claude-3-opus");
        (["claude-3-sonnet"], "claude-3-sonnet");
        (["claude-3-haiku"], "claude-3-haiku") ]
  | google =>
      [ (["gemini-1.5-flash"], "gemini-1.5-flash");
        (["gemini-1.5-pro"], "gemini-1.5-pro");
        (["gemini-pro"], "gemini-pro") ]
  | cohere =>
      [ (["command-r-plus"], "command-r-plus"); (["command-r"], "command-r");
        (["command"], "command") ]
  | custom => []
  end.

(** Normalisation by ordered substring matches: the first pattern found
    in the lower-cased name selects the bucket, otherwise the lower-cased
    name stands. *)
Definition spec_normalize (p : Provider) (m : string) : string :=
  let ml := toLowerCase m in
  match find (fun e => existsb (includes ml) (fst e)) (spec_patterns p) with
  | Some e => snd e
  | None => ml
  end.

(** Most specific first: no pattern is checked after a pattern it
    contains, so a longer pattern is never masked by its prefix. *)
Fixpoint most_specific_first (t : list (list string * string)) : bool :=
  match t with
  | [] => true
  | e :: rest =>
      forallb (fun l =>
        forallb (fun pe => forallb (fun pl => negb (includes pl pe)) (fst l)) (fst e))
        rest
      && most_specific_first rest
  end.

(** The price pair the specification resolves: the table entry of
    (provider, normalised model), else the default pair. *)
Definition spec_price_pair (p : Provider) (m : string) : ModelPricing :=
  match PRICING p with
  | Some t =>
      match own_property t (normalizeModelName p m) with
      | Some pr => pr
      | None => DEFAULT_PRICING
      end
  | None => DEFAULT_PRICING
  end.

(** [round(x, 6)]: to the nearest millionth, ties upwards. *)
Definition spec_round6 (x : Q) : Q :=
  inject_Z (Qfloor (x * 1000000 + (1 # 2))) / 1000000.

(** The cost formula of the specification. *)
Definition spec_cost (p : Provider) (m : string) (inputTokens outputTokens : Z) : Q :=
  spec_round6
    (inject_Z inputTokens / 1000000 * input (spec_price_pair p m)
     + inject_Z outputTokens / 1000000 * output (spec_price_pair p m)).

(** The fields [finish] requires, in the order it checks them. *)
Inductive RequiredField : Type :=
| req_provider | req_model_id | req_operation | req_tenant_id.

Definition required_fields : list RequiredField :=
  [req_provider; req_model_id; req_operation; req_tenant_id].

Definition field_name (f : RequiredField) : string :=
  match f with
  | req_provider => "provider"
  | req_model_id => "model_id"
  | req_operation => "operation"
  | req_tenant_id => "tenant_id"
  end.

(** A required field is unset when the code's test [!this.span.f] holds:
    it was never assigned, or it holds the empty string. *)
Definition unset (s : Span.PartialSpan) (f : RequiredField) : bool :=
  match f with
  | req_provider => match Span.ps_provider s with None => true | Some _ => false end
  | req_model_id => falsy (Span.ps_model_id s)
  | req_operation => falsy (Span.ps_operation s)
  | req_tenant_id => falsy (Span.ps_tenant_id s)
  end.

(** The first unset required field, if any. *)
Definition first_missing (s : Span.PartialSpan) : option RequiredField :=
  find (unset s) required_fields.

(** The validation error of each required field. *)
Definition validation_error (f : RequiredField) : Error :=
  match f with
  | req_provider => mkError "SpanBuilder: provider is required"
  | req_model_id => mkError "SpanBuilder: model_id is required (use setModel())"
  | req_operation => mkError "SpanBuilder: operation is required"
  | req_tenant_id => mkError "SpanBuilder: tenant_id is required"
  end.

(** The legacy field [vendor] mirrors [provider] on the builder's span. *)
Definition vendor_mirrors_provider (s : Span.PartialSpan) : Prop :=
  Span.ps_vendor s = option_map provider_name (Span.ps_provider s).

(** What the specification states of every finished span. *)
Definition finished_span_invariant (s : Span.KalibrSpan) : Prop :=
  Span.total_tokens s = Some (Span.input_tokens s + Span.output_tokens s)%Z
  /\ (0 <= Span.duration_ms s)%Z
  /\ Span.latency_ms s = Some (Span.duration_ms s)
  /\ Span.total_cost_usd s = Some (Span.cost_usd s)
  /\ Span.vendor s = Some (provider_name (Span.provider s)).

(** The last [n] entries of a list, in their order. *)
Definition lastn {A : Type} (n : nat) (l : list A) : list A :=
  skipn (List.length l - n) l.

(** The hops of a sequence of appends as [appendHop] stores them, when
    [n] hops went before them into a capsule that holds at most
    [MAX_HOPS]: the index given to a hop is the length of the window at
    that moment, which stops growing at [MAX_HOPS]. *)
Fixpoint stored_hops (n : nat) (hops : list Capsule.CapsuleHop) : list Capsule.CapsuleHop :=
  match hops with
  | [] => []
  | h :: t =>
      Capsule.with_hop_index h (Z.of_nat (Nat.min n Capsule.MAX_HOPS))
      :: stored_hops (S n) t
  end.

(** Sum of a numeric field over appended hops, absent values as zero,
    added in the order of the appends to the starting value [a0]. *)
Definition sum_over (field : Capsule.CapsuleHop -> option number) (a0 : number)
  (hops : list (Capsule.CapsuleHop * string)) : number :=
  fold_left num_add (map (fun h => Capsule.or_zero (field (fst h))) hops) a0.

(** The indices the specification assigns: the k-th appended hop
    (1-based) gets [k - 1]. *)
Definition spec_hop_indices (k : nat) : list (option Z) :=
  map (fun i => Some (Z.of_nat i)) (seq 0 k).

(** A hop without its index: what the caller passed, whatever index it
    was stored under. *)
Definition without_index (h : Capsule.CapsuleHop) : Capsule.CapsuleHop :=
  Capsule.mkHop (Capsule.provider h) (Capsule.operation h) (Capsule.model h)
    (Capsule.duration_ms h) (Capsule.status h) (Capsule.cost_usd h)
    (Capsule.input_tokens h) (Capsule.output_tokens h) (Capsule.error_type h)
    (Capsule.agent_name h) None (Capsule.extra h).

(** *** Router *)

(** [p.model === selectedModel] *)
Definition has_model (sel : string) (p : Router.PathConfig) : bool :=
  String.eqb (Router.model p) sel.

Fixpoint remove_first {A : Type} (f : A -> bool) (l : list A) : list A :=
  match l with
  | [] => []
  | x :: t => if f x then t else x :: remove_first f t
  end.

(** The fallback chain in the words of the specification: the selected
    path first if some configured path has the selected model, then all
    remaining configured paths in their order, skipping the one already
    placed first. *)
Definition spec_candidates (ps : list Router.PathConfig) (sel : string)
  : list Router.PathConfig :=
  match find (has_model sel) ps with
  | Some p => p :: remove_first (has_model sel) ps
  | None => ps
  end.

(** The candidates a trace shows as attempted, in order. *)
Definition attempts (evs : list Router.Event) : list Router.PathConfig :=
  flat_map (fun ev => match ev with Router.EvAttempt c => [c] | _ => [] end) evs.

(** The failures a trace shows as caught, in order. *)
Definition failures (evs : list Router.Event) : list (Router.PathConfig * Error) :=
  flat_map (fun ev => match ev with Router.EvFailed c e => [(c, e)] | _ => [] end) evs.

(** The outcome submissions of a trace, each with whether it was
    accepted. *)
Definition submissions (evs : list Router.Event) : list (Router.OutcomeArgs * bool) :=
  flat_map (fun ev => match ev with Router.EvReportOutcome a b => [(a, b)] | _ => [] end)
    evs.

(** A provider call of the trace that returned a response. *)
Definition served (ev : Router.Event) : Prop :=
  exists p m, ev = Router.EvDispatch p m true.

(** The arguments [reportFailure] submits. *)
Definition failure_report (a : Router.OutcomeArgs) : Prop :=
  Router.oa_success a = false
  /\ Router.oa_metadata a = Some [("error_type", "provider_error")].

(** The arguments [report] submits (it passes no metadata). *)
Definition evaluation_report (a : Router.OutcomeArgs) : Prop :=
  Router.oa_metadata a = None.

(** The requests of a failed [try] body: none when the provider could
    not be detected, else the one rejected provider call. *)
Definition dispatch_failed (c : Router.PathConfig) (devs : list Router.Event) : Prop :=
  devs = [] \/ exists p, devs = [Router.EvDispatch p (Router.model c) false].

(** The effect of one [reportFailure] call: nothing when the outcome was
    already reported or no trace id is known, else one submission, which
    sets the flag when it is accepted. *)
Definition failure_reported (r : Router.Router) (revs : list Router.Event)
  (r1 : Router.Router) : Prop :=
  (revs = [] /\ r1 = r
   /\ (Router.outcomeReported r = true \/ falsy (Router.lastTraceId r) = true))
  \/ (exists a b, revs = [Router.EvReportOutcome a b] /\ failure_report a
        /\ Router.outcomeReported r = false
        /\ r1 = if b then Router.set_outcomeReported true r else r).

(** The events a call added to the trace [h], given the trace [h']
    after it. *)
Definition new_events (h h' : list Router.Event) : list Router.Event :=
  skipn (List.length h) h'.

(** The last error of a list of failures, [d] when there is none. *)
Definition last_error (fs : list (Router.PathConfig * Error)) (d : option Error)
  : option Error :=
  last (map (fun f => Some (snd f)) fs) d.

(** The runs of the fallback loop: from the candidates, [lastError] and
    the router at its entry to the events it adds and the [response],
    [lastError] and router at its exit. *)
Inductive loop_run :
  list Router.PathConfig -> option Error -> Router.Router -> list Router.Event ->
  option Router.ChatCompletion -> option Error -> Router.Router -> Prop :=
| run_exhausted le r :
    loop_run [] le r [] None le r
| run_served c rest le r p resp :
    loop_run (c :: rest) le r
      [Router.EvAttempt c; Router.EvDispatch p (Router.model c) true]
      (Some resp) le (Router.set_lastModel (Some (Router.model c)) r)
| run_failed c rest le r e devs revs r1 evs resp le' r' :
    dispatch_failed c devs ->
    failure_reported r revs r1 ->
    loop_run rest (Some e) r1 evs resp le' r' ->
    loop_run (c :: rest) le r
      (Router.EvAttempt c :: devs ++ Router.EvFailed c e :: revs ++ evs)
      resp le' r'.

(** The effect of the automatic evaluation after a served request. *)
Definition evaluated (r : Router.Router) (aevs : list Router.Event)
  (r' : Router.Router) : Prop :=
  (aevs = [] /\ r' = r)
  \/ (exists a b, aevs = [Router.EvReportOutcome a b] /\ evaluation_report a
        /\ Router.outcomeReported r = false /\ Router.successWhen r <> None
        /\ r' = if b then Router.set_outcomeReported true r else r).

(** The runs of [completion] on a router with at least one path. *)
Inductive completion_run (r : Router.Router) :
  list Router.Event -> result Error Router.ChatCompletion -> Router.Router -> Prop :=
| run_all_failed sel devs r1 evs le r2 :
    submissions devs = [] -> attempts devs = [] -> failures devs = [] ->
    Forall (fun ev => ~ served ev) devs ->
    Router.outcomeReported r1 = false ->
    falsy (Router.lastTraceId r1) = false ->
    loop_run (Router.candidatePaths (Router.paths r) sel) None r1 evs None le r2 ->
    completion_run r (devs ++ evs)
      (Err (match le with Some e => e | None => mkError "All paths failed" end)) r2
| run_one_served sel devs r1 evs resp le r2 aevs r3 :
    submissions devs = [] -> attempts devs = [] -> failures devs = [] ->
    Forall (fun ev => ~ served ev) devs ->
    Router.outcomeReported r1 = false ->
    falsy (Router.lastTraceId r1) = false ->
    loop_run (Router.candidatePaths (Router.paths r) sel) None r1 evs (Some resp) le r2 ->
    evaluated r2 aevs r3 ->
    completion_run r (devs ++ evs ++ aevs) (Ok resp) r3
| run_callback_threw sel devs r1 evs resp le r2 pred hist e :
    submissions devs = [] -> attempts devs = [] -> failures devs = [] ->
    Forall (fun ev => ~ served ev) devs ->
    Router.outcomeReported r1 = false ->
    falsy (Router.lastTraceId r1) = false ->
    loop_run (Router.candidatePaths (Router.paths r) sel) None r1 evs (Some resp) le r2 ->
    Router.successWhen r2 = Some pred ->
    Router.outcomeReported r2 = false ->
    pred hist (Router.primary_content resp) = Err e ->
    completion_run r (devs ++ evs) (Err e) r2.

(** Both prices of a pair are non-negative. *)
Definition nonneg_pricing (pr : ModelPricing) : Prop :=
  0 <= input pr /\ 0 <= output pr.

End Reference.

(** ** Sample values used by the examples below *)

Module Samples.
Import Cost Span.

Definition sample_world : StartWorld :=
  mkStartWorld 1000 "2026-01-01T00:00:01.000Z"
    "0123456789abcdef0123456789abcdef" "fedcba9876543210fedcba9876543210" None.

Definition sample_calls : list BuilderCall :=
  [ CallSetProvider openai; CallSetModel "gpt-4o";
    CallSetOperation "chat_completion"; CallSetTenantId "tenant-1" ].

Definition sample_options : FinishOptions :=
  mkFinishOptions 100 50 None None None None None None (Some false).

(** A started span whose finish reads the clock at [endTime]. *)
Definition sample_finish (endTime : Z) : result Error KalibrSpan * list Transmission :=
  finish (started_span sample_calls sample_world []) sample_options
    endTime "2026-01-01T00:00:01.250Z".

End Samples.

Module CapsuleSamples.
Import Js Capsule.

Definition sample_hop : CapsuleHop :=
  mkHop (Some "openai") (Some "summarize") (Some "gpt-4o") (Some (Num 1200))
    (Some hop_success) (Some (Num 0.005)) None None None None None [].

Definition sample_capsule_world : CapsuleWorld :=
  mkCapsuleWorld "2026-01-01T00:00:00.000Z" "lxyz123-abc456" "lxyz124-def789".

(** [new TraceCapsule()] *)
Definition fresh_capsule : TraceCapsule :=
  new_TraceCapsule no_options sample_capsule_world.

(** [new TraceCapsule({ lastNHops: [...] })] with six hops, as
    [fromJson] builds it from a payload that lists six. *)
Definition six_hop_capsule : TraceCapsule :=
  new_TraceCapsule
    (mkCapsuleOptions None (Some (repeat sample_hop 6)) None None None None None None None)
    sample_capsule_world.

(** [n] appends of the sample hop. *)
Definition sample_appends (n : nat) : list (CapsuleHop * string) :=
  repeat (sample_hop, "2026-01-01T00:00:05.000Z") n.

End CapsuleSamples.

Module RouterSamples.
Import Js Router.

Definition path_gpt4o : PathConfig := mkPath "gpt-4o" None None.
Definition path_claude : PathConfig := mkPath "claude-3-sonnet" None None.

(** Two configured paths on one model, with different tools. *)
Definition path_gpt4o_search : PathConfig :=
  mkPath "gpt-4o" (Some (OneTool "search")) None.
Definition path_gpt4o_calculator : PathConfig :=
  mkPath "gpt-4o" (Some (OneTool "calculator")) None.

Definition sample_response : ChatCompletion :=
  mkChatCompletion "msg_01" 1767225600 "claude-3-sonnet"
    [mkChoice 0 (Some "A short summary.") "stop"] 12 5 17.

Definition sample_ambient : Ambient := mkAmbient None "lxyz123" "abc456def789".

Definition no_completion_options : CompletionOptions :=
  mkCompletionOptions None None None None None.

(** [new Router({ goal, paths: ['gpt-4o', 'claude-3-sonnet'], successWhen })] *)
Definition sample_router : Router :=
  mkRouter "summarize" [path_gpt4o; path_claude] (Some (fun _ _ => Ok true))
    (Num 0.1) true None None None false.

Definition provider_outage (p : LLMProvider) : Error :=
  match p with
  | llm_openai => mkError "openai outage"
  | llm_anthropic => mkError "anthropic outage"
  | llm_google => mkError "google outage"
  | llm_cohere => mkError "cohere outage"
  end.

(** The decision service names [claude-3-sonnet]; every provider is
    down; outcome reports are accepted. *)
Definition services_all_down : Services :=
  mkServices
    (fun _ _ => Ok (mkDecide "path-2" "claude-3-sonnet" None "highest success rate" false))
    (fun _ p _ _ _ => Err (provider_outage p))
    (fun _ _ => Ok tt).

(** The decision service names [gpt-4o]; OpenAI is down, the other
    providers answer; outcome reports are accepted. *)
Definition services_openai_down : Services :=
  mkServices
    (fun _ _ => Ok (mkDecide "path-1" "gpt-4o" None "highest success rate" false))
    (fun _ p _ _ _ =>
       match p with
       | llm_openai => Err (provider_outage p)
       | _ => Ok sample_response
       end)
    (fun _ _ => Ok tt).

(** Every provider answers; outcome reports are accepted. *)
Definition services_all_up : Services :=
  mkServices
    (fun _ _ => Ok (mkDecide "path-1" "gpt-4o" None "highest success rate" false))
    (fun _ _ _ _ _ => Ok sample_response)
    (fun _ _ => Ok tt).

(** Every provider answers; the outcome service refuses every report. *)
Definition services_reports_refused : Services :=
  mkServices
    (fun _ _ => Ok (mkDecide "path-1" "gpt-4o" None "highest success rate" false))
    (fun _ _ _ _ _ => Ok sample_response)
    (fun _ _ => Err (mkError "503 Service Unavailable")).

(** [new Router({ goal, paths: ['gpt-4o', 'claude-3-sonnet'] })]: no
    [successWhen], so that outcomes are reported by hand. *)
Definition plain_router : Router :=
  mkRouter "summarize" [path_gpt4o; path_claude] None (Num 0.1) true
    None None None false.

(** What [report(true)] submits after a completion of the sample
    routers under the sample ambient. *)
Definition sample_success_args : OutcomeArgs :=
  mkOutcomeArgs "lxyz123-abc456def789" "summarize" true None None None.

(** The sample router with a [successWhen] that parses the output as
    JSON ([(output) => JSON.parse(output).ok]): on the sample response,
    which is prose, the parser throws. *)
Definition router_with_parser : Router :=
  mkRouter "summarize" [path_gpt4o; path_claude]
    (Some (fun _ output =>
             if String.eqb output "A short summary."
             then Err (mkError "Unexpected token A in JSON at position 0")
             else Ok true))
    (Num 0.1) true None None None false.

(** The failure report of the sample router for OpenAI's outage. *)
Definition sample_failure_args : OutcomeArgs :=
  mkOutcomeArgs "lxyz123-abc456def789" "summarize" false None
    (Some "provider_error: openai outage")
    (Some [("error_type", "provider_error")]).

End RouterSamples.

(** ** Trace capsule: serialised form and the module's capsule (capsule.ts) *)

Module CapsuleStore.
Import JsString Js Capsule.

(** [getLastHop()] *)
Definition getLastHop (c : TraceCapsule) : option CapsuleHop :=
  if (0 <? List.length (lastNHops c))%nat
  then nth_error (lastNHops c) (List.length (lastNHops c) - 1)
  else None.

(** [TraceCapsuleData] as the code reads it ([Partial<TraceCapsuleData>],
    or what [JSON.parse] returned): an absent key is [None]. *)
Record TraceCapsuleData : Type := mkData {
  d_trace_id : option string;
  d_timestamp : option string;
  d_aggregate_cost_usd : option number;
  d_aggregate_latency_ms : option number;
  d_last_n_hops : option (list CapsuleHop);
  d_tenant_id : option string;
  d_workflow_id : option string;
  d_metadata : option (list (string * string));
  d_context_token : option string;
  d_parent_context_token : option string
}.

(** [if (x) data.k = x]: the key is written only for a truthy string. *)
Definition if_truthy (x : option string) : option string :=
  if falsy x then None else x.

(** [if (Object.keys(m).length > 0) data.metadata = m] *)
Definition if_has_keys (m : list (string * string)) : option (list (string * string)) :=
  match m with
  | [] => None
  | _ :: _ => Some m
  end.

(** [toDict()] *)
Definition toDict (c : TraceCapsule) : TraceCapsuleData :=
  {| d_trace_id := Some (traceId c);
     d_timestamp := Some (timestamp c);
     d_aggregate_cost_usd := Some (aggregateCostUsd c);
     d_aggregate_latency_ms := Some (aggregateLatencyMs c);
     d_last_n_hops := Some (lastNHops c);
     d_tenant_id := if_truthy (tenantId c);
     d_workflow_id := if_truthy (workflowId c);
     d_metadata := if_has_keys (metadata c);
     d_context_token := if_truthy (Some (contextToken c));
     d_parent_context_token := if_truthy (parentContextToken c) |}.

(** The two roundings of [toJson()] are evaluated by the engine in double
    precision, where the product can be inexact and can overflow.  Their
    values are not computed here: [round6 x] stands for
    [Math.round(x * 1_000_000) / 1_000_000] and [round2 x] for
    [Math.round(x * 100) / 100], whatever the engine makes of them. *)
Record Rounding : Type := mkRounding
  { round6 : number -> number;
    round2 : number -> number }.


(** The object [toJson()] hands to [JSON.stringify]: as [toDict()], with
    the two aggregates rounded. *)
Definition toJson_data (rnd : Rounding) (c : TraceCapsule) : TraceCapsuleData :=
  {| d_trace_id := Some (traceId c);
     d_timestamp := Some (timestamp c);
     d_aggregate_cost_usd := Some (round6 rnd (aggregateCostUsd c));
     d_aggregate_latency_ms := Some (round2 rnd (aggregateLatencyMs c));
     d_last_n_hops := Some (lastNHops c);
     d_tenant_id := if_truthy (tenantId c);
     d_workflow_id := if_truthy (workflowId c);
     d_metadata := if_has_keys (metadata c);
     d_context_token := if_truthy (Some (contextToken c));
     d_parent_context_token := if_truthy (parentContextToken c) |}.

(** [x ?? d] *)
Definition or_default {A : Type} (x : option A) (d : A) : A :=
  match x with
  | Some v => v
  | None => d
  end.

(** [TraceCapsule.fromDict(data)]: the context tokens are not read. *)
Definition fromDict (data : TraceCapsuleData) (w : CapsuleWorld) : TraceCapsule :=
  new_TraceCapsule
    (mkCapsuleOptions (d_trace_id data)
       (Some (or_default (d_last_n_hops data) []))
       (Some (or_default (d_aggregate_cost_usd data) (Num 0)))
       (Some (or_default (d_aggregate_latency_ms data) (Num 0)))
       (d_tenant_id data) (d_workflow_id data) (d_metadata data) None None)
    w.

(** [TraceCapsule.fromJson(json)], with [parse] standing for
    [JSON.parse] followed by the reads of the ten keys: it fails when
    [JSON.parse] throws or returns [null]. A failure is logged and
    answered with a new capsule. *)
Definition fromJson (parse : string -> result Error TraceCapsuleData) (json : string)
  (w : CapsuleWorld) : TraceCapsule :=
  match parse json with
  | Ok data =>
      new_TraceCapsule
        (mkCapsuleOptions (d_trace_id data)
           (Some (or_default (d_last_n_hops data) []))
           (Some (or_default (d_aggregate_cost_usd data) (Num 0)))
           (Some (or_default (d_aggregate_latency_ms data) (Num 0)))
           (d_tenant_id data) (d_workflow_id data) (d_metadata data)
           (d_context_token data) (d_parent_context_token data))
        w
  | Err _ => new_TraceCapsule no_options w
  end.

(** *** The module's capsule *)

(** [globalCapsule]: [None] is [null], its value when the module loads. *)
Definition Global : Type := option TraceCapsule.

(** What the convenience functions read from outside: [getTraceId()],
    the result of their own [newTraceId()] call, and what the
    constructor reads. *)
Record StoreWorld : Type := mkStoreWorld {
  sw_getTraceId : option string;
  sw_newTraceId : string;
  sw_capsule : CapsuleWorld
}.

(** [getOrCreateCapsule(headerValue)]: the capsule returned and the
    module's capsule afterwards. A capsule read from a header is
    returned without being stored. Without a header the value returned
    is the module's own object. *)
Definition getOrCreateCapsule (parse : string -> result Error TraceCapsuleData)
  (headerValue : option string) (w : StoreWorld) (g : Global) : TraceCapsule * Global :=
  if negb (falsy headerValue)
  then (fromJson parse (or_default headerValue "") (sw_capsule w), g)
  else
    match g with
    | Some c => (c, g)
    | None =>
        let c :=
          new_TraceCapsule
            (mkCapsuleOptions (Some (or_else (sw_getTraceId w) (sw_newTraceId w)))
               None None None None None None None None)
            (sw_capsule w) in
        (c, Some c)
    end.

Definition getCurrentCapsule (g : Global) : option TraceCapsule := g.

Definition clearCapsule (g : Global) : Global := None.

(** [metadata[key] = value] on a plain object, for a string [value]:
    an own key is overwritten, a new key is added, except that
    ['__proto__'] names the inherited accessor, whose setter ignores a
    string. *)
Definition set_key (m : list (string * string)) (key value : string)
  : list (string * string) :=
  if String.eqb key "__proto__" && negb (mem_string key (map fst m))
  then m
  else Span.assign_key m key value.

Definition with_metadata (m : list (string * string)) (c : TraceCapsule) : TraceCapsule :=
  mkCapsule (traceId c) (timestamp c) (aggregateCostUsd c) (aggregateLatencyMs c)
    (lastNHops c) (tenantId c) (workflowId c) m (contextToken c) (parentContextToken c).

(** [setCapsuleMetadata(key, value)] *)
Definition setCapsuleMetadata (parse : string -> result Error TraceCapsuleData)
  (key value : string) (w : StoreWorld) (g : Global) : Global :=
  let '(c, _) := getOrCreateCapsule parse None w g in
  Some (with_metadata (set_key (metadata c) key value) c).

(** [serializeCapsule()]: the object serialised, if there is a capsule. *)
Definition serializeCapsule (rnd : Rounding) (g : Global) : option TraceCapsuleData :=
  option_map (toJson_data rnd) g.

(** [deserializeCapsule(json)] *)
Definition deserializeCapsule (parse : string -> result Error TraceCapsuleData)
  (json : string) (w : CapsuleWorld) (g : Global) : TraceCapsule * Global :=
  let c := fromJson parse json w in (c, Some c).

(** [flushCapsule()] *)
Definition flushCapsule (g : Global) : Global :=
  match g with
  | None => g
  | Some c => if (List.length (lastNHops c) =? 0)%nat then g else clearCapsule g
  end.

(** [addHopToCapsule(hop)], with [nowIso] read by [appendHop]. *)
Definition addHopToCapsule (parse : string -> result Error TraceCapsuleData)
  (hop : CapsuleHop) (nowIso : string) (w : StoreWorld) (g : Global) : Global :=
  let '(c, _) := getOrCreateCapsule parse None w g in
  Some (appendHop hop nowIso c).

(** One call of a convenience function. *)
Inductive StoreCall : Type :=
| CallGetOrCreate (headerValue : option string) (w : StoreWorld)
| CallClear
| CallSetMetadata (key value : string) (w : StoreWorld)
| CallDeserialize (json : string) (w : CapsuleWorld)
| CallFlush
| CallAddHop (hop : CapsuleHop) (nowIso : string) (w : StoreWorld).

Definition store_call (parse : string -> result Error TraceCapsuleData)
  (c : StoreCall) (g : Global) : Global :=
  match c with
  | CallGetOrCreate h w => snd (getOrCreateCapsule parse h w g)
  | CallClear => clearCapsule g
  | CallSetMetadata k v w => setCapsuleMetadata parse k v w g
  | CallDeserialize json w => snd (deserializeCapsule parse json w g)
  | CallFlush => flushCapsule g
  | CallAddHop hop nowIso w => addHopToCapsule parse hop nowIso w g
  end.

Definition store_calls (parse : string -> result Error TraceCapsuleData)
  (cs : list StoreCall) (g : Global) : Global :=
  fold_left (fun g c => store_call parse c g) cs g.

Definition is_deserialize (c : StoreCall) : bool :=
  match c with
  | CallDeserialize _ _ => true
  | _ => false
  end.

End CapsuleStore.

(** ** Function wrappers (withSpan in kalibr.ts; traced, withTrace in trace.ts) *)

Module Wrappers.
Import JsString Js Cost Span.

(** A value caught by a [catch] clause, as the wrappers read it: what
    [StartedSpan.error] reads of it, and its [name] property. *)
Record Thrown : Type := mkThrown {
  th_value : ErrorValue;
  th_name : option string
}.

(** One reading of the clock by [finish]: [Date.now()] and [timestamp()]. *)
Record Clock : Type := mkClock {
  c_now : Z;
  c_iso : string
}.

(** [if (x) b.set(x)] for an optional string [x]. *)
Definition when_truthy (x : option string) (set : string -> SpanBuilder -> SpanBuilder)
  (b : SpanBuilder) : SpanBuilder :=
  match x with
  | Some v => if String.eqb v "" then b else set v b
  | None => b
  end.

(** The [options] of [withSpan]. *)
Record WithSpanOptions : Type := mkWithSpanOptions {
  wo_provider : Provider;
  wo_modelId : string;
  wo_operation : string;
  wo_traceId : option string;
  wo_parentSpanId : option string;
  wo_workflowId : option string;
  wo_endpoint : option string;
  wo_metadata : option Metadata
}.

(** The builder [withSpan] sets up before [start()]. *)
Definition withSpan_builder (options : WithSpanOptions) : SpanBuilder :=
  let b0 :=
    setOperation (wo_operation options)
      (setModel (wo_modelId options)
         (setProvider (wo_provider options) new_SpanBuilder)) in
  let b1 := when_truthy (wo_traceId options) setTraceId b0 in
  let b2 := when_truthy (wo_parentSpanId options) (fun v => setParentSpanId (Some v)) b1 in
  let b3 := when_truthy (wo_workflowId options) setWorkflowId b2 in
  let b4 := when_truthy (wo_endpoint options) setEndpoint b3 in
  match wo_metadata options with
  | Some m => setMetadata m b4
  | None => b4
  end.

(** [{ inputTokens, outputTokens, status: 'success' }] *)
Definition success_options (inputTokens outputTokens : Z) : FinishOptions :=
  mkFinishOptions inputTokens outputTokens (Some st_success) None None None None None None.

(** [{ inputTokens: 0, outputTokens: 0 }] *)
Definition zero_options : FinishOptions :=
  mkFinishOptions 0 0 None None None None None None None.

(** [withSpan(options, fn)]. [fn] is given by what its promise settles
    to; [present] gives the view a [catch] clause has of an [Error]
    raised by the SDK itself; [t1] is read by the [finish] of the [try]
    block and [t2] by the [error] of the [catch] block. Returns what the
    promise settles to and the requests made. *)
Definition withSpan {T : Type} (present : Error -> Thrown) (options : WithSpanOptions)
  (fn : result Thrown (T * Z * Z)) (w : StartWorld) (t1 t2 : Clock)
  : result Thrown T * list Transmission :=
  let span := snd (start (withSpan_builder options) w) in
  let on_catch (e : Thrown) (sent : list Transmission) :=
    match error span (th_value e) zero_options (c_now t2) (c_iso t2) with
    | (Ok _, sent2) => (Err e, sent ++ sent2)
    | (Err e2, sent2) => (Err (present e2), sent ++ sent2)
    end in
  match fn with
  | Ok (res, inputTokens, outputTokens) =>
      match finish span (success_options inputTokens outputTokens) (c_now t1) (c_iso t1) with
      | (Ok _, sent) => (Ok res, sent)
      | (Err e, sent) => on_catch (present e) sent
      end
  | Err e => on_catch e []
  end.






End Wrappers.

(** ** Identifiers (generateId in kalibr.ts) *)

Module Ids.
Import JsString.

(** [s.replace(/-/g, '')] *)
Fixpoint remove_dashes (s : string) : string :=
  match s with
  | EmptyString => EmptyString
  | String c t =>
      if Ascii.eqb c "-" then remove_dashes t else String c (remove_dashes t)
  end.

Definition hex : string := "0123456789abcdef".

(** [result += hex[Math.floor(r * 16)]] for one draw [r] of
    [Math.random()]; an index outside the string reads [undefined],
    which [+=] appends as text. *)
Definition append_digit (result : string) (r : Q) : string :=
  let k := Qfloor (r * 16) in
  match (if (k <? 0)%Z then None else String.get (Z.to_nat k) hex) with
  | Some c => result ++ String c EmptyString
  | None => result ++ "undefined"
  end.

(** The [for] loop of the fallback: [count] more iterations from index [i]. *)
Fixpoint generateId_loop (random : nat -> Q) (count i : nat) (result : string) : string :=
  match count with
  | O => result
  | S count' => generateId_loop random count' (S i) (append_digit result (random i))
  end.

(** [generateId()]: [randomUUID] is the result of [crypto.randomUUID()]
    where that function exists, [random i] the [i]-th draw of
    [Math.random()]. *)
Definition generateId (randomUUID : option string) (random : nat -> Q) : string :=
  match randomUUID with
  | Some uuid => remove_dashes uuid
  | None => generateId_loop random 32 0 ""
  end.

End Ids.

(** ** Provider responses (converters and callOpenAI in the router section) *)

Module Responses.
Import JsString Js Router.

(** [x || 0] on an optional token count. *)
Definition or0 (x : option Z) : Z :=
  match x with
  | Some v => v
  | None => 0
  end.

(** [x || d] on an optional string. *)
Definition or_str (x : option string) (d : string) : string :=
  match x with
  | Some s => if String.eqb s "" then d else s
  | None => d
  end.

(** [Math.floor(Date.now() / 1000)] *)
Definition seconds (nowMs : Z) : Z := (nowMs / 1000)%Z.

(** *** Anthropic *)

Record ContentBlock : Type := mkBlock {
  cb_type : string;
  cb_text : option string
}.

Record TokenUsage : Type := mkTokenUsage {
  u_input_tokens : option Z;
  u_output_tokens : option Z
}.

Record AnthropicResponse : Type := mkAnthropicResponse {
  a_id : string;
  a_model : string;
  a_content : list ContentBlock;
  a_stop_reason : option string;
  a_usage : option TokenUsage
}.

(** [usage?.field]: nothing when [usage] is missing. *)
Definition usage_field (u : option TokenUsage) (f : TokenUsage -> option Z) : option Z :=
  match u with
  | Some x => f x
  | None => None
  end.

(** The text of the blocks of type ['text'] with a non-empty text, joined. *)
Definition textContent (blocks : list ContentBlock) : string :=
  String.concat ""
    (map (fun b => match cb_text b with Some t => t | None => "" end)
       (filter (fun b => String.eqb (cb_type b) "text" && negb (falsy (cb_text b))) blocks)).

Definition convertAnthropicResponse (response : AnthropicResponse) (nowMs : Z)
  : ChatCompletion :=
  {| id := a_id response;
     created := seconds nowMs;
     completion_model := a_model response;
     choices :=
       [ mkChoice 0 (Some (textContent (a_content response)))
           (match a_stop_reason response with
            | Some r =>
                if String.eqb r "end_turn" then "stop" else or_str (Some r) "stop"
            | None => "stop"
            end) ];
     prompt_tokens := or0 (usage_field (a_usage response) u_input_tokens);
     completion_tokens := or0 (usage_field (a_usage response) u_output_tokens);
     total_tokens :=
       (or0 (usage_field (a_usage response) u_input_tokens)
        + or0 (usage_field (a_usage response) u_output_tokens))%Z |}.

(** *** Google *)

(** A candidate: [content?.parts] (absent when either level is) and
    [finishReason]. A part holds an optional text. *)
Record Candidate : Type := mkCandidate {
  cand_parts : option (list (option string));
  cand_finishReason : option string
}.

Record UsageMetadata : Type := mkUsageMetadata {
  promptTokenCount : option Z;
  candidatesTokenCount : option Z;
  totalTokenCount : option Z
}.

Record GoogleResponse : Type := mkGoogleResponse {
  g_candidates : option (list Candidate);
  g_usageMetadata : option UsageMetadata
}.

Definition meta_field (u : option UsageMetadata) (f : UsageMetadata -> option Z)
  : option Z :=
  match u with
  | Some x => f x
  | None => None
  end.

(** [response.candidates?.[0]] *)
Definition first_candidate (response : GoogleResponse) : option Candidate :=
  match g_candidates response with
  | Some (c :: _) => Some c
  | _ => None
  end.

Definition convertGoogleResponse (response : GoogleResponse) (model : string)
  (generatedId : string) (nowMs : Z) : ChatCompletion :=
  let candidate := first_candidate response in
  let text :=
    or_str
      (match candidate with
       | Some c =>
           match cand_parts c with
           | Some parts => Some (String.concat "" (map (fun p => or_str p "") parts))
           | None => None
           end
       | None => None
       end) "" in
  let finishReason :=
    match candidate with
    | Some c => cand_finishReason c
    | None => None
    end in
  {| id := "gemini-" ++ generatedId;
     created := seconds nowMs;
     completion_model := model;
     choices :=
       [ mkChoice 0 (Some text)
           (match finishReason with
            | Some r =>
                if String.eqb r "STOP" then "stop" else or_str (Some (toLowerCase r)) "stop"
            | None => "stop"
            end) ];
     prompt_tokens := or0 (meta_field (g_usageMetadata response) promptTokenCount);
     completion_tokens := or0 (meta_field (g_usageMetadata response) candidatesTokenCount);
     total_tokens := or0 (meta_field (g_usageMetadata response) totalTokenCount) |}.

(** *** Cohere *)

Record CohereMeta : Type := mkCohereMeta {
  m_tokens : option TokenUsage;
  m_billed_units : option TokenUsage
}.

Record CohereResponse : Type := mkCohereResponse {
  c_text : option string;
  c_generation_id : option string;
  c_meta : option CohereMeta;
  c_finish_reason : option string
}.

(** [response.meta?.tokens || response.meta?.billed_units || {}] *)
Definition cohere_tokens (response : CohereResponse) : TokenUsage :=
  match c_meta response with
  | Some m =>
      match m_tokens m with
      | Some t => t
      | None =>
          match m_billed_units m with
          | Some t => t
          | None => mkTokenUsage None None
          end
      end
  | None => mkTokenUsage None None
  end.

Definition convertCohereResponse (response : CohereResponse) (model : string)
  (generatedId : string) (nowMs : Z) : ChatCompletion :=
  let tokens := cohere_tokens response in
  {| id := or_str (c_generation_id response) ("cohere-" ++ generatedId);
     created := seconds nowMs;
     completion_model := model;
     choices :=
       [ mkChoice 0 (Some (or_str (c_text response) ""))
           (or_str (c_finish_reason response) "stop") ];
     prompt_tokens := or0 (u_input_tokens tokens);
     completion_tokens := or0 (u_output_tokens tokens);
     total_tokens := (or0 (u_input_tokens tokens) + or0 (u_output_tokens tokens))%Z |}.

(** *** OpenAI *)

Record OpenAIChoice : Type := mkOpenAIChoice {
  oc_content : option string;
  oc_finish_reason : option string
}.

Record OpenAIUsage : Type := mkOpenAIUsage {
  ou_prompt_tokens : option Z;
  ou_completion_tokens : option Z;
  ou_total_tokens : option Z
}.

Record OpenAIResponse : Type := mkOpenAIResponse {
  oa_id : string;
  oa_created : Z;
  oa_model : string;
  oa_choices : list OpenAIChoice;
  oa_usage : option OpenAIUsage
}.

Definition openai_field (u : option OpenAIUsage) (f : OpenAIUsage -> option Z)
  : option Z :=
  match u with
  | Some x => f x
  | None => None
  end.

(** [choices.map((choice, index) => ...)] from position [i] on. *)
Fixpoint map_choices (i : Z) (cs : list OpenAIChoice) : list Choice :=
  match cs with
  | [] => []
  | c :: rest =>
      mkChoice i (Some (or_str (oc_content c) "")) (or_str (oc_finish_reason c) "stop")
      :: map_choices (i + 1) rest
  end.

(** The object [callOpenAI] returns for the response of the provider. *)
Definition callOpenAI_result (response : OpenAIResponse) : ChatCompletion :=
  {| id := oa_id response;
     created := oa_created response;
     completion_model := oa_model response;
     choices := map_choices 0 (oa_choices response);
     prompt_tokens := or0 (openai_field (oa_usage response) ou_prompt_tokens);
     completion_tokens := or0 (openai_field (oa_usage response) ou_completion_tokens);
     total_tokens := or0 (openai_field (oa_usage response) ou_total_tokens) |}.

End Responses.

Module WrapperSamples.
Import Cost Span Wrappers.

(** How a [catch] clause sees an [Error] made by the SDK. *)
Definition sample_present (e : Error) : Thrown :=
  mkThrown (mkErrorValue (Some "Error") None (message e) None) (Some "Error").

(** A client whose backend accepts every request. *)
Definition accepting_client : Kalibr :=
  mkKalibr "key-1" "tenant-1" "https://api.kalibr.systems/api/ingest" None None false
    (fun _ _ => Responded true 200 "ok").

(** A client whose backend answers 503 to every request. *)
Definition refusing_client : Kalibr :=
  mkKalibr "key-1" "tenant-1" "https://api.kalibr.systems/api/ingest" None None false
    (fun _ _ => Responded false 503 "unavailable").

Definition sample_withSpan_options : WithSpanOptions :=
  mkWithSpanOptions openai "gpt-4o" "chat_completion" None None None None None.

Definition world_with (c : option Kalibr) : StartWorld :=
  mkStartWorld 1000 "2026-01-01T00:00:01.000Z"
    "0123456789abcdef0123456789abcdef" "fedcba9876543210fedcba9876543210" c.

Definition clock1 : Clock := mkClock 1250 "2026-01-01T00:00:01.250Z".
Definition clock2 : Clock := mkClock 1251 "2026-01-01T00:00:01.251Z".

(** The wrapped function resolved with 12 input and 5 output tokens. *)
Definition sample_fn : result Thrown (string * Z * Z) := Ok ("the answer", 12%Z, 5%Z).

End WrapperSamples.

(** ** Further reference definitions *)

Module Reference2.
Import JsString Js Cost.

(** [obj[k]] on a metadata object: the value of its own key [k]. *)
Definition metadata_get (m : Span.Metadata) (k : string) : option string :=
  own_property m k.

(** The keys of a metadata object, in insertion order. *)
Definition metadata_keys (m : Span.Metadata) : list string := map fst m.

(** [o ?? {}] for an optional metadata object. *)
Definition metadata_or_empty (o : option Span.Metadata) : Span.Metadata :=
  match o with
  | Some m => m
  | None => []
  end.

(** Two routers with the same configuration and the same record of
    the last completion; only the reported flag may differ. *)
Definition same_but_flag (r r' : Router.Router) : Prop :=
  r' = r \/ r' = Router.set_outcomeReported true r.

(** An event of the fallback loop stays within the candidates: an
    attempt or a caught failure is of a candidate, and a provider call
    goes to the model of a candidate and to the provider detected from
    that model. *)
Definition within_candidates (cands : list Router.PathConfig) (ev : Router.Event) : Prop :=
  match ev with
  | Router.EvAttempt c => In c cands
  | Router.EvFailed c _ => In c cands
  | Router.EvDispatch p m _ =>
      exists c, In c cands /\ m = Router.model c /\ Router.detectProvider m = Ok p
  | Router.EvDecide _ _ => True
  | Router.EvReportOutcome _ _ => True
  end.

(** No submission follows an accepted one. *)
Definition accepted_is_last (l : list (Router.OutcomeArgs * bool)) : Prop :=
  forall l1 a l2, l = l1 ++ (a, true) :: l2 -> l2 = [].

(** The router as [completion] leaves it before selecting a model: flag
    reset, trace id taken from the ambient context or freshly made. *)
Definition entered (am : Router.Ambient) (r : Router.Router) : Router.Router :=
  Router.set_lastTraceId
    (Router.or_string (Router.getTraceId am)
       (Some (Context.newTraceId (Router.timestamp36 am) (Router.random36 am))))
    (Router.set_outcomeReported false r).

(** One call on a router by its user. *)
Inductive RouterCall : Type :=
| DoAddPath (m : string) (t : option Router.Tools) (p : option (list (string * string)))
| DoCompletion (sv : Router.Services) (am : Router.Ambient)
    (messages : list Router.Message) (opts : Router.CompletionOptions)
| DoReport (sv : Router.Services) (am : Router.Ambient) (success : bool)
    (reason : option string) (score : option number).

Definition do_call (c : RouterCall) (st : Router.State) : Router.State :=
  match c with
  | DoAddPath m t p => (Router.addPath m t p (fst st), snd st)
  | DoCompletion sv am messages opts => snd (Router.completion sv am messages opts st)
  | DoReport sv am success reason score => Router.report sv am success reason score st
  end.

Definition do_calls (cs : list RouterCall) (st : Router.State) : Router.State :=
  fold_left (fun st c => do_call c st) cs st.

(** The paths a sequence of calls adds, in order. *)
Definition added_paths (cs : list RouterCall) : list Router.PathConfig :=
  flat_map (fun c => match c with
                     | DoAddPath m t p => [Router.mkPath m t p]
                     | _ => []
                     end) cs.

(** The module's capsule, if any, holds at most [MAX_HOPS] hops. *)
Definition within_window (g : CapsuleStore.Global) : Prop :=
  match g with
  | Some c => (Capsule.getHopCount c <= Capsule.MAX_HOPS)%nat
  | None => True
  end.

(** The options [error(err, options)] passes on to [finish]. *)
Definition error_finish_options (err : Span.ErrorValue) (options : Span.FinishOptions)
  : Span.FinishOptions :=
  Span.mkFinishOptions (Span.inputTokens options) (Span.outputTokens options)
    (Some Span.st_error)
    (Some (match Span.ev_class err with
           | Some cls => cls
           | None => Span.nullish (Span.ev_type err) "Error"
           end))
    (Some (Span.ev_message err)) (Span.ev_stack err)
    (Span.costUsd options) (Span.opt_metadata options) (Span.autoSend options).

(** One of the sixteen lower-case hexadecimal digits. *)
Definition is_hex_digit (c : ascii) : bool :=
  existsb (Ascii.eqb c) (list_ascii_of_string Ids.hex).

Definition all_hex (s : string) : bool :=
  forallb is_hex_digit (list_ascii_of_string s).

(** [s] starts with [n] hexadecimal digits: what follows them. *)
Fixpoint take_hex (n : nat) (s : string) : option string :=
  match n with
  | O => Some s
  | S n' =>
      match s with
      | String c t => if is_hex_digit c then take_hex n' t else None
      | EmptyString => None
      end
  end.

(** [s] consists of groups of hexadecimal digits of the given sizes,
    separated by single dashes. *)
Fixpoint hex_groups (groups : list nat) (s : string) : bool :=
  match groups with
  | [] => false
  | [n] =>
      match take_hex n s with
      | Some EmptyString => true
      | _ => false
      end
  | n :: rest =>
      match take_hex n s with
      | Some (String c t) => Ascii.eqb c "-" && hex_groups rest t
      | _ => false
      end
  end.

(** The canonical text of a UUID, as [crypto.randomUUID()] returns it:
    five groups of 8, 4, 4, 4 and 12 lower-case hexadecimal digits. *)
Definition is_uuid (s : string) : bool := hex_groups [8; 4; 4; 4; 12]%nat s.

(** A well-formed single-choice completion: one choice, of index 0,
    with a text (possibly empty) and a non-empty finish reason. *)
Definition single_choice (r : Router.ChatCompletion) : Prop :=
  exists c, Router.choices r = [c]
            /\ Router.index c = 0%Z
            /\ Router.message_content c = Some (Router.primary_content r)
            /\ Router.finish_reason c <> "".

(** *** The completion against its services *)

(** The model a completion selects: the forced one when one is given,
    else the one the decision service names when asked after the trace
    [h], else (the service failing) the model of the first configured
    path. *)
Definition selected_model (sv : Router.Services) (opts : Router.CompletionOptions)
  (r : Router.Router) (h : list Router.Event) : string :=
  if falsy (Router.forceModel opts)
  then
    match Router.decide sv h (Router.goal r) with
    | Ok d => Router.model_id d
    | Err _ =>
        match Router.paths r with
        | p :: _ => Router.model p
        | [] => ""
        end
    end
  else
    match Router.forceModel opts with
    | Some m => m
    | None => ""
    end.

(** The fallback chain: the first configured path with the selected
    model, if there is one, then the configured paths with another
    model, in configuration order. *)
Definition fallback_chain (ps : list Router.PathConfig) (sel : string)
  : list Router.PathConfig :=
  match find (Reference.has_model sel) ps with
  | Some p => p :: filter (fun q => negb (Reference.has_model sel q)) ps
  | None => ps
  end.

(** The failure [e] caught for the candidate [c] after the trace [pre]
    is what the services gave: the error of [detectProvider] on the
    model of [c], no request having been made, or the error the
    provider returned to the one call made for [c]. *)
Definition caught_from (sv : Router.Services) (msgs : list Router.Message)
  (opts : Router.CompletionOptions) (pre : list Router.Event)
  (c : Router.PathConfig) (e : Error) : Prop :=
  (exists pre', pre = pre' ++ [Router.EvAttempt c]
                /\ Router.detectProvider (Router.model c) = Err e)
  \/ (exists pre' p,
        pre = pre' ++ [Router.EvAttempt c; Router.EvDispatch p (Router.model c) false]
        /\ Router.detectProvider (Router.model c) = Ok p
        /\ Router.callProvider sv (pre' ++ [Router.EvAttempt c]) p (Router.model c)
             msgs opts = Err e).

(** The provider call recorded after the trace [pre] as answered is the
    call made for the candidate just attempted, to the provider
    detected from its model, and the provider returned [resp] to it. *)
Definition answered_from (sv : Router.Services) (msgs : list Router.Message)
  (opts : Router.CompletionOptions) (pre : list Router.Event)
  (p : Router.LLMProvider) (m : string) (resp : Router.ChatCompletion) : Prop :=
  exists pre' c,
    pre = pre' ++ [Router.EvAttempt c]
    /\ m = Router.model c
    /\ Router.detectProvider m = Ok p
    /\ Router.callProvider sv pre p m msgs opts = Ok resp.

(** Every failure marker and every answered provider call among the
    events [evs] that follow the trace [h] is backed by the services. *)
Fixpoint explained (sv : Router.Services) (msgs : list Router.Message)
  (opts : Router.CompletionOptions) (h evs : list Router.Event) : Prop :=
  match evs with
  | [] => True
  | ev :: rest =>
      match ev with
      | Router.EvFailed c e => caught_from sv msgs opts h c e
      | Router.EvDispatch p m true => exists resp, answered_from sv msgs opts h p m resp
      | _ => True
      end
      /\ explained sv msgs opts (h ++ [ev]) rest
  end.

(** The completion was served by the last candidate attempted: among
    the events [new] that followed the trace [h], the call for the
    candidate [c], a configured path, is the only answered one and
    nothing is attempted after it; the provider detected from the model
    of [c] returned [x] to it; and the router then names that model as
    the last one used. *)
Definition served_last (sv : Router.Services) (msgs : list Router.Message)
  (opts : Router.CompletionOptions) (h new : list Router.Event)
  (x : Router.ChatCompletion) (r r' : Router.Router) : Prop :=
  exists pre c p post,
    new = pre ++ Router.EvAttempt c :: Router.EvDispatch p (Router.model c) true :: post
    /\ Forall (fun ev => ~ Reference.served ev) pre
    /\ Reference.attempts post = []
    /\ In c (Router.paths r)
    /\ Router.detectProvider (Router.model c) = Ok p
    /\ Router.callProvider sv (h ++ pre ++ [Router.EvAttempt c]) p (Router.model c)
         msgs opts = Ok x
    /\ Router.getLastModel r' = Some (Router.model c).

(** Whether a request settled successfully. *)
Definition accepted {E A : Type} (x : result E A) : bool :=
  match x with
  | Ok _ => true
  | Err _ => false
  end.

(** The arguments of the submission a [report] call makes when the
    trace id it finds is [t]. *)
Definition report_args (t : string) (r : Router.Router) (success : bool)
  (reason : option string) (score : option number) : Router.OutcomeArgs :=
  Router.mkOutcomeArgs t (Router.goal r) success score
    (if success then None else reason) None.

End Reference2.

(** * Properties *)

(** ** Strings *)

Module JsStringFacts.
Import JsString.

Lemma lower_ascii_idem (c : ascii) : lower_ascii (lower_ascii c) = lower_ascii c.
Proof. destruct c as [[] [] [] [] [] [] [] []]; reflexivity. Qed.

Lemma toLowerCase_idem (s : string) : toLowerCase (toLowerCase s) = toLowerCase s.
Proof.
  induction s as [|c t IH]; simpl; [reflexivity|].
  now rewrite lower_ascii_idem, IH.
Qed.

(** A string that starts with [p] starts with every prefix [q] of [p]. *)
Lemma startsWith_trans (s p q : string) :
  startsWith p q = true -> startsWith s p = true -> startsWith s q = true.
Proof.
  revert s p. induction q as [|a q IH]; intros s p Hpq Hsp.
  - destruct s; reflexivity.
  - destruct p as [|b p]; [discriminate|].
    destruct s as [|c s]; [discriminate|].
    simpl in *.
    apply andb_true_iff in Hpq as [Hba Hpq].
    apply andb_true_iff in Hsp as [Hcb Hsp].
    apply Ascii.eqb_eq in Hba. apply Ascii.eqb_eq in Hcb. subst.
    rewrite Ascii.eqb_refl. simpl. now apply (IH s p).
Qed.

(** A string that includes [p] includes every prefix of [p]. *)
Lemma includes_prefix (s p q : string) :
  startsWith p q = true -> includes s p = true -> includes s q = true.
Proof.
  intros Hpq. induction s as [|c s IH]; cbn [includes]; intros H.
  - rewrite orb_false_r in *. now apply (startsWith_trans _ p).
  - apply orb_true_iff in H as [H|H].
    + now rewrite (startsWith_trans _ p q Hpq H).
    + rewrite (IH H). apply orb_true_r.
Qed.

End JsStringFacts.

(** ** Cost calculator *)

Module CostFacts.
Import JsString Js Cost JsStringFacts.

Ltac split_on_tests ml :=
  repeat match goal with
  | |- context [if ?b then _ else _] =>
      lazymatch b with
      | context [ml] => destruct b eqn:?; [reflexivity|]
      end
  end.

Lemma normalizeModelName_idem (p : Provider) (m : string) :
  normalizeModelName p (normalizeModelName p m) = normalizeModelName p m.
Proof.
  unfold normalizeModelName; cbv zeta.
  pose proof (toLowerCase_idem m) as Hid.
  set (ml := toLowerCase m) in *.
  destruct p; split_on_tests ml; rewrite Hid;
    repeat match goal with H : _ = false |- _ => rewrite H; clear H end;
    reflexivity.
Qed.

Lemma normalizeModelName_refines (p : Provider) (m : string) :
  normalizeModelName p m = Reference.spec_normalize p m.
Proof.
  unfold normalizeModelName, Reference.spec_normalize; cbv zeta.
  set (ml := toLowerCase m).
  destruct p; cbn [Reference.spec_patterns find fst snd existsb];
    repeat match goal with
    | |- context [includes ml ?pat] => destruct (includes ml pat); cbn [orb]
    end; reflexivity.
Qed.

(** The normalised name is in lower case. *)
Lemma normalizeModelName_lower (p : Provider) (m : string) :
  toLowerCase (normalizeModelName p m) = normalizeModelName p m.
Proof.
  unfold normalizeModelName; cbv zeta.
  destruct p;
    repeat match goal with
    | |- context [if ?b then _ else _] => destruct b; [reflexivity|]
    end; apply toLowerCase_idem.
Qed.

(** Of the names inherited from [Object.prototype], a lower-case key can
    only hit two. *)
Lemma inherited_lower_key (k : string) :
  toLowerCase k = k ->
  mem_string k Object_prototype_keys = true ->
  k = "constructor" \/ k = "__proto__".
Proof.
  intros Hlow Hmem. unfold mem_string, Object_prototype_keys in Hmem.
  cbn [existsb] in Hmem.
  repeat match type of Hmem with
  | (String.eqb k ?c || _) = true =>
      apply orb_true_iff in Hmem as [Hmem|Hmem];
      [apply String.eqb_eq in Hmem; subst k;
       first [now left | now right | discriminate Hlow] |]
  end.
  discriminate.
Qed.

Lemma get_lower_key {A : Type} (t : list (string * A)) (k : string) :
  toLowerCase k = k -> k <> "constructor" -> k <> "__proto__" ->
  get t k = match own_property t k with Some v => Own v | None => Undefined end.
Proof.
  intros Hlow H1 H2. unfold get.
  destruct (own_property t k); [reflexivity|].
  destruct (mem_string k Object_prototype_keys) eqn:E; [|reflexivity].
  destruct (inherited_lower_key k Hlow E); contradiction.
Qed.

(** Away from the two inherited names, the code computes the cost formula
    on the resolved price pair. *)
Lemma calculateCost_resolved (p : Provider) (m : string) (i o : Z) :
  normalizeModelName p m <> "constructor" ->
  normalizeModelName p m <> "__proto__" ->
  calculateCost p m i o = Num (Reference.spec_cost p m i o).
Proof.
  intros H1 H2.
  unfold calculateCost, Reference.spec_cost, Reference.spec_price_pair; cbv zeta.
  rewrite (get_lower_key _ _ (normalizeModelName_lower p m) H1 H2).
  destruct (PRICING p) as [t|]; cbn [own_property];
    [destruct (own_property t (normalizeModelName p m))|]; reflexivity.
Qed.

Lemma own_property_Forall {A : Type} (P : A -> Prop) (t : list (string * A)) (k : string) (v : A) :
  Forall (fun e => P (snd e)) t -> own_property t k = Some v -> P v.
Proof.
  induction 1 as [|[k' v'] t Hv _ IH]; cbn [own_property]; [discriminate|].
  destruct (String.eqb k' k); [intros [= <-]; exact Hv | exact IH].
Qed.

Lemma PRICING_nonneg (p : Provider) (t : list (string * ModelPricing)) :
  PRICING p = Some t -> Forall (fun e => Reference.nonneg_pricing (snd e)) t.
Proof.
  destruct p; intros [= <-];
    repeat constructor; cbn; unfold Qle; cbn; lia.
Qed.

Lemma spec_price_pair_nonneg (p : Provider) (m : string) :
  Reference.nonneg_pricing (Reference.spec_price_pair p m).
Proof.
  assert (Hd : Reference.nonneg_pricing DEFAULT_PRICING)
    by (split; cbn; unfold Qle; cbn; lia).
  unfold Reference.spec_price_pair.
  destruct (PRICING p) as [t|] eqn:Ht; [|exact Hd].
  destruct (own_property t _) eqn:Hk; [|exact Hd].
  exact (own_property_Forall Reference.nonneg_pricing t _ _ (PRICING_nonneg p t Ht) Hk).
Qed.

Lemma spec_round6_nonneg (x : Q) : 0 <= x -> 0 <= Reference.spec_round6 x.
Proof.
  intros Hx. unfold Reference.spec_round6.
  apply Qle_shift_div_l; [reflexivity|].
  rewrite Qmult_0_l.
  change 0 with (inject_Z 0). rewrite <- Zle_Qle.
  change 0%Z with (Qfloor 0).
  apply Qfloor_resp_le.
  apply Qle_trans with (x * 1000000).
  - apply Qmult_le_0_compat; [exact Hx | discriminate].
  - rewrite <- (Qplus_0_r (x * 1000000)) at 1.
    apply Qplus_le_r. discriminate.
Qed.

Lemma spec_cost_nonneg (p : Provider) (m : string) (i o : Z) :
  (0 <= i)%Z -> (0 <= o)%Z -> 0 <= Reference.spec_cost p m i o.
Proof.
  intros Hi Ho. unfold Reference.spec_cost.
  destruct (spec_price_pair_nonneg p m) as [Hin Hout].
  assert (Hdiv : forall z, (0 <= z)%Z -> 0 <= inject_Z z / 1000000).
  { intros z Hz. apply Qle_shift_div_l; [reflexivity|].
    rewrite Qmult_0_l. change 0 with (inject_Z 0). now rewrite <- Zle_Qle. }
  apply spec_round6_nonneg.
  change 0 with (0 + 0). apply Qplus_le_compat;
    apply Qmult_le_0_compat; auto.
Qed.

Lemma spec_price_pair_default (p : Provider) (m : string) :
  (forall t, PRICING p = Some t -> own_property t (normalizeModelName p m) = None) ->
  Reference.spec_price_pair p m = DEFAULT_PRICING.
Proof.
  intros H. unfold Reference.spec_price_pair.
  destruct (PRICING p) as [t|]; [|reflexivity].
  now rewrite (H t eq_refl).
Qed.

(** For every model whose normalised name is not one of the two
    inherited names, and all token counts, [calculateCost] returns the
    finite number given by the cost formula on the resolved price pair,
    and that number is non-negative for non-negative token counts. *)
Lemma calculateCost_correct_elsewhere (p : Provider) (m : string) (i o : Z) :
  normalizeModelName p m <> "constructor" ->
  normalizeModelName p m <> "__proto__" ->
  calculateCost p m i o = Num (Reference.spec_cost p m i o)
  /\ ((0 <= i)%Z -> (0 <= o)%Z -> num_nonneg (calculateCost p m i o)).
Proof.
  intros H1 H2. rewrite (calculateCost_resolved p m i o H1 H2).
  split; [reflexivity|]. intros Hi Ho. now apply spec_cost_nonneg.
Qed.

(** C4 (defect in the code). The claim says that a normalised model
    absent from the pricing table resolves to the default pair
    (30.00, 60.00) and that the cost is non-negative. The model id
    ["constructor"] is absent from the OpenAI table, and the claimed
    cost of one input and one output token at the default pair is
    0.00009; but the lookup [providerPricing[normalizedModel]] finds the
    member [constructor] that every object inherits, the default is not
    taken, and [calculateCost] returns [NaN], which is not [>= 0]. *)
Theorem C4_calculateCost_inherited_name_gives_NaN :
  (forall t, PRICING openai = Some t -> own_property t "constructor" = None)
  /\ normalizeModelName openai "constructor" = "constructor"
  /\ Reference.spec_price_pair openai "constructor" = DEFAULT_PRICING
  /\ Reference.spec_cost openai "constructor" 1 1 == 0.00009
  /\ calculateCost openai "constructor" 1 1 = NaN
  /\ ~ num_nonneg (calculateCost openai "constructor" 1 1).
Proof.
  split; [intros t [= <-]; reflexivity|].
  split; [reflexivity|].
  split; [reflexivity|].
  split; [vm_compute; reflexivity|].
  split; [reflexivity|].
  intros H. exact H.
Qed.

(** C5. Model-name normalisation is idempotent; it is the first match
    over the ordered pattern list of the provider, and in every list no
    pattern comes after one it contains, so the longer pattern is checked
    before its prefixes: a name containing "gpt-4o-mini" also contains
    "gpt-4o" and "gpt-4" and normalises to "gpt-4o-mini". Consequently
    [calculateCost('openai','gpt-4o-2024-05-13',1e6,1e6)] equals
    [calculateCost('openai','gpt-4o',1e6,1e6)], which is 12.5. *)
Theorem C5_normalization_idempotent_most_specific :
  (forall p m, normalizeModelName p (normalizeModelName p m) = normalizeModelName p m)
  /\ (forall p m, normalizeModelName p m = Reference.spec_normalize p m)
  /\ (forall p, Reference.most_specific_first (Reference.spec_patterns p) = true)
  /\ (forall m, includes (toLowerCase m) "gpt-4o-mini" = true ->
        includes (toLowerCase m) "gpt-4o" = true
        /\ includes (toLowerCase m) "gpt-4" = true
        /\ normalizeModelName openai m = "gpt-4o-mini")
  /\ (forall m, includes (toLowerCase m) "command-r-plus" = true ->
        includes (toLowerCase m) "command-r" = true
        /\ includes (toLowerCase m) "command" = true
        /\ normalizeModelName cohere m = "command-r-plus")
  /\ calculateCost openai "gpt-4o-2024-05-13" 1000000 1000000
     = calculateCost openai "gpt-4o" 1000000 1000000
  /\ num_is (calculateCost openai "gpt-4o" 1000000 1000000) 12.5.
Proof.
  split; [exact normalizeModelName_idem|].
  split; [exact normalizeModelName_refines|].
  split; [intros []; reflexivity|].
  split.
  { intros m H.
    split; [exact (includes_prefix _ "gpt-4o-mini" "gpt-4o" eq_refl H)|].
    split; [exact (includes_prefix _ "gpt-4o-mini" "gpt-4" eq_refl H)|].
    unfold normalizeModelName; cbv zeta. now rewrite H. }
  split.
  { intros m H.
    split; [exact (includes_prefix _ "command-r-plus" "command-r" eq_refl H)|].
    split; [exact (includes_prefix _ "command-r-plus" "command" eq_refl H)|].
    unfold normalizeModelName; cbv zeta. now rewrite H. }
  split; [reflexivity|].
  vm_compute. reflexivity.
Qed.

End CostFacts.

(** ** Span lifecycle *)

Module SpanFacts.
Import JsString Js Cost Span Reference JsStringFacts.

(** Every way [finish] can settle, by the state of the required fields. *)
Lemma finish_invalid (ss : StartedSpan) (options : FinishOptions)
  (endTime : Z) (endTimestamp : string) (f : RequiredField) :
  first_missing (ss_span ss) = Some f ->
  finish ss options endTime endTimestamp = (Err (validation_error f), []).
Proof.
  unfold first_missing, required_fields, finish; cbn [find unset]; cbv zeta.
  destruct (ps_provider (ss_span ss)); [|now intros [= <-]].
  destruct (falsy (ps_model_id (ss_span ss))); [now intros [= <-]|].
  destruct (falsy (ps_operation (ss_span ss))); [now intros [= <-]|].
  destruct (falsy (ps_tenant_id (ss_span ss))); [now intros [= <-]|].
  discriminate.
Qed.

Lemma validation_error_names (f g : RequiredField) :
  includes (message (validation_error f)) (field_name g) = true <-> g = f.
Proof.
  destruct f, g; split; intros H; try reflexivity; try discriminate H.
Qed.

(** A span returned by [finish] is the literal built from the started
    span, whose required fields are all set. *)
Lemma finish_Ok (ss : StartedSpan) (options : FinishOptions)
  (endTime : Z) (endTimestamp : string) (s : KalibrSpan) :
  fst (finish ss options endTime endTimestamp) = Ok s ->
  exists prov,
    ps_provider (ss_span ss) = Some prov
    /\ first_missing (ss_span ss) = None
    /\ s = completeSpan ss prov options endTime endTimestamp.
Proof.
  unfold first_missing, required_fields, finish; cbn [find unset]; cbv zeta.
  destruct (ps_provider (ss_span ss)) as [prov|]; [|discriminate].
  destruct (falsy (ps_model_id (ss_span ss))); [discriminate|].
  destruct (falsy (ps_operation (ss_span ss))); [discriminate|].
  destruct (falsy (ps_tenant_id (ss_span ss))); [discriminate|].
  intros H. exists prov. split; [reflexivity|]. split; [reflexivity|].
  destruct (autoSend options) as [[]|], (ss_client ss) as [cl|]; cbn [fst] in H;
    try (injection H as H; now symmetry);
    destruct (sendSpan cl _) as [[u|e] sent]; cbn [fst] in H;
    first [discriminate H | injection H as H; now symmetry].
Qed.

(** The builder keeps [vendor] equal to [provider]: only [setProvider]
    writes either of them, and it writes both. *)
Lemma start_span_keeps (b : SpanBuilder) (w : StartWorld) :
  ps_vendor (start_span b w) = ps_vendor (b_span b)
  /\ ps_provider (start_span b w) = ps_provider (b_span b).
Proof.
  unfold start_span; cbv zeta.
  repeat match goal with
  | |- context [if ?c then _ else _] => destruct c
  | |- context [match ?x with _ => _ end] => destruct x
  end; split; reflexivity.
Qed.

Lemma call_preserves (c : BuilderCall) (b : SpanBuilder) :
  vendor_mirrors_provider (b_span b) -> vendor_mirrors_provider (b_span (call c b)).
Proof.
  unfold vendor_mirrors_provider.
  destruct c; cbn [call]; try (intros H; exact H); try reflexivity.
  intros H. cbn [start fst b_span].
  destruct (start_span_keeps b w) as [-> ->]. exact H.
Qed.

Lemma calls_preserve (cs : list BuilderCall) (b : SpanBuilder) :
  vendor_mirrors_provider (b_span b) -> vendor_mirrors_provider (b_span (calls cs b)).
Proof.
  revert b. induction cs as [|c cs IH]; intros b H; [exact H|].
  apply IH. now apply call_preserves.
Qed.

Lemma started_span_mirrors (before after : list BuilderCall) (w : StartWorld) :
  vendor_mirrors_provider (ss_span (started_span before w after)).
Proof.
  unfold started_span, start; cbn [ss_span].
  apply calls_preserve. cbn [b_span].
  unfold vendor_mirrors_provider.
  destruct (start_span_keeps (calls before new_SpanBuilder) w) as [-> ->].
  apply (calls_preserve before new_SpanBuilder). reflexivity.
Qed.

Lemma started_span_startTime (before after : list BuilderCall) (w : StartWorld) :
  ss_startTime (started_span before w after) = w_now w.
Proof. reflexivity. Qed.

(** C6. For every started span on which provider, model_id, operation
    or tenant_id is unset, [finish] raises the validation error of the
    first unset field in that order; the error message names that field
    and no other required field; no span is produced and no request is
    made. *)
Theorem C6_finish_names_first_missing_field (ss : StartedSpan)
  (options : FinishOptions) (endTime : Z) (endTimestamp : string)
  (f : RequiredField) :
  first_missing (ss_span ss) = Some f ->
  finish ss options endTime endTimestamp = (Err (validation_error f), [])
  /\ (forall g, includes (message (validation_error f)) (field_name g) = true <-> g = f).
Proof.
  intros H. split.
  - now apply finish_invalid.
  - intros g. apply validation_error_names.
Qed.

Lemma C6_witness :
  first_missing (ss_span (started_span [] Samples.sample_world [])) = Some req_provider
  /\ finish (started_span [] Samples.sample_world []) Samples.sample_options 1250 "t"
     = (Err (mkError "SpanBuilder: provider is required"), []).
Proof.
  split; [reflexivity|].
  exact (proj1 (C6_finish_names_first_missing_field
                  (started_span [] Samples.sample_world []) Samples.sample_options
                  1250 "t" req_provider eq_refl)).
Defined.

(** C7, the claim as stated fails: a span started when the clock read
    1000 and finished when it read 999 is returned with
    [duration_ms = -1]. *)
Lemma C7_counterexample :
  exists s, fst (Samples.sample_finish 999) = Ok s
            /\ duration_ms s = (-1)%Z
            /\ ~ finished_span_invariant s.
Proof.
  exists (completeSpan (started_span Samples.sample_calls Samples.sample_world [])
            openai Samples.sample_options 999 "2026-01-01T00:00:01.250Z").
  split; [vm_compute; reflexivity|]. split; [reflexivity|].
  intros (_ & H & _). vm_compute in H. now apply H.
Qed.

(** C7, amended. Every span returned by [finish] on a span started
    through the builder has [total_tokens = input_tokens + output_tokens],
    a [cost_usd] (the override, else the computed cost), legacy fields
    that mirror their originals, and [duration_ms] equal to the clock
    reading at finish minus the reading at start; so [duration_ms >= 0],
    and the whole invariant holds, whenever the clock did not go
    backwards in between. *)
Theorem C7_finished_span_fields (before after : list BuilderCall) (w : StartWorld)
  (options : FinishOptions) (endTime : Z) (endTimestamp : string) (s : KalibrSpan) :
  fst (finish (started_span before w after) options endTime endTimestamp) = Ok s ->
  total_tokens s = Some (input_tokens s + output_tokens s)%Z
  /\ cost_usd s =
       match costUsd options with
       | Some c => c
       | None => calculateCost (provider s) (model_id s) (input_tokens s) (output_tokens s)
       end
  /\ latency_ms s = Some (duration_ms s)
  /\ total_cost_usd s = Some (cost_usd s)
  /\ vendor s = Some (provider_name (provider s))
  /\ duration_ms s = (endTime - w_now w)%Z
  /\ ((w_now w <= endTime)%Z -> finished_span_invariant s).
Proof.
  intros H. apply finish_Ok in H as (prov & Hp & _ & ->).
  pose proof (started_span_mirrors before after w) as Hv.
  unfold vendor_mirrors_provider in Hv. rewrite Hp in Hv.
  assert (Hvendor : vendor (completeSpan (started_span before w after) prov options
                              endTime endTimestamp) = Some (provider_name prov)).
  { unfold completeSpan; cbv zeta; cbn [vendor]. now rewrite Hv. }
  assert (Hdur : duration_ms (completeSpan (started_span before w after) prov options
                                endTime endTimestamp) = (endTime - w_now w)%Z)
    by reflexivity.
  split; [reflexivity|]. split; [reflexivity|]. split; [reflexivity|].
  split; [reflexivity|]. split; [exact Hvendor|]. split; [exact Hdur|].
  intros Hclock. unfold finished_span_invariant.
  split; [reflexivity|]. split; [rewrite Hdur; lia|].
  split; [reflexivity|]. split; [reflexivity|exact Hvendor].
Qed.

Lemma C7_witness :
  finished_span_invariant
    (completeSpan (started_span Samples.sample_calls Samples.sample_world [])
       openai Samples.sample_options 1250 "2026-01-01T00:00:01.250Z").
Proof.
  refine (proj2 (proj2 (proj2 (proj2 (proj2 (proj2
    (C7_finished_span_fields Samples.sample_calls [] Samples.sample_world
       Samples.sample_options 1250 "2026-01-01T00:00:01.250Z" _ _)))))) _).
  - vm_compute. reflexivity.
  - vm_compute. discriminate.
Defined.

End SpanFacts.

(** ** Trace capsule *)

Module CapsuleFacts.
Import Js Capsule Reference.

Section Lastn.
Context {A : Type}.
Implicit Types (l : list A) (n : nat).

Lemma lastn_short n l : (List.length l <= n)%nat -> lastn n l = l.
Proof.
  intros H. unfold lastn.
  replace (List.length l - n)%nat with 0%nat by lia. reflexivity.
Qed.

Lemma lastn_length n l : List.length (lastn n l) = Nat.min (List.length l) n.
Proof. unfold lastn. rewrite length_skipn. lia. Qed.

Lemma lastn_app_lastn n l l' : lastn n (lastn n l ++ l') = lastn n (l ++ l').
Proof.
  destruct (Nat.le_gt_cases (List.length l) n) as [H|H].
  - now rewrite (lastn_short n l H).
  - unfold lastn at 1 3.
    rewrite !length_app, lastn_length.
    replace (Nat.min (List.length l) n) with n by lia.
    unfold lastn.
    rewrite !skipn_app, skipn_skipn, length_skipn.
    replace (n + List.length l' - n + (List.length l - n))%nat
      with (List.length l + List.length l' - n)%nat by lia.
    f_equal. f_equal. lia.
Qed.

(** One push followed by at most one shift keeps the last [n] entries. *)
Lemma push_shift n l x :
  (List.length l <= n)%nat ->
  (if (n <? List.length (l ++ [x]))%nat then tl (l ++ [x]) else l ++ [x])
  = lastn n (l ++ [x]).
Proof.
  intros H. rewrite length_app; cbn [List.length].
  destruct (Nat.ltb_spec n (List.length l + 1)) as [Hlt|Hge].
  - unfold lastn. rewrite length_app; cbn [List.length].
    replace (List.length l + 1 - n)%nat with 1%nat by lia.
    reflexivity.
  - symmetry. apply lastn_short. rewrite length_app; cbn [List.length]. lia.
Qed.

End Lastn.

Lemma appendHop_hops (h : CapsuleHop) (t : string) (c : TraceCapsule) :
  (List.length (lastNHops c) <= MAX_HOPS)%nat ->
  lastNHops (appendHop h t c)
  = lastn MAX_HOPS
      (lastNHops c ++ [with_hop_index h (Z.of_nat (List.length (lastNHops c)))]).
Proof. intros H. unfold appendHop; cbn [lastNHops]. now apply push_shift. Qed.

(** The window after a sequence of appends, for a capsule whose window
    holds the last [MAX_HOPS] entries of a history [past]. *)
Lemma appendHops_window (hops : list (CapsuleHop * string)) :
  forall (c : TraceCapsule) (past : list CapsuleHop),
  lastNHops c = lastn MAX_HOPS past ->
  lastNHops (appendHops hops c)
  = lastn MAX_HOPS (past ++ stored_hops (List.length past) (map fst hops)).
Proof.
  induction hops as [|[h t] hops IH]; intros c past Hc.
  - cbn. now rewrite app_nil_r.
  - change (appendHops ((h, t) :: hops) c) with (appendHops hops (appendHop h t c)).
    cbn [map fst stored_hops].
    rewrite (IH (appendHop h t c)
               (past ++ [with_hop_index h (Z.of_nat (Nat.min (List.length past) MAX_HOPS))])).
    + rewrite length_app; cbn [List.length].
      rewrite <- app_assoc. cbn [app].
      now replace (List.length past + 1)%nat with (S (List.length past)) by lia.
    + rewrite appendHop_hops by (rewrite Hc, lastn_length; lia).
      rewrite Hc, lastn_length. apply lastn_app_lastn.
Qed.

Lemma appendHops_aggregates (hops : list (CapsuleHop * string)) :
  forall c : TraceCapsule,
  aggregateCostUsd (appendHops hops c) = sum_over cost_usd (aggregateCostUsd c) hops
  /\ aggregateLatencyMs (appendHops hops c)
     = sum_over duration_ms (aggregateLatencyMs c) hops.
Proof.
  induction hops as [|[h t] hops IH]; intros c; [split; reflexivity|].
  change (appendHops ((h, t) :: hops) c) with (appendHops hops (appendHop h t c)).
  destruct (IH (appendHop h t c)) as [-> ->]. split; reflexivity.
Qed.

Lemma lastn_map {A B : Type} (f : A -> B) (n : nat) (l : list A) :
  map f (lastn n l) = lastn n (map f l).
Proof. unfold lastn. now rewrite skipn_map, length_map. Qed.

Lemma stored_hops_without_index (n : nat) (hops : list CapsuleHop) :
  map without_index (stored_hops n hops) = map without_index hops.
Proof.
  revert n. induction hops as [|h t IH]; intros n; [reflexivity|].
  cbn [stored_hops map]. now rewrite IH.
Qed.

(** On a capsule that starts empty the k-th appended hop (counting from
    zero) is stored under index [min k MAX_HOPS]. *)
Lemma appendHops_from_empty (hops : list (CapsuleHop * string)) (c : TraceCapsule) :
  lastNHops c = [] ->
  lastNHops (appendHops hops c) = lastn MAX_HOPS (stored_hops 0 (map fst hops)).
Proof.
  intros H. now rewrite (appendHops_window hops c [] H).
Qed.

(** For every capsule whose hop list holds at most [MAX_HOPS] entries
    (such is every capsule constructed without a hop list) and every
    sequence of [appendHop] calls: the hop list never exceeds
    [MAX_HOPS]; it holds exactly the [MAX_HOPS] most recent of the
    earlier and the appended hops, in their original order; and the two
    aggregates are their earlier values plus the [cost_usd] and the
    [duration_ms] (absent counted as zero) of every appended hop,
    evicted or not. *)
Lemma appendHops_rolling_window (c : TraceCapsule)
  (hops : list (CapsuleHop * string)) :
  (List.length (lastNHops c) <= MAX_HOPS)%nat ->
  (List.length (lastNHops (appendHops hops c)) <= MAX_HOPS)%nat
  /\ lastNHops (appendHops hops c)
     = lastn MAX_HOPS
         (lastNHops c ++ stored_hops (List.length (lastNHops c)) (map fst hops))
  /\ map without_index (lastNHops (appendHops hops c))
     = lastn MAX_HOPS (map without_index (lastNHops c ++ map fst hops))
  /\ aggregateCostUsd (appendHops hops c) = sum_over cost_usd (aggregateCostUsd c) hops
  /\ aggregateLatencyMs (appendHops hops c)
     = sum_over duration_ms (aggregateLatencyMs c) hops.
Proof.
  intros Hlen.
  pose proof (appendHops_window hops c (lastNHops c)
                (eq_sym (lastn_short MAX_HOPS _ Hlen))) as Hw.
  split; [rewrite Hw, lastn_length; lia|].
  split; [exact Hw|].
  split; [|apply appendHops_aggregates].
  rewrite Hw, lastn_map, !map_app, stored_hops_without_index. reflexivity.
Qed.

Example appendHops_rolling_window_seven :
  (getHopCount (appendHops (CapsuleSamples.sample_appends 7)
                  CapsuleSamples.fresh_capsule) <= MAX_HOPS)%nat
  /\ aggregateLatencyMs (appendHops (CapsuleSamples.sample_appends 7)
                           CapsuleSamples.fresh_capsule)
     = sum_over duration_ms (Num 0) (CapsuleSamples.sample_appends 7).
Proof.
  pose proof (appendHops_rolling_window CapsuleSamples.fresh_capsule
                (CapsuleSamples.sample_appends 7) (Nat.le_0_l MAX_HOPS))
    as (Hlen & _ & _ & _ & Hlat).
  split; [exact Hlen | exact Hlat].
Qed.

(** Above the bound [appendHop] removes the one hop it adds. *)
Lemma appendHop_above_bound (hop : CapsuleHop) (t : string) (c : TraceCapsule) :
  (MAX_HOPS < getHopCount c)%nat ->
  getHopCount (appendHop hop t c) = getHopCount c.
Proof.
  unfold getHopCount, appendHop. cbn [lastNHops]. intros H.
  set (x := with_hop_index hop (Z.of_nat (List.length (lastNHops c)))).
  replace (MAX_HOPS <? List.length (lastNHops c ++ [x]))%nat with true.
  - destruct (lastNHops c) as [|y l]; [cbn in H; lia|].
    cbn [app tl List.length]. rewrite length_app. cbn. lia.
  - symmetry. apply Nat.ltb_lt. rewrite length_app. cbn [List.length]. lia.
Qed.

Lemma appendHops_above_bound (hops : list (CapsuleHop * string)) :
  forall c, (MAX_HOPS < getHopCount c)%nat ->
  getHopCount (appendHops hops c) = getHopCount c.
Proof.
  induction hops as [|[hop t] hops IH]; intros c H; [reflexivity|].
  cbn [appendHops fold_left fst snd]. fold (appendHops hops (appendHop hop t c)).
  rewrite IH; rewrite appendHop_above_bound; auto.
Qed.

(** C8 (defect in the code). The claim bounds the hop list of every
    capsule by [MAX_HOPS] = 5 after every sequence of [appendHop] calls,
    as do the comments of the class ("Maximum number of hops to keep",
    "Rolling window of last N hops (max 5)"). But the constructor, and
    [fromJson] through it, store any hop list, and [appendHop] removes
    at most one hop per call. So a capsule read from a payload that
    lists six hops holds six before and after an append, and a window
    above the bound never shrinks, whatever is appended. *)
Theorem C8_window_exceeds_MAX_HOPS :
  getHopCount CapsuleSamples.six_hop_capsule = 6%nat
  /\ getHopCount (appendHops (CapsuleSamples.sample_appends 1)
                    CapsuleSamples.six_hop_capsule) = 6%nat
  /\ (MAX_HOPS < getHopCount (appendHops (CapsuleSamples.sample_appends 1)
                                CapsuleSamples.six_hop_capsule))%nat
  /\ (forall parse json w data listed hop t,
        parse json = Ok data ->
        CapsuleStore.d_last_n_hops data = Some listed ->
        (MAX_HOPS < List.length listed)%nat ->
        getHopCount (CapsuleStore.fromJson parse json w) = List.length listed
        /\ getHopCount (appendHop hop t (CapsuleStore.fromJson parse json w))
           = List.length listed)
  /\ (forall c hops,
        (MAX_HOPS < getHopCount c)%nat ->
        getHopCount (appendHops hops c) = getHopCount c
        /\ (MAX_HOPS < getHopCount (appendHops hops c))%nat).
Proof.
  split; [reflexivity|]. split; [reflexivity|].
  split; [vm_compute; apply le_n|].
  split.
  - intros parse json w data listed hop t Hp Hl Hlen.
    assert (Hc : getHopCount (CapsuleStore.fromJson parse json w) = List.length listed).
    { unfold CapsuleStore.fromJson. rewrite Hp. unfold getHopCount, new_TraceCapsule.
      cbn [lastNHops o_lastNHops]. now rewrite Hl. }
    split; [exact Hc|]. rewrite appendHop_above_bound; [exact Hc|]. now rewrite Hc.
  - intros c hops H. rewrite (appendHops_above_bound hops c H). now split.
Qed.

(** C9 (defect in the code). The claim gives the k-th appended hop the
    index k-1, so the window after seven appends on a new capsule would
    carry the indices 2, 3, 4, 5, 6. [appendHop] takes the index from the
    length of the window, which stays at [MAX_HOPS] once eviction has
    begun: the sixth and the seventh hop are both stored under 5. *)
Theorem C9_hop_index_stalls_at_MAX_HOPS :
  map hop_index
    (lastNHops (appendHops (CapsuleSamples.sample_appends 7) CapsuleSamples.fresh_capsule))
  = [Some 2; Some 3; Some 4; Some 5; Some 5]%Z
  /\ lastn MAX_HOPS (spec_hop_indices 7) = [Some 2; Some 3; Some 4; Some 5; Some 6]%Z
  /\ (forall hops c, lastNHops c = [] ->
        lastNHops (appendHops hops c) = lastn MAX_HOPS (stored_hops 0 (map fst hops))).
Proof.
  split; [reflexivity|]. split; [reflexivity|]. exact appendHops_from_empty.
Qed.

End CapsuleFacts.

(** ** Router *)

Module RouterFacts.
Import JsString Js Router Reference Reference2.

(** *** The candidate list *)

Lemma find_none_filter (sel : string) (ps : list PathConfig) :
  find (has_model sel) ps = None ->
  filter (fun p => negb (String.eqb (model p) sel)) ps = ps.
Proof.
  induction ps as [|p ps IH]; cbn [find filter]; [reflexivity|].
  unfold has_model at 1. destruct (String.eqb (model p) sel); [discriminate|].
  intros H. cbn [negb]. now rewrite IH.
Qed.

(** A selected model that no configured path has leaves the configured
    order as the fallback chain. *)
Lemma candidatePaths_unmatched (sel : string) (ps : list PathConfig) :
  find (has_model sel) ps = None -> candidatePaths ps sel = ps.
Proof.
  intros H. unfold candidatePaths.
  change (fun p => String.eqb (model p) sel) with (has_model sel).
  rewrite H. cbn [app]. now apply find_none_filter.
Qed.

Lemma candidatePaths_matched (sel : string) (ps : list PathConfig) (p : PathConfig) :
  find (has_model sel) ps = Some p ->
  candidatePaths ps sel = p :: filter (fun q => negb (has_model sel q)) ps.
Proof.
  intros H. unfold candidatePaths.
  change (fun p => String.eqb (model p) sel) with (has_model sel).
  now rewrite H.
Qed.

(** With pairwise distinct models, dropping every path of the selected
    model drops only the one found first. *)
Lemma filter_remove_first (sel : string) (ps : list PathConfig) :
  NoDup (map model ps) ->
  filter (fun q => negb (has_model sel q)) ps = remove_first (has_model sel) ps.
Proof.
  induction ps as [|p ps IH]; intros Hnd; [reflexivity|].
  cbn [map] in Hnd. apply NoDup_cons_iff in Hnd as [Hnotin Hnd].
  cbn [filter remove_first].
  destruct (has_model sel p) eqn:Hp; cbn [negb].
  - unfold has_model in Hp. apply String.eqb_eq in Hp. subst sel.
    clear IH Hnd. induction ps as [|q ps IH]; [reflexivity|].
    cbn [filter]. unfold has_model at 1.
    destruct (String.eqb (model q) (model p)) eqn:Hq.
    + apply String.eqb_eq in Hq. exfalso. apply Hnotin. left. exact Hq.
    + cbn [negb]. f_equal. apply IH. intros Hin. apply Hnotin. now right.
  - f_equal. now apply IH.
Qed.

Lemma candidatePaths_nonempty (sel : string) (ps : list PathConfig) :
  ps <> [] -> candidatePaths ps sel <> [].
Proof.
  intros Hps. destruct (find (has_model sel) ps) as [p|] eqn:H.
  - rewrite (candidatePaths_matched sel ps p H). discriminate.
  - now rewrite (candidatePaths_unmatched sel ps H).
Qed.

(** *** One call of [reportFailure], one [try] body *)

Lemma reportFailure_inv (sv : Services) (ty msg : string) (r : Router) (h : list Event) :
  exists revs r1,
    reportFailure sv ty msg (r, h) = (r1, h ++ revs)
    /\ (ty = "provider_error" -> failure_reported r revs r1).
Proof.
  unfold reportFailure.
  destruct (outcomeReported r) eqn:Hrep; cbn [orb].
  { exists [], r. rewrite app_nil_r. split; [reflexivity|]. intros _. left. auto. }
  destruct (falsy (lastTraceId r)) eqn:Hid.
  { exists [], r. rewrite app_nil_r. split; [reflexivity|]. intros _. left. auto. }
  match goal with
  | |- context [reportOutcome sv h ?a] =>
      set (args := a); destruct (reportOutcome sv h args) as [u|e]
  end.
  - exists [EvReportOutcome args true], (set_outcomeReported true r).
    split; [reflexivity|]. intros ->. right. exists args, true.
    repeat split; first [reflexivity | assumption].
  - exists [EvReportOutcome args false], r.
    split; [reflexivity|]. intros ->. right. exists args, false.
    repeat split; first [reflexivity | assumption].
Qed.

Lemma attempt_inv (sv : Services) (msgs : list Message) (opts : CompletionOptions)
  (c : PathConfig) (h : list Event) :
  (exists resp p,
      attempt sv msgs opts c h = (Ok resp, h ++ [EvDispatch p (model c) true]))
  \/ (exists e devs,
        attempt sv msgs opts c h = (Err e, h ++ devs) /\ dispatch_failed c devs).
Proof.
  unfold attempt.
  destruct (detectProvider (model c)) as [p|e].
  - destruct (callProvider sv h p (model c) msgs opts) as [resp|e].
    + left. now exists resp, p.
    + right. exists e, [EvDispatch p (model c) false].
      split; [reflexivity|]. right. now exists p.
  - right. exists e, []. rewrite app_nil_r. split; [reflexivity|]. now left.
Qed.

(** Every execution of the fallback loop is a run. *)
Lemma try_candidates_run (sv : Services) (msgs : list Message)
  (opts : CompletionOptions) (cands : list PathConfig) :
  forall (le : option Error) (r : Router) (h : list Event),
  exists evs resp le' r',
    try_candidates sv msgs opts cands le (r, h) = (resp, le', (r', h ++ evs))
    /\ loop_run cands le r evs resp le' r'.
Proof.
  induction cands as [|c rest IH]; intros le r h.
  - exists [], None, le, r. rewrite app_nil_r. split; [reflexivity|constructor].
  - cbn [try_candidates].
    destruct (attempt_inv sv msgs opts c (h ++ [EvAttempt c]))
      as [(resp & p & ->)|(e & devs & -> & Hd)].
    + exists [EvAttempt c; EvDispatch p (model c) true], (Some resp), le,
        (set_lastModel (Some (model c)) r).
      rewrite <- app_assoc. split; [reflexivity|constructor].
    + destruct (reportFailure_inv sv "provider_error" (message e) r
                  ((h ++ [EvAttempt c]) ++ devs ++ [EvFailed c e]))
        as (revs & r1 & Hrf & Hfr).
      rewrite <- (app_assoc (h ++ [EvAttempt c]) devs) , Hrf.
      destruct (IH (Some e) r1
                  (((h ++ [EvAttempt c]) ++ devs ++ [EvFailed c e]) ++ revs))
        as (evs & resp & le' & r' & -> & Hrun).
      exists (EvAttempt c :: devs ++ EvFailed c e :: revs ++ evs), resp, le', r'.
      split.
      * repeat rewrite <- app_assoc. reflexivity.
      * econstructor; eauto.
Qed.

(** *** Selection, conclusion, and the whole of [completion] *)

Lemma report_inv (sv : Services) (am : Ambient) (success : bool)
  (reason : option string) (score : option number) (r : Router) (h : list Event) :
  exists aevs r',
    report sv am success reason score (r, h) = (r', h ++ aevs)
    /\ ((aevs = [] /\ r' = r)
        \/ (exists a b, aevs = [EvReportOutcome a b] /\ evaluation_report a
              /\ outcomeReported r = false
              /\ r' = if b then set_outcomeReported true r else r)).
Proof.
  unfold report.
  destruct (outcomeReported r) eqn:Hrep.
  { exists [], r. rewrite app_nil_r. split; [reflexivity|]. now left. }
  destruct (falsy (or_string (lastTraceId r) (getTraceId am))).
  { exists [], r. rewrite app_nil_r. split; [reflexivity|]. now left. }
  match goal with
  | |- context [reportOutcome sv h ?a] =>
      set (args := a); destruct (reportOutcome sv h args) as [u|e]
  end.
  - exists [EvReportOutcome args true], (set_outcomeReported true r).
    split; [reflexivity|]. right. exists args, true.
    repeat split; first [reflexivity | assumption].
  - exists [EvReportOutcome args false], r.
    split; [reflexivity|]. right. exists args, false.
    repeat split; first [reflexivity | assumption].
Qed.

Lemma newTraceId_not_empty (a b : string) : String.eqb (Context.newTraceId a b) "" = false.
Proof. unfold Context.newTraceId. destruct a; reflexivity. Qed.

(** The trace id [completion] stores is never empty. *)
Lemma completion_trace_id_known (o : option string) (a b : string) :
  falsy (or_string o (Some (Context.newTraceId a b))) = false.
Proof.
  unfold or_string. destruct (falsy o) eqn:H; [|exact H].
  cbn [falsy]. apply newTraceId_not_empty.
Qed.

Lemma selectModel_inv (sv : Services) (opts : CompletionOptions) (r : Router)
  (h : list Event) :
  paths r <> [] ->
  exists sel devs r1,
    selectModel sv opts (r, h) = Ok (sel, (r1, h ++ devs))
    /\ submissions devs = [] /\ attempts devs = [] /\ failures devs = []
    /\ Forall (fun ev => ~ served ev) devs
    /\ outcomeReported r1 = outcomeReported r
    /\ lastTraceId r1 = lastTraceId r.
Proof.
  intros Hps. unfold selectModel.
  assert (Hdec : forall g b, Forall (fun ev => ~ served ev) [EvDecide g b]).
  { intros g b. constructor; [|constructor]. intros (p & m & H). discriminate H. }
  destruct (negb (falsy (forceModel opts))).
  { eexists _, [], r. rewrite app_nil_r. repeat split; constructor. }
  destruct (decide sv h (goal r)) as [d|e].
  { eexists _, [EvDecide (goal r) true], _. repeat split; auto. }
  destruct (paths r) as [|first rest]; [contradiction|].
  eexists _, [EvDecide (goal r) false], r. repeat split; auto.
Qed.

(** After a served request [conclude] returns the response, having
    submitted the evaluation if there was one to make, or rejects with
    what the callback threw, having submitted nothing. *)
Lemma conclude_served (sv : Services) (am : Ambient) (resp : ChatCompletion)
  (le : option Error) (r2 : Router) (h2 : list Event) :
  exists aevs r3 res,
    conclude sv am (Some resp, le, (r2, h2)) = (res, (r3, h2 ++ aevs))
    /\ evaluated r2 aevs r3
    /\ (res = Ok resp
        \/ exists pred e,
             res = Err e /\ aevs = [] /\ r3 = r2
             /\ successWhen r2 = Some pred /\ outcomeReported r2 = false
             /\ pred h2 (primary_content resp) = Err e).
Proof.
  cbn [conclude].
  destruct (successWhen r2) as [pred|] eqn:Hsw.
  - destruct (outcomeReported r2) eqn:Hrep2; cbn [negb].
    + exists [], r2, (Ok resp). rewrite app_nil_r. split; [reflexivity|].
      split; now left.
    + destruct (pred h2 (primary_content resp)) as [success|e] eqn:Hpred.
      * destruct (report_inv sv am success
                    (if success then None
                     else Some "Output did not meet success criteria")
                    None r2 h2)
          as (aevs & r3 & -> & [[-> ->]|(a & b & -> & Hev & _ & ->)]).
        -- exists [], r2, (Ok resp). split; [reflexivity|]. split; now left.
        -- exists [EvReportOutcome a b], (if b then set_outcomeReported true r2 else r2),
             (Ok resp).
           split; [reflexivity|]. split; [|now left]. right. exists a, b.
           repeat split; auto. rewrite Hsw. discriminate.
      * exists [], r2, (Err e). rewrite app_nil_r. split; [reflexivity|].
        split; [now left|]. right. exists pred, e. repeat split; auto.
  - exists [], r2, (Ok resp). rewrite app_nil_r. split; [reflexivity|].
    split; now left.
Qed.

(** Every execution of [completion] on a router with a path is a run. *)
Lemma completion_is_run (sv : Services) (am : Ambient) (msgs : list Message)
  (opts : CompletionOptions) (r : Router) (h : list Event) :
  paths r <> [] ->
  exists evs res r',
    completion sv am msgs opts (r, h) = (res, (r', h ++ evs))
    /\ completion_run r evs res r'.
Proof.
  intros Hps. unfold completion.
  set (r0 := set_lastTraceId _ (set_outcomeReported false r)).
  destruct (selectModel_inv sv opts r0 h Hps)
    as (sel & devs & r1 & -> & Hs & Ha & Hf & Hd & Hrep & Hid).
  cbv zeta.
  assert (Hrep1 : outcomeReported r1 = false) by (rewrite Hrep; reflexivity).
  assert (Hid1 : falsy (lastTraceId r1) = false)
    by (rewrite Hid; apply completion_trace_id_known).
  destruct (try_candidates_run sv msgs opts (candidatePaths (paths r0) sel) None r1
              (h ++ devs)) as (evs & resp & le & r2 & -> & Hrun).
  change (paths r0) with (paths r) in Hrun.
  destruct resp as [resp|]; cbn [conclude].
  - destruct (conclude_served sv am resp le r2 ((h ++ devs) ++ evs))
      as (aevs & r3 & res & Hc & Hev
          & [->|(pred & e & -> & -> & -> & Hsw & Hrep2 & Hpred)]).
    + cbn [conclude] in Hc. rewrite Hc.
      exists (devs ++ evs ++ aevs), (Ok resp), r3.
      split; [now rewrite <- !app_assoc|].
      now apply (run_one_served r sel devs r1 evs resp le r2 aevs r3).
    + cbn [conclude] in Hc. rewrite Hc.
      exists (devs ++ evs), (Err e), r2.
      split; [now rewrite <- !app_assoc, app_nil_r|].
      now apply (run_callback_threw r sel devs r1 evs resp le r2 pred
                   ((h ++ devs) ++ evs) e).
  - eexists (devs ++ evs), _, r2.
    split; [now rewrite <- !app_assoc|].
    now apply (run_all_failed r sel devs r1 evs le r2).
Qed.

(** *** What every run of the loop satisfies *)

Lemma new_events_app (h evs : list Event) : new_events h (h ++ evs) = evs.
Proof.
  unfold new_events. rewrite skipn_app, skipn_all, Nat.sub_diag. reflexivity.
Qed.

Lemma attempts_app (l l' : list Event) : attempts (l ++ l') = attempts l ++ attempts l'.
Proof. apply flat_map_app. Qed.

Lemma failures_app (l l' : list Event) : failures (l ++ l') = failures l ++ failures l'.
Proof. apply flat_map_app. Qed.

Lemma submissions_app (l l' : list Event) :
  submissions (l ++ l') = submissions l ++ submissions l'.
Proof. apply flat_map_app. Qed.

Lemma dispatch_failed_silent (c : PathConfig) (devs : list Event) :
  dispatch_failed c devs ->
  attempts devs = [] /\ failures devs = [] /\ submissions devs = []
  /\ Forall (fun ev => ~ served ev) devs.
Proof.
  intros [->|(p & ->)]; repeat split; try constructor; try constructor.
  intros (p' & m & H). discriminate H.
Qed.

Lemma failure_reported_silent (r r1 : Router) (revs : list Event) :
  failure_reported r revs r1 ->
  attempts revs = [] /\ failures revs = []
  /\ Forall (fun ev => ~ served ev) revs.
Proof.
  intros [(-> & _)|(a & b & -> & _)]; repeat split; try constructor; try constructor.
  intros (p' & m & H). discriminate H.
Qed.

(** The loop attempts the candidates in list order and stops at the
    first that serves the request. *)
Lemma loop_attempts cands le r evs resp le' r' :
  loop_run cands le r evs resp le' r' ->
  exists rest, cands = attempts evs ++ rest /\ (resp = None -> rest = []).
Proof.
  induction 1 as [le r|c rest le r p resp
                 |c rest le r e devs revs r1 evs resp le' r' Hd Hr _ IH].
  - exists []. auto.
  - exists rest. split; [reflexivity|discriminate].
  - destruct IH as (rest' & -> & Hnone).
    destruct (dispatch_failed_silent _ _ Hd) as (Ha & _).
    destruct (failure_reported_silent _ _ _ Hr) as (Ha' & _).
    exists rest'. split; [|exact Hnone].
    change (EvAttempt c :: devs ++ EvFailed c e :: revs ++ evs)
      with ([EvAttempt c] ++ devs ++ [EvFailed c e] ++ revs ++ evs).
    rewrite !attempts_app, Ha, Ha'. reflexivity.
Qed.

(** A loop that ends without a response made no provider call that
    returned one. *)
Lemma loop_unserved cands le r evs le' r' :
  loop_run cands le r evs None le' r' -> Forall (fun ev => ~ served ev) evs.
Proof.
  remember (@None ChatCompletion) as none eqn:Hn.
  induction 1 as [le r|c rest le r p resp
                 |c rest le r e devs revs r1 evs resp le' r' Hd Hr _ IH];
    [constructor|discriminate|].
  destruct (dispatch_failed_silent _ _ Hd) as (_ & _ & _ & Hds).
  destruct (failure_reported_silent _ _ _ Hr) as (_ & _ & Hrs).
  constructor; [intros (p & m & H); discriminate H|].
  apply Forall_app. split; [exact Hds|].
  constructor; [intros (p & m & H); discriminate H|].
  apply Forall_app. split; [exact Hrs|now apply IH].
Qed.

Lemma last_cons {A : Type} (x d : A) (l : list A) : last (x :: l) d = last l x.
Proof.
  revert x d. induction l as [|y l IH]; intros x d; [reflexivity|].
  change (last (x :: y :: l) d) with (last (y :: l) d).
  now rewrite !IH.
Qed.

Lemma last_error_some (fs : list (PathConfig * Error)) (d : option Error) :
  fs <> [] -> exists e, last_error fs d = Some e.
Proof.
  unfold last_error. destruct fs as [|f fs]; [contradiction|]. intros _.
  cbn [map]. rewrite last_cons. generalize (snd f) as e.
  induction fs as [|g fs IH]; intros e; cbn [map].
  - now exists e.
  - rewrite last_cons. apply IH.
Qed.

(** [lastError] at the exit is the error of the last failure caught; a
    loop that serves nothing caught one failure per candidate. *)
Lemma loop_failures cands le r evs resp le' r' :
  loop_run cands le r evs resp le' r' ->
  le' = last_error (failures evs) le
  /\ (resp = None -> map fst (failures evs) = cands).
Proof.
  induction 1 as [le r|c rest le r p resp
                 |c rest le r e devs revs r1 evs resp le' r' Hd Hr _ IH].
  - split; reflexivity.
  - split; [reflexivity|discriminate].
  - destruct IH as (-> & Hnone).
    destruct (dispatch_failed_silent _ _ Hd) as (_ & Hf & _).
    destruct (failure_reported_silent _ _ _ Hr) as (_ & Hf' & _).
    change (EvAttempt c :: devs ++ EvFailed c e :: revs ++ evs)
      with ([EvAttempt c] ++ devs ++ [EvFailed c e] ++ revs ++ evs).
    rewrite !failures_app, Hf, Hf'. cbn [failures flat_map app].
    split.
    + unfold last_error. cbn [map snd]. now rewrite last_cons.
    + intros Hn. cbn [map fst]. now rewrite (Hnone Hn).
Qed.

(** A loop that ends with a response made a provider call that
    returned one. *)
Lemma loop_served cands le r evs resp le' r' :
  loop_run cands le r evs resp le' r' ->
  resp <> None -> Exists served evs.
Proof.
  induction 1 as [le r|c rest le r p resp
                 |c rest le r e devs revs r1 evs resp le' r' Hd Hr _ IH];
    intros Hresp.
  - contradiction.
  - apply Exists_cons_tl, Exists_cons_hd. now exists p, (model c).
  - apply Exists_cons_tl. apply Exists_app. right.
    apply Exists_cons_tl. apply Exists_app. right. now apply IH.
Qed.

(** Every submission of the loop is a failure report, and the flag at
    the exit is set when it was set at the entry or a submission was
    accepted. *)
Lemma loop_reports cands le r evs resp le' r' :
  loop_run cands le r evs resp le' r' ->
  Forall (fun s => failure_report (fst s)) (submissions evs)
  /\ (outcomeReported r = true \/ Exists (fun s => snd s = true) (submissions evs) ->
      outcomeReported r' = true).
Proof.
  induction 1 as [le r|c rest le r p resp
                 |c rest le r e devs revs r1 evs resp le' r' Hd Hr _ IH].
  - split; [constructor|]. intros [H|H]; [exact H|inversion H].
  - split; [constructor|]. intros [H|H]; [exact H|inversion H].
  - destruct IH as (Hall & Hflag).
    destruct (dispatch_failed_silent _ _ Hd) as (_ & _ & Hs & _).
    change (EvAttempt c :: devs ++ EvFailed c e :: revs ++ evs)
      with ([EvAttempt c] ++ devs ++ [EvFailed c e] ++ revs ++ evs).
    rewrite !submissions_app, Hs. cbn [submissions flat_map app].
    destruct Hr as [(-> & -> & _)|(a & b & -> & Ha & Hrep & ->)].
    + cbn [submissions flat_map app]. split; [exact Hall|exact Hflag].
    + cbn [submissions flat_map app]. split; [now constructor|].
      intros [H|H]; [congruence|].
      apply Hflag. apply Exists_cons in H as [H|H]; [|now right].
      cbn [snd] in H. subst b. now left.
Qed.

(** Conversely, the flag is set at the exit only if it was set at the
    entry or a submission of the loop was accepted. *)
Lemma loop_flag_inv cands le r evs resp le' r' :
  loop_run cands le r evs resp le' r' ->
  outcomeReported r' = true ->
  outcomeReported r = true \/ Exists (fun s => snd s = true) (submissions evs).
Proof.
  induction 1 as [le r|c rest le r p resp
                 |c rest le r e devs revs r1 evs resp le' r' Hd Hr _ IH];
    intros Hflag.
  - now left.
  - now left.
  - destruct (dispatch_failed_silent _ _ Hd) as (_ & _ & Hs & _).
    change (EvAttempt c :: devs ++ EvFailed c e :: revs ++ evs)
      with ([EvAttempt c] ++ devs ++ [EvFailed c e] ++ revs ++ evs).
    rewrite !submissions_app, Hs. cbn [submissions flat_map app].
    destruct Hr as [(-> & -> & _)|(a & b & -> & _ & _ & ->)];
      cbn [submissions flat_map app].
    + exact (IH Hflag).
    + destruct (IH Hflag) as [H|H].
      * destruct b; [|now left]. right. now apply Exists_cons_hd.
      * right. now apply Exists_cons_tl.
Qed.

(** After a completion the flag tells whether a submission made during
    this completion was accepted, whatever it was before. *)
Lemma completion_flag (r r' : Router) (evs : list Event)
  (res : result Error ChatCompletion) :
  completion_run r evs res r' ->
  outcomeReported r' = true <-> Exists (fun s => snd s = true) (submissions evs).
Proof.
  intros [sel devs r1 evs1 le r2 Hs _ _ _ Hrep1 _ Hloop
         |sel devs r1 evs1 resp le r2 aevs r3 Hs _ _ _ Hrep1 _ Hloop Hev
         |sel devs r1 evs1 resp le r2 pred hist e Hs _ _ _ Hrep1 _ Hloop _ _ _].
  - rewrite submissions_app, Hs. cbn [app].
    destruct (loop_reports _ _ _ _ _ _ _ Hloop) as (_ & Hset).
    split.
    + intros H. destruct (loop_flag_inv _ _ _ _ _ _ _ Hloop H) as [H'|H']; [congruence|exact H'].
    + intros H. apply Hset. now right.
  - rewrite !submissions_app, Hs. cbn [app].
    destruct (loop_reports _ _ _ _ _ _ _ Hloop) as (_ & Hset).
    destruct Hev as [(-> & ->)|(a & b & -> & _ & Hrep2 & _ & ->)];
      cbn [submissions flat_map app].
    + rewrite app_nil_r. split.
      * intros H. destruct (loop_flag_inv _ _ _ _ _ _ _ Hloop H) as [H'|H'];
          [congruence|exact H'].
      * intros H. apply Hset. now right.
    + split.
      * intros H. apply Exists_app. right. apply Exists_cons_hd.
        destruct b; [reflexivity|]. congruence.
      * intros H. apply Exists_app in H as [H|H].
        -- assert (outcomeReported r2 = true) by (apply Hset; now right). congruence.
        -- apply Exists_cons in H as [H|H]; [|inversion H].
           cbn [snd] in H. now subst b.
  - rewrite submissions_app, Hs. cbn [app].
    destruct (loop_reports _ _ _ _ _ _ _ Hloop) as (_ & Hset).
    split.
    + intros H. destruct (loop_flag_inv _ _ _ _ _ _ _ Hloop H) as [H'|H']; [congruence|exact H'].
    + intros H. apply Hset. now right.
Qed.

(** *** The loop and the completion against the services *)

(** Brings both sides of an equation between traces to the form
    [h ++ e1 :: ... ++ rest]. *)
Ltac trace_assoc := repeat first [rewrite <- app_assoc | progress cbn [app]].

Lemma attempt_cases (sv : Services) (msgs : list Message) (opts : CompletionOptions)
  (c : PathConfig) (h : list Event) :
  (exists resp p,
      detectProvider (model c) = Ok p
      /\ callProvider sv h p (model c) msgs opts = Ok resp
      /\ attempt sv msgs opts c h = (Ok resp, h ++ [EvDispatch p (model c) true]))
  \/ (exists e devs,
        attempt sv msgs opts c h = (Err e, h ++ devs)
        /\ dispatch_failed c devs
        /\ ((devs = [] /\ detectProvider (model c) = Err e)
            \/ exists p, devs = [EvDispatch p (model c) false]
                         /\ detectProvider (model c) = Ok p
                         /\ callProvider sv h p (model c) msgs opts = Err e)).
Proof.
  unfold attempt.
  destruct (detectProvider (model c)) as [p|e].
  - destruct (callProvider sv h p (model c) msgs opts) as [resp|e] eqn:Hcall.
    + left. now exists resp, p.
    + right. exists e, [EvDispatch p (model c) false].
      split; [reflexivity|]. split; [right; now exists p|].
      right. now exists p.
  - right. exists e, []. rewrite app_nil_r. split; [reflexivity|].
    split; [now left|]. now left.
Qed.

Lemma explained_app (sv : Services) (msgs : list Message) (opts : CompletionOptions)
  (a : list Event) :
  forall h b,
  explained sv msgs opts h a -> explained sv msgs opts (h ++ a) b ->
  explained sv msgs opts h (a ++ b).
Proof.
  induction a as [|ev a IH]; intros h b Ha Hb.
  - now rewrite app_nil_r in Hb.
  - cbn [app explained] in *. destruct Ha as (Hev & Ha). split; [exact Hev|].
    apply IH; [exact Ha|]. now rewrite <- app_assoc.
Qed.

Lemma failure_reported_explained (sv : Services) (msgs : list Message)
  (opts : CompletionOptions) (r r1 : Router) (revs h : list Event) :
  failure_reported r revs r1 -> explained sv msgs opts h revs.
Proof. intros [(-> & _)|(a & b & -> & _)]; cbn; auto. Qed.

Lemma caught_from_cases (sv : Services) (msgs : list Message) (opts : CompletionOptions)
  (c : PathConfig) (e : Error) (h devs : list Event) :
  ((devs = [] /\ detectProvider (model c) = Err e)
   \/ exists p, devs = [EvDispatch p (model c) false]
                /\ detectProvider (model c) = Ok p
                /\ callProvider sv (h ++ [EvAttempt c]) p (model c) msgs opts = Err e) ->
  caught_from sv msgs opts (h ++ EvAttempt c :: devs) c e
  /\ explained sv msgs opts (h ++ [EvAttempt c]) devs.
Proof.
  intros [(-> & Hdet)|(p & -> & Hdet & Hcall)].
  - split; [|exact I]. left. now exists h.
  - split; [|cbn; auto]. right. now exists h, p.
Qed.

(** Every execution of the fallback loop, with what the services did:
    the run, the backing of every failure and every answered call, and,
    at the exit, either the answered call of the candidate attempted
    last, or the failure of the last candidate. *)
Lemma try_candidates_trace (sv : Services) (msgs : list Message)
  (opts : CompletionOptions) (cands : list PathConfig) :
  forall (le : option Error) (r : Router) (h : list Event),
  exists evs resp le' r',
    try_candidates sv msgs opts cands le (r, h) = (resp, le', (r', h ++ evs))
    /\ loop_run cands le r evs resp le' r'
    /\ explained sv msgs opts h evs
    /\ match resp with
       | Some x =>
           exists pre c p,
             evs = pre ++ [EvAttempt c; EvDispatch p (model c) true]
             /\ Forall (fun ev => ~ served ev) pre
             /\ detectProvider (model c) = Ok p
             /\ callProvider sv (h ++ pre ++ [EvAttempt c]) p (model c) msgs opts = Ok x
             /\ lastModel r' = Some (model c)
       | None =>
           (cands = [] /\ evs = [] /\ le' = le)
           \/ exists pre c e post front,
                le' = Some e
                /\ evs = pre ++ EvFailed c e :: post
                /\ failures post = [] /\ attempts post = []
                /\ caught_from sv msgs opts (h ++ pre) c e
                /\ cands = front ++ [c]
       end.
Proof.
  induction cands as [|c rest IH]; intros le r h.
  - exists [], None, le, r. rewrite app_nil_r. split; [reflexivity|].
    split; [constructor|]. split; [exact I|]. now left.
  - cbn [try_candidates].
    destruct (attempt_cases sv msgs opts c (h ++ [EvAttempt c]))
      as [(resp & p & Hdet & Hcall & ->)|(e & devs & -> & Hd & Hwhy)].
    + exists [EvAttempt c; EvDispatch p (model c) true], (Some resp), le,
        (set_lastModel (Some (model c)) r).
      rewrite <- app_assoc. split; [reflexivity|]. split; [constructor|].
      split.
      { cbn [explained]. split; [exact I|]. split; [|exact I].
        exists resp, h, c. now repeat split. }
      exists [], c, p. cbn [app]. repeat split; auto.
    + destruct (reportFailure_inv sv "provider_error" (message e) r
                  ((h ++ [EvAttempt c]) ++ devs ++ [EvFailed c e]))
        as (revs & r1 & Hrf & Hfr).
      specialize (Hfr eq_refl).
      rewrite <- (app_assoc (h ++ [EvAttempt c]) devs), Hrf.
      destruct (IH (Some e) r1
                  (((h ++ [EvAttempt c]) ++ devs ++ [EvFailed c e]) ++ revs))
        as (evs & resp & le' & r' & Heq & Hrun & Hexp & Hres).
      assert (Hh : ((h ++ [EvAttempt c]) ++ devs ++ [EvFailed c e]) ++ revs
                   = h ++ EvAttempt c :: devs ++ EvFailed c e :: revs)
        by (repeat rewrite <- app_assoc; reflexivity).
      destruct (caught_from_cases sv msgs opts c e h devs Hwhy) as (Hcaught & Hdevs).
      destruct (dispatch_failed_silent _ _ Hd) as (Hda & Hdf & _ & Hdq).
      destruct (failure_reported_silent _ _ _ Hfr) as (Hra & Hrf' & Hrq).
      exists (EvAttempt c :: devs ++ EvFailed c e :: revs ++ evs), resp, le', r'.
      split.
      { rewrite Heq. trace_assoc. reflexivity. }
      split; [econstructor; eauto|].
      split.
      { replace (EvAttempt c :: devs ++ EvFailed c e :: revs ++ evs)
          with ((EvAttempt c :: devs ++ EvFailed c e :: revs) ++ evs)
          by (trace_assoc; reflexivity).
        apply explained_app; [|now rewrite <- Hh].
        cbn [explained]. split; [exact I|].
        apply explained_app; [exact Hdevs|].
        cbn [explained]. split.
        - rewrite <- app_assoc. exact Hcaught.
        - now apply (failure_reported_explained sv msgs opts r r1). }
      destruct resp as [x|].
      * destruct Hres as (pre & c' & p & -> & Hpre & Hdet & Hcall & Hlm).
        exists (EvAttempt c :: devs ++ EvFailed c e :: revs ++ pre), c', p.
        split; [trace_assoc; reflexivity|].
        split.
        { constructor; [intros (p' & m & H); discriminate H|].
          apply Forall_app. split; [exact Hdq|].
          constructor; [intros (p' & m & H); discriminate H|].
          apply Forall_app. now split. }
        split; [exact Hdet|]. split; [|exact Hlm].
        rewrite <- Hcall. f_equal. trace_assoc. reflexivity.
      * right. destruct Hres as [(-> & -> & ->)|(pre & c' & e' & post & front & -> & -> & Hpf & Hpa & Hc' & ->)].
        -- exists (EvAttempt c :: devs), c, e, revs, [].
           rewrite app_nil_r. repeat split; auto.
        -- exists (EvAttempt c :: devs ++ EvFailed c e :: revs ++ pre), c', e', post,
             (c :: front).
           split; [reflexivity|].
           split; [trace_assoc; reflexivity|].
           split; [exact Hpf|]. split; [exact Hpa|]. split; [|reflexivity].
           replace (h ++ (EvAttempt c :: devs ++ EvFailed c e :: revs ++ pre))
             with ((((h ++ [EvAttempt c]) ++ devs ++ [EvFailed c e]) ++ revs) ++ pre)
             by (trace_assoc; reflexivity).
           exact Hc'.
Qed.

Lemma fallback_chain_is_candidatePaths (ps : list PathConfig) (sel : string) :
  candidatePaths ps sel = fallback_chain ps sel.
Proof.
  unfold fallback_chain. destruct (find (has_model sel) ps) as [p|] eqn:H.
  - now apply candidatePaths_matched.
  - now apply candidatePaths_unmatched.
Qed.

(** The model [selectModel] returns is the selected model. *)
Lemma selectModel_selected (sv : Services) (am : Ambient) (opts : CompletionOptions)
  (r : Router) (h : list Event) :
  paths r <> [] ->
  exists devs r1,
    selectModel sv opts (entered am r, h)
    = Ok (selected_model sv opts r h, (r1, h ++ devs))
    /\ (devs = [] \/ exists b, devs = [EvDecide (goal r) b])
    /\ outcomeReported r1 = false
    /\ successWhen r1 = successWhen r
    /\ lastModel r1 = lastModel r.
Proof.
  intros Hps. unfold selectModel, selected_model.
  change (goal (entered am r)) with (goal r).
  change (paths (entered am r)) with (paths r).
  destruct (falsy (forceModel opts)); cbn [negb].
  - destruct (decide sv h (goal r)) as [d|e].
    + eexists [EvDecide (goal r) true], _. split; [reflexivity|].
      split; [right; now exists true|]. repeat split; reflexivity.
    + destruct (paths r) as [|first rest]; [contradiction|].
      eexists [EvDecide (goal r) false], _. split; [reflexivity|].
      split; [right; now exists false|]. repeat split; reflexivity.
  - eexists [], _. rewrite app_nil_r. split; [reflexivity|].
    split; [now left|]. repeat split; reflexivity.
Qed.

(** The steps of a completion on a router with a path, with what the
    services did at each. *)
Lemma completion_steps (sv : Services) (am : Ambient) (msgs : list Message)
  (opts : CompletionOptions) (r : Router) (h : list Event) :
  paths r <> [] ->
  exists devs r1 evs resp le r2 aevs r3 res,
    completion sv am msgs opts (r, h) = (res, (r3, h ++ devs ++ evs ++ aevs))
    /\ (devs = [] \/ exists b, devs = [EvDecide (goal r) b])
    /\ (successWhen r1 = successWhen r /\ lastModel r1 = lastModel r)
    /\ try_candidates sv msgs opts
         (candidatePaths (paths r) (selected_model sv opts r h)) None (r1, h ++ devs)
       = (resp, le, (r2, (h ++ devs) ++ evs))
    /\ loop_run (candidatePaths (paths r) (selected_model sv opts r h)) None r1
         evs resp le r2
    /\ explained sv msgs opts (h ++ devs) evs
    /\ match resp with
       | Some x =>
           (exists pre c p,
               evs = pre ++ [EvAttempt c; EvDispatch p (model c) true]
               /\ Forall (fun ev => ~ served ev) pre
               /\ detectProvider (model c) = Ok p
               /\ callProvider sv ((h ++ devs) ++ pre ++ [EvAttempt c]) p (model c)
                    msgs opts = Ok x
               /\ lastModel r2 = Some (model c))
           /\ evaluated r2 aevs r3
           /\ (res = Ok x
               \/ exists pred e,
                    res = Err e /\ aevs = [] /\ r3 = r2
                    /\ successWhen r2 = Some pred /\ outcomeReported r2 = false
                    /\ pred ((h ++ devs) ++ evs) (primary_content x) = Err e)
       | None =>
           aevs = [] /\ r3 = r2
           /\ exists pre c e post front,
                res = Err e
                /\ le = Some e
                /\ evs = pre ++ EvFailed c e :: post
                /\ failures post = [] /\ attempts post = []
                /\ caught_from sv msgs opts ((h ++ devs) ++ pre) c e
                /\ candidatePaths (paths r) (selected_model sv opts r h) = front ++ [c]
       end.
Proof.
  intros Hps.
  destruct (selectModel_selected sv am opts r h Hps)
    as (devs & r1 & Hsel & Hdevs & _ & Hsw1 & Hlm1).
  destruct (try_candidates_trace sv msgs opts
              (candidatePaths (paths r) (selected_model sv opts r h)) None r1 (h ++ devs))
    as (evs & resp & le & r2 & Htry & Hrun & Hexp & Hres).
  assert (Hc : completion sv am msgs opts (r, h)
               = conclude sv am (resp, le, (r2, (h ++ devs) ++ evs))).
  { unfold completion. fold (entered am r). rewrite Hsel. cbv zeta.
    change (paths (entered am r)) with (paths r). now rewrite Htry. }
  destruct resp as [x|].
  - destruct (conclude_served sv am x le r2 ((h ++ devs) ++ evs))
      as (aevs & r3 & res & Hcon & Hev & Hout).
    exists devs, r1, evs, (Some x), le, r2, aevs, r3, res.
    split; [rewrite Hc, Hcon; now rewrite <- !app_assoc|].
    repeat split; auto.
  - destruct Hres as [(Hnil & _)|(pre & c & e & post & front & -> & -> & Hpf & Hpa & Hcaught & Hfront)].
    { now apply (candidatePaths_nonempty (selected_model sv opts r h)) in Hps. }
    exists devs, r1, (pre ++ EvFailed c e :: post), None, (Some e), r2, [], r2, (Err e).
    split; [rewrite Hc; cbn [conclude]; now rewrite app_nil_r, <- !app_assoc|].
    repeat split; auto.
    exists pre, c, e, post, front. repeat split; auto.
Qed.

(** *** The claims on the router *)

(** C1, the claim as stated fails: with two configured paths on the
    model "gpt-4o" and that model selected, the claimed chain keeps the
    second of them as a fallback; the code drops it. *)
Lemma C1_counterexample :
  spec_candidates
    [RouterSamples.path_gpt4o_search; RouterSamples.path_gpt4o_calculator;
     RouterSamples.path_claude] "gpt-4o"
  = [RouterSamples.path_gpt4o_search; RouterSamples.path_gpt4o_calculator;
     RouterSamples.path_claude]
  /\ candidatePaths
       [RouterSamples.path_gpt4o_search; RouterSamples.path_gpt4o_calculator;
        RouterSamples.path_claude] "gpt-4o"
     = [RouterSamples.path_gpt4o_search; RouterSamples.path_claude]
  /\ candidatePaths
       [RouterSamples.path_gpt4o_search; RouterSamples.path_gpt4o_calculator;
        RouterSamples.path_claude] "gpt-4o"
     <> spec_candidates
          [RouterSamples.path_gpt4o_search; RouterSamples.path_gpt4o_calculator;
           RouterSamples.path_claude] "gpt-4o".
Proof. split; [reflexivity|]. split; [reflexivity|]. vm_compute. discriminate. Qed.

(** C1, amended. The candidate list is the first configured path with
    the selected model, if there is one, followed by the configured
    paths whose model differs from the selected model, in configuration
    order: every path with the selected model is skipped, not only the
    one placed first. When the configured models are pairwise distinct
    this is the claimed list. Every completion on a router with a path
    attempts the candidates of this chain, built from the router's
    paths and the model it selects (the forced one, else the one the
    decision names, else the first path's), in this order: all of them
    when no provider call is answered, and otherwise up to the first
    candidate whose call is answered. With paths
    ['gpt-4o','claude-3-sonnet'] and a decision naming
    'claude-3-sonnet' the attempt order is [claude-3-sonnet, gpt-4o]. *)
Theorem C1_fallback_order :
  (forall ps sel,
      candidatePaths ps sel
      = match find (has_model sel) ps with
        | Some p => p :: filter (fun q => negb (has_model sel q)) ps
        | None => ps
        end)
  /\ (forall ps sel, NoDup (map model ps) ->
        candidatePaths ps sel = spec_candidates ps sel)
  /\ (forall sv msgs opts cands le r h,
        exists rest,
          cands = attempts (new_events h
                    (snd (snd (try_candidates sv msgs opts cands le (r, h))))) ++ rest
          /\ (fst (fst (try_candidates sv msgs opts cands le (r, h))) = None ->
              rest = []))
  /\ (forall sv opts r h m,
        forceModel opts = Some m -> m <> "" ->
        selectModel sv opts (r, h) = Ok (m, (r, h)))
  /\ (forall sv opts r h d,
        falsy (forceModel opts) = true -> decide sv h (goal r) = Ok d ->
        exists st', selectModel sv opts (r, h) = Ok (model_id d, st'))
  /\ (forall sv am msgs opts r h,
        paths r <> [] ->
        exists rest,
          fallback_chain (paths r) (selected_model sv opts r h)
          = attempts (new_events h (snd (snd (completion sv am msgs opts (r, h)))))
            ++ rest
          /\ ((Forall (fun ev => ~ served ev)
                 (new_events h (snd (snd (completion sv am msgs opts (r, h)))))
               /\ rest = [])
              \/ exists pre c p post,
                   new_events h (snd (snd (completion sv am msgs opts (r, h))))
                   = pre ++ EvAttempt c :: EvDispatch p (model c) true :: post
                   /\ Forall (fun ev => ~ served ev) pre
                   /\ attempts post = []))
  /\ candidatePaths [RouterSamples.path_gpt4o; RouterSamples.path_claude] "claude-3-sonnet"
     = [RouterSamples.path_claude; RouterSamples.path_gpt4o]
  /\ attempts (snd (snd (completion RouterSamples.services_all_down
                           RouterSamples.sample_ambient []
                           RouterSamples.no_completion_options
                           (RouterSamples.sample_router, []))))
     = [RouterSamples.path_claude; RouterSamples.path_gpt4o].
Proof.
  split.
  { intros ps sel. destruct (find (has_model sel) ps) as [p|] eqn:H.
    - now apply candidatePaths_matched.
    - now apply candidatePaths_unmatched. }
  split.
  { intros ps sel Hnd. unfold spec_candidates.
    destruct (find (has_model sel) ps) as [p|] eqn:H.
    - rewrite (candidatePaths_matched sel ps p H). f_equal.
      now apply filter_remove_first.
    - now apply candidatePaths_unmatched. }
  split.
  { intros sv msgs opts cands le r h.
    destruct (try_candidates_run sv msgs opts cands le r h)
      as (evs & resp & le' & r' & -> & Hrun).
    cbn [fst snd]. rewrite new_events_app. now apply (loop_attempts _ _ _ _ _ _ _ Hrun). }
  split.
  { intros sv opts r h m Hm Hne. unfold selectModel. rewrite Hm. cbn [falsy].
    destruct (String.eqb_spec m ""); [contradiction|reflexivity]. }
  split.
  { intros sv opts r h d Hf Hd. unfold selectModel. rewrite Hf, Hd. cbn [negb].
    now eexists. }
  split; [|split; reflexivity].
  intros sv am msgs opts r h Hps.
  destruct (completion_steps sv am msgs opts r h Hps)
    as (devs & r1 & evs & resp & le & r2 & aevs & r3 & res
        & -> & Hdevs & _ & _ & Hrun & _ & Hres).
  cbn [snd]. rewrite new_events_app.
  rewrite <- fallback_chain_is_candidatePaths.
  destruct (loop_attempts _ _ _ _ _ _ _ Hrun) as (rest & Hc & Hnone).
  assert (Hda : attempts devs = [] /\ Forall (fun ev => ~ served ev) devs).
  { destruct Hdevs as [->|(b & ->)]; split; repeat constructor.
    intros (p & m & H). discriminate H. }
  destruct Hda as (Hda & Hdq).
  exists rest. rewrite !attempts_app, Hda. cbn [app].
  destruct resp as [x|].
  - destruct Hres as ((pre & c & p & -> & Hpre & _) & Hev & _).
    assert (Haa : attempts aevs = [])
      by (destruct Hev as [(-> & _)|(a & b & -> & _)]; reflexivity).
    rewrite Haa, app_nil_r. split; [exact Hc|].
    right. exists (devs ++ pre), c, p, aevs.
    split; [trace_assoc; reflexivity|]. split; [|exact Haa].
    apply Forall_app. now split.
  - destruct Hres as (-> & _). cbn [attempts flat_map]. rewrite !app_nil_r.
    rewrite (Hnone eq_refl) in *. split; [exact Hc|].
    left. split; [|reflexivity].
    apply Forall_app. split; [exact Hdq|].
    exact (loop_unserved _ _ _ _ _ _ Hrun).
Qed.

(** C2. For every completion call on a router with a path in which no
    provider call returns a response, [completion] rejects, and it
    rejects with the error the services gave for the last candidate of
    the fallback chain: what [detectProvider] threw on its model, or
    what the provider returned to the call made for it. One failure was
    caught per candidate, in the order of the chain, each of them the
    error the services gave for that candidate; no response is
    returned. *)
Theorem C2_all_candidates_fail_raises_last_error (sv : Services) (am : Ambient)
  (msgs : list Message) (opts : CompletionOptions) (r : Router) (h : list Event) :
  paths r <> [] ->
  Forall (fun ev => ~ served ev)
    (new_events h (snd (snd (completion sv am msgs opts (r, h))))) ->
  exists e c pre post front,
    fst (completion sv am msgs opts (r, h)) = Err e
    /\ map fst (failures (new_events h (snd (snd (completion sv am msgs opts (r, h))))))
       = candidatePaths (paths r) (selected_model sv opts r h)
    /\ last_error (failures (new_events h (snd (snd (completion sv am msgs opts (r, h))))))
         None = Some e
    /\ new_events h (snd (snd (completion sv am msgs opts (r, h))))
       = pre ++ EvFailed c e :: post
    /\ failures post = [] /\ attempts post = []
    /\ candidatePaths (paths r) (selected_model sv opts r h) = front ++ [c]
    /\ caught_from sv msgs opts (h ++ pre) c e
    /\ explained sv msgs opts h
         (new_events h (snd (snd (completion sv am msgs opts (r, h))))).
Proof.
  intros Hps.
  destruct (completion_steps sv am msgs opts r h Hps)
    as (devs & r1 & evs & resp & le & r2 & aevs & r3 & res
        & -> & Hdevs & _ & _ & Hrun & Hexp & Hres).
  cbn [fst snd]. rewrite new_events_app. intros Hnone.
  assert (Hdq : failures devs = [] /\ explained sv msgs opts h devs).
  { destruct Hdevs as [->|(b & ->)]; split; cbn; auto. }
  destruct Hdq as (Hdf & Hdx).
  destruct resp as [x|].
  - exfalso. destruct Hres as ((pre & c & p & -> & _) & _).
    apply Forall_app in Hnone as (_ & Hnone). apply Forall_app in Hnone as (Hnone & _).
    apply Forall_app in Hnone as (_ & Hnone).
    apply Forall_cons_iff in Hnone as (_ & Hnone).
    apply Forall_cons_iff in Hnone as (Hnone & _).
    apply Hnone. now exists p, (model c).
  - destruct Hres as (-> & -> & pre & c & e & post & front & -> & -> & -> & Hpf & Hpa
                      & Hcaught & Hfront).
    destruct (loop_failures _ _ _ _ _ _ _ Hrun) as (Hle & Hall).
    specialize (Hall eq_refl).
    exists e, c, (devs ++ pre), post, front. rewrite app_nil_r.
    split; [reflexivity|].
    split; [rewrite failures_app, Hdf; exact Hall|].
    split; [rewrite failures_app, Hdf; now symmetry|].
    split; [now rewrite <- app_assoc|].
    split; [exact Hpf|]. split; [exact Hpa|]. split; [exact Hfront|].
    split; [now rewrite app_assoc|].
    now apply explained_app.
Qed.

Lemma C2_witness :
  fst (completion RouterSamples.services_all_down RouterSamples.sample_ambient []
         RouterSamples.no_completion_options (RouterSamples.sample_router, []))
  = Err (mkError "openai outage").
Proof.
  destruct (C2_all_candidates_fail_raises_last_error
              RouterSamples.services_all_down RouterSamples.sample_ambient []
              RouterSamples.no_completion_options RouterSamples.sample_router [])
    as (e & c & pre & post & front & Hres & _ & Hlast & _).
  - discriminate.
  - vm_compute. repeat constructor; intros (p & m & H); discriminate H.
  - vm_compute in Hlast. injection Hlast as <-. exact Hres.
Defined.

(** C3, the claim as stated fails: the outcome counts as reported only
    when the service accepted the submission. A completion of a router
    without [successWhen] is served and submits nothing; the outcome
    service being down, the two [report] calls that follow it make two
    submissions, not one, and none of them is accepted. *)
Lemma C3_counterexample :
  fst (completion RouterSamples.services_reports_refused RouterSamples.sample_ambient []
         RouterSamples.no_completion_options (RouterSamples.plain_router, []))
  = Ok RouterSamples.sample_response
  /\ submissions
       (snd (snd (completion RouterSamples.services_reports_refused
                    RouterSamples.sample_ambient []
                    RouterSamples.no_completion_options
                    (RouterSamples.plain_router, [])))) = []
  /\ submissions
       (snd (report RouterSamples.services_reports_refused RouterSamples.sample_ambient
               true None None
               (report RouterSamples.services_reports_refused
                  RouterSamples.sample_ambient true None None
                  (snd (completion RouterSamples.services_reports_refused
                          RouterSamples.sample_ambient []
                          RouterSamples.no_completion_options
                          (RouterSamples.plain_router, []))))))
     = [(RouterSamples.sample_success_args, false);
        (RouterSamples.sample_success_args, false)]
  /\ List.length
       (submissions
          (snd (report RouterSamples.services_reports_refused
                  RouterSamples.sample_ambient true None None
                  (report RouterSamples.services_reports_refused
                     RouterSamples.sample_ambient true None None
                     (snd (completion RouterSamples.services_reports_refused
                             RouterSamples.sample_ambient []
                             RouterSamples.no_completion_options
                             (RouterSamples.plain_router, []))))))) <> 1%nat.
Proof.
  split; [reflexivity|]. split; [reflexivity|]. split; [reflexivity|].
  vm_compute. discriminate.
Qed.

(** C3, amended. A [report] call after an outcome was reported for the
    current completion (the flag is set) submits nothing and changes
    nothing; so does a [report] call when no trace id is known, neither
    from a completion nor from the ambient context. Otherwise the call
    makes exactly one submission, with the trace id of the completion
    (else the ambient one), the goal, the verdict, the score and, for a
    failure, the reason; the outcome counts as reported exactly when
    the service accepted the submission. So when the submission of a
    first [report] call is accepted, a second call is a no-op and the
    two calls together made exactly one submission; when it is refused,
    the second call submits again. A completion always leaves a known
    trace id, and the flag it leaves tells whether a submission made
    during this completion was accepted, whatever was reported for
    earlier completions. With the sample services, a completion of a
    router without [successWhen] followed by [report(true)] and
    [report(false, 'too long')] makes the one submission of the first
    call. *)
Theorem C3_report_idempotent_per_completion :
  (forall sv am success reason score r h,
      outcomeReported r = true ->
      report sv am success reason score (r, h) = (r, h))
  /\ (forall sv am success reason score r h,
        falsy (lastTraceId r) = true -> falsy (getTraceId am) = true ->
        report sv am success reason score (r, h) = (r, h))
  /\ (forall sv am success reason score r h t,
        outcomeReported r = false ->
        or_string (lastTraceId r) (getTraceId am) = Some t -> t <> "" ->
        report sv am success reason score (r, h)
        = ((if accepted (reportOutcome sv h (report_args t r success reason score))
            then set_outcomeReported true r else r),
           h ++ [EvReportOutcome (report_args t r success reason score)
                   (accepted
                      (reportOutcome sv h (report_args t r success reason score)))]))
  /\ (forall sv am success reason score sv' am' success' reason' score' r h a,
        In (a, true)
          (submissions (new_events h (snd (report sv am success reason score (r, h))))) ->
        report sv' am' success' reason' score' (report sv am success reason score (r, h))
        = report sv am success reason score (r, h)
        /\ submissions
             (new_events h
                (snd (report sv' am' success' reason' score'
                        (report sv am success reason score (r, h)))))
           = [(a, true)])
  /\ (forall sv am success reason score sv' am' success' reason' score' r h a t,
        In (a, false)
          (submissions (new_events h (snd (report sv am success reason score (r, h))))) ->
        or_string (lastTraceId r) (getTraceId am') = Some t -> t <> "" ->
        exists b,
          submissions
            (new_events h
               (snd (report sv' am' success' reason' score'
                       (report sv am success reason score (r, h)))))
          = [(a, false); (report_args t r success' reason' score', b)])
  /\ (forall sv am msgs opts r h,
        falsy (lastTraceId (fst (snd (completion sv am msgs opts (r, h))))) = false)
  /\ (forall sv am msgs opts r h, paths r <> [] ->
        outcomeReported (fst (snd (completion sv am msgs opts (r, h)))) = true
        <-> Exists (fun s => snd s = true)
              (submissions (new_events h (snd (snd (completion sv am msgs opts (r, h)))))))
  /\ submissions
       (snd (report RouterSamples.services_all_up RouterSamples.sample_ambient
               false (Some "too long") None
               (report RouterSamples.services_all_up RouterSamples.sample_ambient
                  true None None
                  (snd (completion RouterSamples.services_all_up
                          RouterSamples.sample_ambient []
                          RouterSamples.no_completion_options
                          (RouterSamples.plain_router, []))))))
     = [(RouterSamples.sample_success_args, true)].
Proof.
  assert (Hsubmit : forall sv am success reason score r h t,
             outcomeReported r = false ->
             or_string (lastTraceId r) (getTraceId am) = Some t -> t <> "" ->
             report sv am success reason score (r, h)
             = ((if accepted (reportOutcome sv h (report_args t r success reason score))
                 then set_outcomeReported true r else r),
                h ++ [EvReportOutcome (report_args t r success reason score)
                        (accepted
                           (reportOutcome sv h
                              (report_args t r success reason score)))])).
  { intros sv am success reason score r h t Hrep Ht Hne. unfold report.
    rewrite Hrep, Ht. cbn [falsy].
    destruct (String.eqb_spec t ""); [contradiction|].
    fold (report_args t r success reason score).
    now destruct (reportOutcome sv h (report_args t r success reason score)). }
  split.
  { intros sv am success reason score r h Hrep. unfold report. now rewrite Hrep. }
  split.
  { intros sv am success reason score r h Hlast Ham. unfold report.
    destruct (outcomeReported r); [reflexivity|].
    unfold or_string. rewrite Hlast, Ham. reflexivity. }
  split; [exact Hsubmit|].
  split.
  { intros sv am success reason score sv' am' success' reason' score' r h a.
    destruct (report_inv sv am success reason score r h)
      as (aevs & r1 & -> & [[-> ->]|(a1 & b & -> & _ & _ & ->)]);
      cbn [snd]; rewrite new_events_app; cbn [submissions flat_map app].
    - intros [].
    - intros [H|[]]. injection H as -> ->.
      assert (Hnoop : report sv' am' success' reason' score'
                        (set_outcomeReported true r, h ++ [EvReportOutcome a true])
                      = (set_outcomeReported true r, h ++ [EvReportOutcome a true]))
        by reflexivity.
      rewrite Hnoop. split; [reflexivity|].
      cbn [snd]. rewrite new_events_app. reflexivity. }
  split.
  { intros sv am success reason score sv' am' success' reason' score' r h a t.
    destruct (report_inv sv am success reason score r h)
      as (aevs & r1 & -> & [[-> ->]|(a1 & b & -> & _ & Hrep & ->)]);
      cbn [snd]; rewrite new_events_app; cbn [submissions flat_map app].
    - intros [].
    - intros [H|[]] Ht Hne. injection H as -> ->.
      rewrite (Hsubmit sv' am' success' reason' score' r
                 (h ++ [EvReportOutcome a false]) t Hrep Ht Hne).
      cbn [snd]. rewrite <- app_assoc, new_events_app.
      cbn [submissions flat_map app]. now eexists. }
  split; cycle 1.
  { split; [|reflexivity].
    intros sv am msgs opts r h Hps.
    destruct (completion_is_run sv am msgs opts r h Hps) as (evs & res & r' & -> & Hrun).
    cbn [fst snd]. rewrite new_events_app. exact (completion_flag _ _ _ _ Hrun). }
  intros sv am msgs opts r h. unfold completion.
  set (r0 := set_lastTraceId _ (set_outcomeReported false r)).
  assert (H0 : falsy (lastTraceId r0) = false) by apply completion_trace_id_known.
  assert (Hloop : forall cands le r1 h1,
             lastTraceId (fst (snd (try_candidates sv msgs opts cands le (r1, h1))))
             = lastTraceId r1).
  { induction cands as [|c rest IH]; intros le r1 h1; [reflexivity|].
    cbn [try_candidates].
    destruct (attempt sv msgs opts c (h1 ++ [EvAttempt c])) as [[resp|e] h2];
      [reflexivity|].
    destruct (reportFailure_inv sv "provider_error" (message e) r1
                (h2 ++ [EvFailed c e])) as (revs & r2 & -> & Hfr).
    rewrite IH.
    destruct (Hfr eq_refl) as [(_ & -> & _)|(a & b & _ & _ & _ & ->)];
      [reflexivity|]. now destruct b. }
  assert (Hconclude : forall loop,
             lastTraceId (fst (snd (conclude sv am loop)))
             = lastTraceId (fst (snd loop))).
  { intros [[[resp|] le] [r1 h1]]; cbn [fst snd]; [|reflexivity].
    destruct (conclude_served sv am resp le r1 h1)
      as (aevs & r2 & res & Hcon & Hev & _).
    cbn [conclude] in Hcon |- *. rewrite Hcon. cbn [fst snd].
    destruct Hev as [(_ & ->)|(a & b & _ & _ & _ & _ & ->)]; [reflexivity|].
    now destruct b. }
  unfold selectModel.
  destruct (negb (falsy (forceModel opts))).
  { cbv zeta. now rewrite Hconclude, Hloop. }
  destruct (decide sv h (goal r0)) as [d|e].
  { cbv zeta. now rewrite Hconclude, Hloop. }
  destruct (paths r0) as [|first rest]; [exact H0|].
  cbv zeta. now rewrite Hconclude, Hloop.
Qed.

(** C10. In one completion call, once a failure report of a candidate
    was accepted, every submission of the call is a failure report: the
    evaluation by [successWhen] is never submitted, whatever candidate
    serves the request later, and the call ends with the flag set. *)
Theorem C10_reported_failure_suppresses_evaluation (sv : Services) (am : Ambient)
  (msgs : list Message) (opts : CompletionOptions) (r : Router) (h : list Event)
  (a : OutcomeArgs) :
  paths r <> [] ->
  failure_report a ->
  In (a, true)
     (submissions (new_events h (snd (snd (completion sv am msgs opts (r, h)))))) ->
  (forall a' b,
      In (a', b)
         (submissions (new_events h (snd (snd (completion sv am msgs opts (r, h)))))) ->
      failure_report a' /\ ~ evaluation_report a')
  /\ outcomeReported (fst (snd (completion sv am msgs opts (r, h)))) = true.
Proof.
  intros Hps Ha.
  assert (Hexcl : forall x, failure_report x -> ~ evaluation_report x).
  { intros x (_ & Hm) He. unfold evaluation_report in He. congruence. }
  destruct (completion_is_run sv am msgs opts r h Hps) as (evs & res & r' & -> & Hrun).
  cbn [fst snd]. rewrite new_events_app.
  destruct Hrun as [sel devs r1 evs le r2 Hs _ _ _ Hrep1 _ Hloop
                   |sel devs r1 evs resp le r2 aevs r3 Hs _ _ _ Hrep1 _ Hloop Hev
                   |sel devs r1 evs resp le r2 pred hist e Hs _ _ _ Hrep1 _ Hloop _ _ _].
  - rewrite submissions_app, Hs. cbn [app]. intros Hin.
    destruct (loop_reports _ _ _ _ _ _ _ Hloop) as (Hall & Hflag).
    split.
    + intros a' b Hin'. rewrite Forall_forall in Hall.
      specialize (Hall _ Hin'). cbn [fst] in Hall. auto.
    + apply Hflag. right. apply Exists_exists. now exists (a, true).
  - rewrite !submissions_app, Hs. cbn [app]. intros Hin.
    destruct (loop_reports _ _ _ _ _ _ _ Hloop) as (Hall & Hflag).
    rewrite Forall_forall in Hall.
    destruct Hev as [(-> & ->)|(a1 & b1 & -> & He & Hrep2 & _ & ->)].
    + cbn [submissions flat_map] in *. rewrite app_nil_r in *.
      split.
      * intros a' b Hin'. specialize (Hall _ Hin'). cbn [fst] in Hall. auto.
      * apply Hflag. right. apply Exists_exists. now exists (a, true).
    + exfalso. cbn [submissions flat_map app] in Hin.
      apply in_app_or in Hin as [Hin|[Hin|[]]].
      * assert (outcomeReported r2 = true)
          by (apply Hflag; right; apply Exists_exists; now exists (a, true)).
        congruence.
      * injection Hin as -> ->. exact (Hexcl _ Ha He).
  - rewrite submissions_app, Hs. cbn [app]. intros Hin.
    destruct (loop_reports _ _ _ _ _ _ _ Hloop) as (Hall & Hflag).
    split.
    + intros a' b Hin'. rewrite Forall_forall in Hall.
      specialize (Hall _ Hin'). cbn [fst] in Hall. auto.
    + apply Hflag. right. apply Exists_exists. now exists (a, true).
Qed.

Lemma C10_witness :
  fst (completion RouterSamples.services_openai_down RouterSamples.sample_ambient []
         RouterSamples.no_completion_options (RouterSamples.sample_router, []))
  = Ok RouterSamples.sample_response
  /\ submissions
       (snd (snd (completion RouterSamples.services_openai_down
                    RouterSamples.sample_ambient []
                    RouterSamples.no_completion_options
                    (RouterSamples.sample_router, []))))
     = [(RouterSamples.sample_failure_args, true)]
  /\ outcomeReported
       (fst (snd (completion RouterSamples.services_openai_down
                    RouterSamples.sample_ambient []
                    RouterSamples.no_completion_options
                    (RouterSamples.sample_router, [])))) = true.
Proof.
  split; [reflexivity|]. split; [reflexivity|].
  refine (proj2 (C10_reported_failure_suppresses_evaluation
                   RouterSamples.services_openai_down RouterSamples.sample_ambient []
                   RouterSamples.no_completion_options RouterSamples.sample_router []
                   RouterSamples.sample_failure_args _ _ _)).
  - discriminate.
  - split; reflexivity.
  - vm_compute. left. reflexivity.
Defined.

End RouterFacts.

(** * Further properties of the code *)

(** ** Cost calculator *)

Module CostMore.
Import JsString Js Cost Reference Reference2 JsStringFacts CostFacts.

Lemma normalizeModelName_case (p : Provider) (m m' : string) :
  toLowerCase m = toLowerCase m' -> normalizeModelName p m = normalizeModelName p m'.
Proof. intros H. unfold normalizeModelName. now rewrite H. Qed.

(** X1. Model identifiers are matched without regard to letter case:
    two identifiers with the same lower-case form get the same cost,
    for every provider and all token counts. *)
Theorem calculateCost_ignores_case (p : Provider) (m m' : string) (i o : Z) :
  toLowerCase m = toLowerCase m' ->
  calculateCost p m i o = calculateCost p m' i o.
Proof.
  intros H. unfold calculateCost.
  now rewrite (normalizeModelName_case p m m' H).
Qed.

Lemma calculateCost_ignores_case_witness :
  calculateCost openai "GPT-4o-Mini" 1000 500 = calculateCost openai "gpt-4O-mini" 1000 500.
Proof. apply calculateCost_ignores_case. reflexivity. Defined.

End CostMore.

(** ** Span builder, finish and transport *)

Module SpanMore.
Import JsString Js Cost Span Reference Reference2 JsStringFacts SpanFacts.

(** *** What [finish] posts *)

(** X3. [finish] posts at most one request. With [autoSend: false] or
    without a client it posts nothing. A request it posts carries exactly
    the completed span, and that is the span it returns when it resolves.
    When it rejects after posting, the span went to [fetch] and was
    refused (a non-2xx answer or a rejected call). *)
Theorem finish_posts_at_most_once (ss : StartedSpan) (options : FinishOptions)
  (endTime : Z) (endTimestamp : string) :
  (List.length (snd (finish ss options endTime endTimestamp)) <= 1)%nat
  /\ (autoSend options = Some false \/ ss_client ss = None ->
      snd (finish ss options endTime endTimestamp) = [])
  /\ (forall t, In t (snd (finish ss options endTime endTimestamp)) ->
        exists prov, ps_provider (ss_span ss) = Some prov
                     /\ t = [completeSpan ss prov options endTime endTimestamp])
  /\ (forall s t, fst (finish ss options endTime endTimestamp) = Ok s ->
        In t (snd (finish ss options endTime endTimestamp)) -> t = [s])
  /\ (forall e, fst (finish ss options endTime endTimestamp) = Err e ->
        snd (finish ss options endTime endTimestamp) <> [] ->
        exists cl t, ss_client ss = Some cl
                     /\ snd (finish ss options endTime endTimestamp) = [t]
                     /\ fst (sendSpans cl t) = Err e).
Proof.
  unfold finish; cbv zeta.
  destruct (ps_provider (ss_span ss)) as [prov|];
    [|cbn; repeat split; try lia; try contradiction; try discriminate; intros; contradiction].
  destruct (falsy (ps_model_id (ss_span ss)));
    [cbn; repeat split; try lia; try contradiction; try discriminate; intros; contradiction|].
  destruct (falsy (ps_operation (ss_span ss)));
    [cbn; repeat split; try lia; try contradiction; try discriminate; intros; contradiction|].
  destruct (falsy (ps_tenant_id (ss_span ss)));
    [cbn; repeat split; try lia; try contradiction; try discriminate; intros; contradiction|].
  set (sp := completeSpan ss prov options endTime endTimestamp).
  assert (Hquiet :
            (List.length (snd (@Ok Error KalibrSpan sp, @nil Transmission)) <= 1)%nat
            /\ (autoSend options = Some false \/ ss_client ss = None ->
                snd (@Ok Error KalibrSpan sp, @nil Transmission) = [])
            /\ (forall t, In t (snd (@Ok Error KalibrSpan sp, @nil Transmission)) ->
                  exists prov0, Some prov = Some prov0
                     /\ t = [completeSpan ss prov0 options endTime endTimestamp])
            /\ (forall s t, fst (@Ok Error KalibrSpan sp, @nil Transmission) = Ok s ->
                  In t (snd (@Ok Error KalibrSpan sp, @nil Transmission)) -> t = [s])
            /\ (forall e, fst (@Ok Error KalibrSpan sp, @nil Transmission) = Err e ->
                  snd (@Ok Error KalibrSpan sp, @nil Transmission) <> [] ->
                  exists cl t, ss_client ss = Some cl
                     /\ snd (@Ok Error KalibrSpan sp, @nil Transmission) = [t]
                     /\ fst (sendSpans cl t) = Err e)).
  { cbn. repeat split; try lia; try contradiction; try discriminate. }
  destruct (autoSend options) as [[]|] eqn:Hauto, (ss_client ss) as [cl|] eqn:Hcl;
    try exact Hquiet; clear Hquiet;
    unfold sendSpan, sendSpans;
    (destruct (fetchFn cl (cfg_endpoint cl) [sp]) as [[] st txt|e0] eqn:Hfetch;
     cbn [fst snd List.length In];
     (split; [lia|]);
     (split; [intros [H|H]; discriminate H|]);
     (split; [intros t [<-|[]]; now exists prov|]);
     (split; [intros s t H [<-|[]]; first [now injection H as -> | discriminate H]|]);
     intros e H _; first [discriminate H | injection H as <-];
     exists cl, [sp]; (split; [reflexivity|]); (split; [reflexivity|]);
     unfold sendSpans; now rewrite Hfetch).
Qed.

(** *** What [start] fills in *)

Lemma start_span_trace_id (b : SpanBuilder) (w : StartWorld) :
  ps_trace_id (start_span b w)
  = if falsy (ps_trace_id (b_span b)) then Some (w_id1 w) else ps_trace_id (b_span b).
Proof.
  unfold start_span; cbv zeta.
  repeat match goal with
  | |- context [if ?c then _ else _] => destruct c
  | |- context [match ?x with _ => _ end] => destruct x
  end; reflexivity.
Qed.

Lemma start_span_span_id (b : SpanBuilder) (w : StartWorld) :
  ps_span_id (start_span b w)
  = if falsy (ps_span_id (b_span b)) then Some (w_id2 w) else ps_span_id (b_span b).
Proof.
  unfold start_span; cbv zeta.
  destruct (falsy (ps_trace_id (b_span b)));
    repeat match goal with
    | |- context [if ?c then _ else _] => destruct c eqn:?
    | |- context [match ?x with _ => _ end] => destruct x eqn:?
    end; cbn in *; congruence.
Qed.

Lemma start_span_tenant_id (b : SpanBuilder) (w : StartWorld) :
  ps_tenant_id (start_span b w)
  = match start_client b w with
    | Some client =>
        if falsy (ps_tenant_id (b_span b)) then Some (getTenantId client)
        else ps_tenant_id (b_span b)
    | None => ps_tenant_id (b_span b)
    end.
Proof.
  unfold start_span; cbv zeta.
  destruct (falsy (ps_trace_id (b_span b))), (falsy (ps_span_id _));
    destruct (start_client b w); cbn;
    repeat match goal with
    | |- context [if ?c then _ else _] => destruct c eqn:?
    | |- context [match ?x with _ => _ end] => destruct x eqn:?
    end; cbn in *; congruence.
Qed.

Lemma falsy_Some_nonempty (t : string) : t <> "" -> falsy (Some t) = false.
Proof. intros H. cbn. destruct (String.eqb_spec t ""); [contradiction|reflexivity]. Qed.

(** X4. Values given through setters win over generated identifiers and
    over the client's defaults: [start] keeps a non-empty trace id, span
    id and tenant id; it takes the tenant id of the client only when none
    was set; and a second [start] on the same builder reuses the
    identifiers of the first, so both started spans carry the same
    [span_id]. *)
Theorem start_explicit_values_win (b : SpanBuilder) (w : StartWorld) :
  (forall t, ps_trace_id (b_span b) = Some t -> t <> "" ->
     ps_trace_id (start_span b w) = Some t)
  /\ (forall t, ps_span_id (b_span b) = Some t -> t <> "" ->
        ps_span_id (start_span b w) = Some t)
  /\ (forall t, ps_tenant_id (b_span b) = Some t -> t <> "" ->
        ps_tenant_id (start_span b w) = Some t)
  /\ (forall cl, falsy (ps_tenant_id (b_span b)) = true ->
        start_client b w = Some cl ->
        ps_tenant_id (start_span b w) = Some (getTenantId cl))
  /\ (w_id1 w <> "" -> w_id2 w <> "" ->
      falsy (ps_trace_id (start_span b w)) = false
      /\ falsy (ps_span_id (start_span b w)) = false
      /\ forall w',
           ps_trace_id (start_span (fst (start b w)) w') = ps_trace_id (start_span b w)
           /\ ps_span_id (start_span (fst (start b w)) w') = ps_span_id (start_span b w)).
Proof.
  split.
  { intros t Ht Hne. rewrite start_span_trace_id, Ht.
    now rewrite (falsy_Some_nonempty t Hne). }
  split.
  { intros t Ht Hne. rewrite start_span_span_id, Ht.
    now rewrite (falsy_Some_nonempty t Hne). }
  split.
  { intros t Ht Hne. rewrite start_span_tenant_id, Ht.
    rewrite (falsy_Some_nonempty t Hne). now destruct (start_client b w). }
  split.
  { intros cl Hf Hcl. now rewrite start_span_tenant_id, Hcl, Hf. }
  intros H1 H2.
  assert (Ht : falsy (ps_trace_id (start_span b w)) = false).
  { rewrite start_span_trace_id.
    destruct (falsy (ps_trace_id (b_span b))) eqn:E; [|exact E].
    now apply falsy_Some_nonempty. }
  assert (Hs : falsy (ps_span_id (start_span b w)) = false).
  { rewrite start_span_span_id.
    destruct (falsy (ps_span_id (b_span b))) eqn:E; [|exact E].
    now apply falsy_Some_nonempty. }
  split; [exact Ht|]. split; [exact Hs|].
  intros w'. rewrite start_span_trace_id, start_span_span_id.
  cbn [start fst b_span]. now rewrite Ht, Hs.
Qed.

(** *** Metadata merge *)

Lemma assign_key_get (m : Metadata) (k v k' : string) :
  metadata_get (assign_key m k v) k'
  = if String.eqb k k' then Some v else metadata_get m k'.
Proof.
  unfold metadata_get.
  induction m as [|[k0 v0] m IH]; cbn [assign_key own_property].
  - reflexivity.
  - destruct (String.eqb_spec k0 k) as [->|Hne]; cbn [own_property].
    + destruct (String.eqb k k'); reflexivity.
    + destruct (String.eqb_spec k0 k') as [->|Hne'].
      * destruct (String.eqb_spec k k'); [congruence|reflexivity].
      * exact IH.
Qed.

Lemma assign_key_keys (m : Metadata) (k v : string) :
  metadata_keys (assign_key m k v)
  = if existsb (String.eqb k) (metadata_keys m) then metadata_keys m
    else metadata_keys m ++ [k].
Proof.
  unfold metadata_keys.
  induction m as [|[k0 v0] m IH]; cbn [assign_key map fst existsb app].
  - reflexivity.
  - rewrite (String.eqb_sym k k0).
    destruct (String.eqb k0 k); cbn [map fst orb]; [reflexivity|].
    rewrite IH. now destruct (existsb (String.eqb k) (map fst m)).
Qed.

Lemma assign_key_NoDup (m : Metadata) (k v : string) :
  NoDup (metadata_keys m) -> NoDup (metadata_keys (assign_key m k v)).
Proof.
  intros H. rewrite assign_key_keys.
  destruct (existsb (String.eqb k) (metadata_keys m)) eqn:E; [exact H|].
  apply NoDup_app; [exact H|repeat constructor; intros []|].
  intros x Hin [Hx|[]]. subst x.
  assert (existsb (String.eqb k) (metadata_keys m) = true); [|congruence].
  apply existsb_exists. exists k. split; [exact Hin|apply String.eqb_refl].
Qed.

Lemma metadata_get_absent (m : Metadata) (k : string) :
  ~ In k (metadata_keys m) -> metadata_get m k = None.
Proof.
  unfold metadata_get, metadata_keys.
  induction m as [|[k0 v0] m IH]; cbn [own_property map fst In]; [reflexivity|].
  intros H. destruct (String.eqb_spec k0 k) as [->|_].
  - exfalso. apply H. now left.
  - apply IH. intros Hin. apply H. now right.
Qed.

Lemma spread_get (src : Metadata) :
  forall target k,
  NoDup (metadata_keys src) ->
  metadata_get (spread target src) k
  = match metadata_get src k with
    | Some v => Some v
    | None => metadata_get target k
    end.
Proof.
  unfold spread.
  induction src as [|[k0 v0] src IH]; intros target k Hnd; [reflexivity|].
  cbn [fold_left fst snd].
  cbn [metadata_keys map fst] in Hnd. apply NoDup_cons_iff in Hnd as [Hnotin Hnd].
  rewrite (IH _ k Hnd), assign_key_get.
  unfold metadata_get at 3. cbn [own_property].
  destruct (String.eqb_spec k0 k) as [->|Hne].
  - now rewrite (metadata_get_absent src k Hnotin).
  - reflexivity.
Qed.

Lemma spread_NoDup (src : Metadata) :
  forall target, NoDup (metadata_keys target) -> NoDup (metadata_keys (spread target src)).
Proof.
  unfold spread.
  induction src as [|[k0 v0] src IH]; intros target H; [exact H|].
  cbn [fold_left]. apply IH. now apply assign_key_NoDup.
Qed.

(** X5. The metadata of a finished span is the shallow union of the
    builder's and the finish-time metadata: absent only when both are
    absent; otherwise every key holds the finish-time value if there is
    one and the builder's value if not, no other key appears, and no key
    appears twice. *)
Theorem merge_metadata_union (a b : option Metadata) :
  NoDup (metadata_keys (metadata_or_empty a)) ->
  NoDup (metadata_keys (metadata_or_empty b)) ->
  match merge_metadata a b with
  | None => a = None /\ b = None
  | Some m =>
      (a <> None \/ b <> None)
      /\ NoDup (metadata_keys m)
      /\ forall k,
           metadata_get m k
           = match metadata_get (metadata_or_empty b) k with
             | Some v => Some v
             | None => metadata_get (metadata_or_empty a) k
             end
  end.
Proof.
  intros Ha Hb.
  assert (Hm : forall x y : Metadata,
             NoDup (metadata_keys x) -> NoDup (metadata_keys y) ->
             NoDup (metadata_keys (spread (spread [] x) y))
             /\ forall k,
                  metadata_get (spread (spread [] x) y) k
                  = match metadata_get y k with
                    | Some v => Some v
                    | None => metadata_get x k
                    end).
  { intros x y Hx Hy. split.
    - apply spread_NoDup, spread_NoDup. constructor.
    - intros k. rewrite (spread_get y _ k Hy), (spread_get x [] k Hx).
      destruct (metadata_get y k); [reflexivity|].
      now destruct (metadata_get x k). }
  destruct a as [x|], b as [y|]; cbn [merge_metadata metadata_or_empty] in *.
  - split; [left; discriminate|]. now apply Hm.
  - split; [left; discriminate|]. now apply Hm.
  - split; [right; discriminate|]. now apply Hm.
  - split; reflexivity.
Qed.

Lemma merge_metadata_union_witness :
  merge_metadata (Some [("a", "1"); ("c", "3")]) (Some [("b", "2"); ("c", "4")])
  = Some [("a", "1"); ("c", "4"); ("b", "2")]
  /\ match merge_metadata (Some [("a", "1"); ("c", "3")]) (Some [("b", "2"); ("c", "4")]) with
     | None => False
     | Some m => metadata_get m "c" = Some "4"
     end.
Proof.
  split; [reflexivity|].
  pose proof (merge_metadata_union (Some [("a", "1"); ("c", "3")])
                (Some [("b", "2"); ("c", "4")])) as H.
  cbn [metadata_or_empty metadata_keys map fst] in H.
  assert (Hn : forall x y : string, x <> y -> NoDup [x; y]).
  { intros x y Hxy. repeat constructor; [intros [E|[]]; now apply Hxy|intros []]. }
  specialize (H (Hn "a" "c" ltac:(discriminate)) (Hn "b" "c" ltac:(discriminate))).
  destruct (merge_metadata (Some [("a", "1"); ("c", "3")]) (Some [("b", "2"); ("c", "4")]))
    as [m|]; [|now destruct H].
  destruct H as (_ & _ & H). now rewrite (H "c").
Defined.

End SpanMore.

(** ** Router *)

Module RouterMore.
Import JsString Js Router Reference Reference2 JsStringFacts RouterFacts.

(** *** Frames: what the methods leave untouched *)

Lemma same_but_flag_refl (r : Router) : same_but_flag r r.
Proof. now left. Qed.

Lemma same_but_flag_fields (r r' : Router) :
  same_but_flag r r' ->
  goal r' = goal r /\ paths r' = paths r /\ successWhen r' = successWhen r
  /\ lastTraceId r' = lastTraceId r /\ lastModel r' = lastModel r
  /\ lastDecision r' = lastDecision r
  /\ (outcomeReported r = true -> outcomeReported r' = true).
Proof. intros [->| ->]; repeat split; auto. Qed.

Lemma failure_reported_frame (r r1 : Router) (revs : list Event) :
  failure_reported r revs r1 -> same_but_flag r r1.
Proof.
  intros [(_ & -> & _)|(a & b & _ & _ & _ & ->)]; [now left|].
  destruct b; [now right|now left].
Qed.

Lemma evaluated_frame (r r' : Router) (aevs : list Event) :
  evaluated r aevs r' -> same_but_flag r r'.
Proof.
  intros [(_ & ->)|(a & b & _ & _ & _ & _ & ->)]; [now left|].
  destruct b; [now right|now left].
Qed.

(** The loop leaves the configuration and the trace id alone; it sets
    [lastModel] to the model of the candidate that served the request,
    which is the last one attempted, and leaves it alone when none did. *)
Lemma loop_frame cands le r evs resp le' r' :
  loop_run cands le r evs resp le' r' ->
  goal r' = goal r /\ paths r' = paths r /\ successWhen r' = successWhen r
  /\ lastTraceId r' = lastTraceId r
  /\ (resp = None -> lastModel r' = lastModel r)
  /\ (resp <> None ->
      exists c, last (map Some (attempts evs)) None = Some c
                /\ lastModel r' = Some (model c)).
Proof.
  induction 1 as [le r|c rest le r p resp
                 |c rest le r e devs revs r1 evs resp le' r' Hd Hr _ IH].
  - repeat split; auto. intros H; contradiction.
  - repeat split; auto; [discriminate|]. intros _. now exists c.
  - destruct IH as (Hg & Hp & Hs & Ht & Hnone & Hsome).
    destruct (same_but_flag_fields _ _ (failure_reported_frame _ _ _ Hr))
      as (Hg1 & Hp1 & Hs1 & Ht1 & Hm1 & _).
    destruct (dispatch_failed_silent _ _ Hd) as (Ha & _).
    destruct (failure_reported_silent _ _ _ Hr) as (Ha' & _).
    repeat split; try congruence.
    + intros Hn. rewrite (Hnone Hn). exact Hm1.
    + intros Hn. destruct (Hsome Hn) as (c' & Hlast & Hm).
      exists c'. split; [|exact Hm].
      change (EvAttempt c :: devs ++ EvFailed c e :: revs ++ evs)
        with ([EvAttempt c] ++ devs ++ [EvFailed c e] ++ revs ++ evs).
      rewrite !attempts_app, Ha, Ha'. cbn [attempts flat_map app map].
      rewrite last_cons.
      destruct (attempts evs) as [|x xs]; [discriminate Hlast|].
      cbn [map] in *. now rewrite last_cons in *.
Qed.

(** The steps of [completion] on a router with a path. *)
Lemma completion_unfold (sv : Services) (am : Ambient) (msgs : list Message)
  (opts : CompletionOptions) (r : Router) (h : list Event) :
  paths r <> [] ->
  exists sel devs r1 evs resp le r2,
    selectModel sv opts (entered am r, h) = Ok (sel, (r1, h ++ devs))
    /\ (r1 = entered am r \/ exists d, r1 = set_lastDecision (Some d) (entered am r))
    /\ (devs = [] \/ exists b, devs = [EvDecide (goal r) b])
    /\ try_candidates sv msgs opts (candidatePaths (paths r) sel) None (r1, h ++ devs)
       = (resp, le, (r2, (h ++ devs) ++ evs))
    /\ loop_run (candidatePaths (paths r) sel) None r1 evs resp le r2
    /\ completion sv am msgs opts (r, h)
       = conclude sv am (resp, le, (r2, (h ++ devs) ++ evs)).
Proof.
  intros Hps.
  assert (Hsel : exists sel devs r1,
             selectModel sv opts (entered am r, h) = Ok (sel, (r1, h ++ devs))
             /\ (r1 = entered am r \/ exists d, r1 = set_lastDecision (Some d) (entered am r))
             /\ (devs = [] \/ exists b, devs = [EvDecide (goal r) b])).
  { unfold selectModel.
    destruct (negb (falsy (forceModel opts))).
    { eexists _, [], _. rewrite app_nil_r. split; [reflexivity|]. split; now left. }
    change (goal (entered am r)) with (goal r).
    destruct (decide sv h (goal r)) as [d|e].
    { eexists _, [EvDecide (goal r) true], _. split; [reflexivity|].
      split; [right; now exists d|right; now exists true]. }
    change (paths (entered am r)) with (paths r).
    destruct (paths r) as [|first rest]; [contradiction|].
    eexists _, [EvDecide (goal r) false], _. split; [reflexivity|].
    split; [now left|right; now exists false]. }
  destruct Hsel as (sel & devs & r1 & Hs & Hr1 & Hdevs).
  destruct (try_candidates_run sv msgs opts (candidatePaths (paths r) sel) None r1
              (h ++ devs)) as (evs & resp & le & r2 & Htry & Hrun).
  exists sel, devs, r1, evs, resp, le, r2.
  repeat split; auto.
  unfold completion. fold (entered am r). rewrite Hs. cbv zeta.
  change (paths (entered am r)) with (paths r). now rewrite Htry.
Qed.

Lemma conclude_inv (sv : Services) (am : Ambient) (resp : option ChatCompletion)
  (le : option Error) (r2 : Router) (h2 : list Event) :
  exists aevs r3,
    snd (conclude sv am (resp, le, (r2, h2))) = (r3, h2 ++ aevs)
    /\ same_but_flag r2 r3
    /\ match resp with
       | Some x =>
           evaluated r2 aevs r3
           /\ (fst (conclude sv am (resp, le, (r2, h2))) = Ok x
               \/ exists pred e,
                    fst (conclude sv am (resp, le, (r2, h2))) = Err e
                    /\ aevs = [] /\ r3 = r2
                    /\ successWhen r2 = Some pred /\ outcomeReported r2 = false
                    /\ pred h2 (primary_content x) = Err e)
       | None => fst (conclude sv am (resp, le, (r2, h2)))
                 = Err (match le with Some e => e | None => mkError "All paths failed" end)
                 /\ aevs = [] /\ r3 = r2
       end.
Proof.
  destruct resp as [x|].
  - destruct (conclude_served sv am x le r2 h2) as (aevs & r3 & res & Hcon & Hev & Hout).
    exists aevs, r3. cbn [conclude] in Hcon |- *. rewrite Hcon. cbn [fst snd].
    split; [reflexivity|].
    split; [now apply (evaluated_frame _ _ aevs)|]. split; [exact Hev|].
    destruct Hout as [->|(pred & e & -> & Hout)]; [now left|].
    right. now exists pred, e.
  - exists [], r2. cbn [conclude fst snd]. rewrite app_nil_r.
    repeat split. now left.
Qed.

Lemma evaluated_silent (r r' : Router) (aevs : list Event) :
  evaluated r aevs r' ->
  attempts aevs = [] /\ failures aevs = [] /\ Forall (fun ev => ~ served ev) aevs
  /\ forall cands, Forall (within_candidates cands) aevs.
Proof.
  intros [(-> & _)|(a & b & -> & _)]; repeat split; try constructor;
    try constructor; try exact I.
  intros (p & m & H). discriminate H.
Qed.

(** *** The candidates and the configured paths *)

Lemma candidatePaths_In (ps : list PathConfig) (sel : string) (c : PathConfig) :
  In c (candidatePaths ps sel) -> In c ps.
Proof.
  unfold candidatePaths. intros H. apply in_app_or in H as [H|H].
  - destruct (find (fun p => String.eqb (model p) sel) ps) as [p|] eqn:E; [|contradiction].
    destruct H as [<-|[]]. now apply find_some in E.
  - now apply filter_In in H.
Qed.

Lemma candidatePaths_NoDup (ps : list PathConfig) (sel : string) :
  NoDup ps -> NoDup (candidatePaths ps sel).
Proof.
  intros H. unfold candidatePaths.
  apply NoDup_app.
  - destruct (find _ ps); repeat constructor. intros [].
  - now apply NoDup_filter.
  - intros c Hc Hin.
    destruct (find (fun p => String.eqb (model p) sel) ps) as [p|] eqn:E; [|contradiction].
    destruct Hc as [<-|[]]. apply find_some in E as [_ E].
    apply filter_In in Hin as [_ Hin]. rewrite E in Hin. discriminate.
Qed.

Lemma within_candidates_mono (cands all : list PathConfig) (ev : Event) :
  (forall c, In c cands -> In c all) ->
  within_candidates cands ev -> within_candidates all ev.
Proof.
  intros Hsub. destruct ev as [g b|c|p m b|c e|a b]; cbn; auto.
  intros (c & Hin & Hm & Hp). exists c. auto.
Qed.

Lemma attempt_within (sv : Services) (msgs : list Message) (opts : CompletionOptions)
  (c : PathConfig) (h : list Event) :
  exists devs,
    snd (attempt sv msgs opts c h) = h ++ devs
    /\ Forall (within_candidates [c]) devs.
Proof.
  unfold attempt.
  destruct (detectProvider (model c)) as [p|e] eqn:Hp.
  - destruct (callProvider sv h p (model c) msgs opts) as [resp|e];
      eexists; (split; [reflexivity|]); constructor; try constructor;
      exists c; (split; [now left|]); now split.
  - exists []. rewrite app_nil_r. split; [reflexivity|constructor].
Qed.

(** Everything the loop does stays within its candidates. *)
Lemma try_candidates_within (sv : Services) (msgs : list Message)
  (opts : CompletionOptions) (all cands : list PathConfig) :
  (forall c, In c cands -> In c all) ->
  forall le r h,
    Forall (within_candidates all)
      (new_events h (snd (snd (try_candidates sv msgs opts cands le (r, h))))).
Proof.
  induction cands as [|c rest IH]; intros Hsub le r h.
  - cbn [try_candidates snd]. rewrite <- (app_nil_r h) at 2.
    rewrite new_events_app. constructor.
  - cbn [try_candidates].
    assert (Hc : In c all) by (apply Hsub; now left).
    destruct (attempt_within sv msgs opts c (h ++ [EvAttempt c])) as (devs & Hh & Hd).
    assert (Hd' : Forall (within_candidates all) devs).
    { eapply Forall_impl; [|exact Hd]. intros ev.
      apply within_candidates_mono. intros c' [<-|[]]. exact Hc. }
    destruct (attempt sv msgs opts c (h ++ [EvAttempt c])) as [[resp|e] h1];
      cbn [snd] in Hh; subst h1.
    + cbn [snd]. rewrite <- app_assoc, new_events_app.
      apply Forall_app. split; [|exact Hd']. constructor; [exact Hc|constructor].
    + destruct (reportFailure_inv sv "provider_error" (message e) r
                  (((h ++ [EvAttempt c]) ++ devs) ++ [EvFailed c e]))
        as (revs & r1 & -> & Hfr).
      specialize (IH (fun c' H => Hsub c' (or_intror H)) (Some e) r1
                    ((((h ++ [EvAttempt c]) ++ devs) ++ [EvFailed c e]) ++ revs)).
      destruct (try_candidates_run sv msgs opts rest (Some e) r1
                  ((((h ++ [EvAttempt c]) ++ devs) ++ [EvFailed c e]) ++ revs))
        as (evs & resp & le' & r' & Htry & _).
      rewrite Htry in IH |- *. cbn [snd] in IH |- *.
      rewrite new_events_app in IH.
      repeat rewrite <- app_assoc. rewrite new_events_app.
      apply Forall_app. split; [constructor; [exact Hc|constructor]|].
      apply Forall_app. split; [exact Hd'|].
      apply Forall_app. split; [constructor; [exact Hc|constructor]|].
      apply Forall_app. split; [|exact IH].
      destruct (Hfr eq_refl) as [(-> & _)|(a & b & -> & _)]; repeat constructor.
Qed.

(** *** Properties of a completion *)

(** X6. A completion only ever works on configured paths: every attempt,
    every caught failure and every provider call is for a path of the
    router's list, and the call goes to the provider detected from that
    path's model. A decided or forced model that no configured path has
    is never called. When the configured paths are pairwise different,
    none is attempted twice. *)
Theorem completion_stays_within_paths (sv : Services) (am : Ambient)
  (msgs : list Message) (opts : CompletionOptions) (r : Router) (h : list Event) :
  paths r <> [] ->
  Forall (within_candidates (paths r))
    (new_events h (snd (snd (completion sv am msgs opts (r, h)))))
  /\ (NoDup (paths r) ->
      NoDup (attempts (new_events h (snd (snd (completion sv am msgs opts (r, h))))))).
Proof.
  intros Hps.
  destruct (completion_unfold sv am msgs opts r h Hps)
    as (sel & devs & r1 & evs & resp & le & r2 & _ & _ & Hdevs & Htry & Hrun & ->).
  destruct (conclude_inv sv am resp le r2 ((h ++ devs) ++ evs))
    as (aevs & r3 & Hsnd & _ & Hres).
  rewrite Hsnd. cbn [snd]. rewrite <- !app_assoc, new_events_app.
  assert (Haevs : attempts aevs = [] /\ Forall (within_candidates (paths r)) aevs).
  { destruct resp as [x|].
    - destruct Hres as (Hev & _).
      destruct (evaluated_silent _ _ _ Hev) as (Ha & _ & _ & Hw). split; auto.
    - destruct Hres as (_ & -> & _). split; constructor. }
  destruct Haevs as (Ha & Hw).
  assert (Hdw : attempts devs = [] /\ Forall (within_candidates (paths r)) devs).
  { destruct Hdevs as [->|(b & ->)]; split; repeat constructor. }
  destruct Hdw as (Hda & Hdw).
  split.
  - apply Forall_app. split; [exact Hdw|]. apply Forall_app. split; [|exact Hw].
    pose proof (try_candidates_within sv msgs opts (paths r)
                  (candidatePaths (paths r) sel)
                  (fun c => candidatePaths_In (paths r) sel c) None r1 (h ++ devs)) as H.
    rewrite Htry in H. cbn [snd] in H. now rewrite new_events_app in H.
  - intros Hnd. rewrite !attempts_app, Hda, Ha, app_nil_r. cbn [app].
    destruct (loop_attempts _ _ _ _ _ _ _ Hrun) as (rest & Hc & _).
    pose proof (candidatePaths_NoDup (paths r) sel Hnd) as H.
    rewrite Hc in H. now apply NoDup_app_remove_r in H.
Qed.

Lemma completion_stays_within_paths_witness :
  Forall (within_candidates (paths RouterSamples.sample_router))
    (snd (snd (completion RouterSamples.services_openai_down
                 RouterSamples.sample_ambient []
                 (mkCompletionOptions (Some "gemini-1.5-pro") None None None None)
                 (RouterSamples.sample_router, [])))).
Proof.
  refine (proj1 (completion_stays_within_paths RouterSamples.services_openai_down
                   RouterSamples.sample_ambient []
                   (mkCompletionOptions (Some "gemini-1.5-pro") None None None None)
                   RouterSamples.sample_router [] _)).
  discriminate.
Defined.

Lemma last_Some_In {A : Type} (l : list A) (d : option A) (c : A) :
  last (map Some l) d = Some c -> In c l \/ d = Some c.
Proof.
  revert d. induction l as [|y l IH]; intros d H; [now right|].
  cbn [map] in H. rewrite last_cons in H.
  destruct (IH _ H) as [Hin|E]; [left; now right|].
  injection E as ->. left. now left.
Qed.

(** X7. A completion that resolves returns what the provider answered
    to the call made for the last candidate attempted; that call is the
    only answered one, its candidate is a configured path, and
    [getLastModel()] is then its model. A completion rejects in one of
    two ways. Either no provider call was answered: the error is then
    that of the last failure caught (never the stand-in "All paths
    failed") and [getLastModel()] keeps its earlier value. Or a
    provider did answer and the [successWhen] callback threw on the
    output: the completion rejects with what the callback threw, the
    response is lost, [getLastModel()] is already the model that
    answered, and no outcome counts as reported. *)
Theorem completion_outcome_and_lastModel (sv : Services) (am : Ambient)
  (msgs : list Message) (opts : CompletionOptions) (r : Router) (h : list Event) :
  paths r <> [] ->
  match fst (completion sv am msgs opts (r, h)) with
  | Ok x =>
      Exists served (new_events h (snd (snd (completion sv am msgs opts (r, h)))))
      /\ (exists c,
             last (map Some
                     (attempts
                        (new_events h (snd (snd (completion sv am msgs opts (r, h)))))))
                  None = Some c
             /\ In c (paths r)
             /\ getLastModel (fst (snd (completion sv am msgs opts (r, h))))
                = Some (model c))
      /\ served_last sv msgs opts h
           (new_events h (snd (snd (completion sv am msgs opts (r, h))))) x r
           (fst (snd (completion sv am msgs opts (r, h))))
  | Err e =>
      (Forall (fun ev => ~ served ev)
         (new_events h (snd (snd (completion sv am msgs opts (r, h)))))
       /\ last_error
            (failures (new_events h (snd (snd (completion sv am msgs opts (r, h))))))
            None = Some e
       /\ getLastModel (fst (snd (completion sv am msgs opts (r, h)))) = getLastModel r)
      \/ (exists x pred hist,
            successWhen r = Some pred
            /\ pred hist (primary_content x) = Err e
            /\ served_last sv msgs opts h
                 (new_events h (snd (snd (completion sv am msgs opts (r, h))))) x r
                 (fst (snd (completion sv am msgs opts (r, h))))
            /\ outcomeReported (fst (snd (completion sv am msgs opts (r, h)))) = false)
  end.
Proof.
  intros Hps.
  destruct (completion_steps sv am msgs opts r h Hps)
    as (devs & r1 & evs & resp & le & r2 & aevs & r3 & res
        & -> & Hdevs & (Hsw1 & Hlm1) & _ & Hrun & _ & Hres).
  cbn [fst snd]. rewrite new_events_app.
  destruct (loop_frame _ _ _ _ _ _ _ Hrun) as (_ & _ & Hsw2 & _ & Hnone & _).
  assert (Hd : attempts devs = [] /\ failures devs = []
               /\ Forall (fun ev => ~ served ev) devs).
  { destruct Hdevs as [->|(b & ->)]; repeat split; repeat constructor.
    intros (p & m & H). discriminate H. }
  destruct Hd as (Hda & Hdf & Hds).
  destruct resp as [x|].
  - destruct Hres as ((pre & c & p & -> & Hpre & Hdet & Hcall & Hlm) & Hev & Hout).
    destruct (evaluated_silent _ _ _ Hev) as (Ha & _ & _ & _).
    destruct (same_but_flag_fields _ _ (evaluated_frame _ _ _ Hev))
      as (_ & _ & _ & _ & Hm3 & _).
    assert (Hin : In c (paths r)).
    { destruct (loop_attempts _ _ _ _ _ _ _ Hrun) as (rest & Hc & _).
      apply (candidatePaths_In (paths r) (selected_model sv opts r h)).
      rewrite Hc. apply in_or_app. left.
      rewrite attempts_app. apply in_or_app. right. now left. }
    assert (Hserved : served_last sv msgs opts h
                        (devs ++ (pre ++ [EvAttempt c; EvDispatch p (model c) true])
                         ++ aevs) x r r3).
    { exists (devs ++ pre), c, p, aevs.
      split; [trace_assoc; reflexivity|].
      split; [apply Forall_app; now split|].
      split; [exact Ha|]. split; [exact Hin|]. split; [exact Hdet|].
      split; [|unfold getLastModel; congruence].
      rewrite <- Hcall. f_equal. trace_assoc. reflexivity. }
    destruct Hout as [->|(pred & e & -> & -> & -> & Hsw & Hrep & Hpred)].
    + split.
      { apply Exists_app. right. apply Exists_app. left.
        apply (loop_served _ _ _ _ _ _ _ Hrun). discriminate. }
      split; [|exact Hserved].
      exists c. split; [|split; [exact Hin|unfold getLastModel; congruence]].
      rewrite !attempts_app, Hda, Ha, app_nil_r. cbn [app attempts flat_map].
      rewrite map_app. cbn [map]. apply last_last.
    + right. exists x, pred, ((h ++ devs) ++ pre ++ [EvAttempt c; EvDispatch p (model c) true]).
      split; [congruence|]. split; [exact Hpred|]. split; [exact Hserved|exact Hrep].
  - destruct Hres as (-> & -> & pre & c & e & post & front & -> & -> & -> & _).
    left. destruct (loop_failures _ _ _ _ _ _ _ Hrun) as (Hle & _).
    rewrite app_nil_r, failures_app, Hdf. cbn [app].
    split; [|split; [now symmetry|unfold getLastModel; rewrite (Hnone eq_refl); exact Hlm1]].
    apply Forall_app. split; [exact Hds|].
    exact (loop_unserved _ _ _ _ _ _ Hrun).
Qed.

Lemma completion_outcome_and_lastModel_witness :
  getLastModel
    (fst (snd (completion RouterSamples.services_openai_down
                 RouterSamples.sample_ambient [] RouterSamples.no_completion_options
                 (RouterSamples.sample_router, []))))
  = Some "claude-3-sonnet".
Proof.
  pose proof (completion_outcome_and_lastModel RouterSamples.services_openai_down
                RouterSamples.sample_ambient [] RouterSamples.no_completion_options
                RouterSamples.sample_router [] ltac:(discriminate)) as H.
  change (fst (completion RouterSamples.services_openai_down
                 RouterSamples.sample_ambient [] RouterSamples.no_completion_options
                 (RouterSamples.sample_router, [])))
    with (@Ok Error ChatCompletion RouterSamples.sample_response) in H.
  cbv beta iota in H.
  destruct H as (_ & (c & Hlast & _ & Hm) & _).
  vm_compute in Hlast. injection Hlast as <-. exact Hm.
Defined.

(** The second way of rejecting does happen: with a callback that
    throws, the sample completion rejects with the callback's error
    although OpenAI answered, and [getLastModel()] names the model that
    answered. *)
Example completion_rejects_when_callback_throws :
  fst (completion RouterSamples.services_all_up RouterSamples.sample_ambient []
         RouterSamples.no_completion_options (RouterSamples.router_with_parser, []))
  = Err (mkError "Unexpected token A in JSON at position 0")
  /\ getLastModel
       (fst (snd (completion RouterSamples.services_all_up
                    RouterSamples.sample_ambient []
                    RouterSamples.no_completion_options
                    (RouterSamples.router_with_parser, []))))
     = Some "gpt-4o".
Proof. split; reflexivity. Qed.

Lemma rejected_then_one (l : list (OutcomeArgs * bool)) (x : OutcomeArgs * bool) :
  Forall (fun s => snd s = false) l -> accepted_is_last (l ++ [x]).
Proof.
  induction 1 as [|y l Hy _ IH]; intros l1 a l2 E.
  - destruct l1 as [|z l1]; cbn in E.
    + now injection E.
    + injection E as _ E. now destruct l1.
  - destruct l1 as [|z l1]; cbn in E.
    + injection E as -> _. discriminate Hy.
    + injection E as _ E. exact (IH _ _ _ E).
Qed.

(** In the loop no submission follows an accepted one, and none is made
    at all when the outcome was already reported at its entry. *)
Lemma loop_accepted_last cands le r evs resp le' r' :
  loop_run cands le r evs resp le' r' ->
  accepted_is_last (submissions evs)
  /\ (outcomeReported r = true -> submissions evs = []).
Proof.
  induction 1 as [le r|c rest le r p resp
                 |c rest le r e devs revs r1 evs resp le' r' Hd Hr _ IH].
  - split; [|reflexivity]. intros [|] ? ? E; discriminate E.
  - split; [|reflexivity]. intros [|] ? ? E; discriminate E.
  - destruct IH as (Hlast & Hnone).
    destruct (dispatch_failed_silent _ _ Hd) as (_ & _ & Hs & _).
    change (EvAttempt c :: devs ++ EvFailed c e :: revs ++ evs)
      with ([EvAttempt c] ++ devs ++ [EvFailed c e] ++ revs ++ evs).
    rewrite !submissions_app, Hs. cbn [submissions flat_map app].
    destruct Hr as [(-> & -> & _)|(a & b & -> & _ & Hrep & ->)];
      cbn [submissions flat_map app].
    + split; [exact Hlast|exact Hnone].
    + split; [|congruence].
      destruct b.
      * rewrite (Hnone eq_refl). intros l1 a' l2 E.
        destruct l1 as [|z l1]; cbn in E; [now injection E|].
        injection E as _ E. now destruct l1.
      * intros l1 a' l2 E. destruct l1 as [|z l1]; cbn in E; [discriminate E|].
        injection E as _ E. exact (Hlast _ _ _ E).
Qed.

(** X8. During one completion the service accepts at most one outcome, and
    once it accepted one the router submits nothing more: every
    submission before the last was rejected. *)
Theorem completion_accepts_at_most_once (sv : Services) (am : Ambient)
  (msgs : list Message) (opts : CompletionOptions) (r : Router) (h : list Event) :
  paths r <> [] ->
  accepted_is_last
    (submissions (new_events h (snd (snd (completion sv am msgs opts (r, h)))))).
Proof.
  intros Hps.
  destruct (completion_is_run sv am msgs opts r h Hps) as (evs & res & r' & -> & Hrun).
  cbn [snd]. rewrite new_events_app.
  destruct Hrun as [sel devs r1 evs le r2 Hs _ _ _ Hrep1 _ Hloop
                   |sel devs r1 evs resp le r2 aevs r3 Hs _ _ _ Hrep1 _ Hloop Hev
                   |sel devs r1 evs resp le r2 pred hist e Hs _ _ _ Hrep1 _ Hloop _ _ _].
  - rewrite submissions_app, Hs. cbn [app].
    exact (proj1 (loop_accepted_last _ _ _ _ _ _ _ Hloop)).
  - rewrite !submissions_app, Hs. cbn [app].
    destruct Hev as [(-> & _)|(a & b & -> & _ & Hrep2 & _)].
    + cbn [submissions flat_map]. rewrite app_nil_r.
      exact (proj1 (loop_accepted_last _ _ _ _ _ _ _ Hloop)).
    + cbn [submissions flat_map app]. apply rejected_then_one.
      apply Forall_forall. intros [a' b'] Hin. cbn [snd].
      destruct b'; [|reflexivity].
      assert (outcomeReported r2 = true); [|congruence].
      apply (proj2 (loop_reports _ _ _ _ _ _ _ Hloop)). right.
      apply Exists_exists. now exists (a', true).
  - rewrite submissions_app, Hs. cbn [app].
    exact (proj1 (loop_accepted_last _ _ _ _ _ _ _ Hloop)).
Qed.

Lemma completion_accepts_at_most_once_witness :
  accepted_is_last
    (submissions (snd (snd (completion RouterSamples.services_openai_down
                              RouterSamples.sample_ambient []
                              RouterSamples.no_completion_options
                              (RouterSamples.sample_router, []))))).
Proof.
  refine (completion_accepts_at_most_once RouterSamples.services_openai_down
            RouterSamples.sample_ambient [] RouterSamples.no_completion_options
            RouterSamples.sample_router [] _).
  discriminate.
Defined.

(** *** The state a completion leaves, and the calls that follow *)

Lemma completion_frame (sv : Services) (am : Ambient) (msgs : list Message)
  (opts : CompletionOptions) (r : Router) (h : list Event) :
  paths r <> [] ->
  goal (fst (snd (completion sv am msgs opts (r, h)))) = goal r
  /\ paths (fst (snd (completion sv am msgs opts (r, h)))) = paths r
  /\ lastTraceId (fst (snd (completion sv am msgs opts (r, h))))
     = lastTraceId (entered am r).
Proof.
  intros Hps.
  destruct (completion_unfold sv am msgs opts r h Hps)
    as (sel & devs & r1 & evs & resp & le & r2 & _ & Hr1 & _ & _ & Hrun & ->).
  destruct (conclude_inv sv am resp le r2 ((h ++ devs) ++ evs))
    as (aevs & r3 & -> & Hframe & _).
  cbn [fst snd].
  destruct (same_but_flag_fields _ _ Hframe) as (Hg & Hp & _ & Ht & _).
  destruct (loop_frame _ _ _ _ _ _ _ Hrun) as (Hg2 & Hp2 & _ & Ht2 & _).
  rewrite Hg, Hp, Ht, Hg2, Hp2, Ht2.
  destruct Hr1 as [->|(d & ->)]; repeat split.
Qed.

(** X9. A [report] call after a completion submits the trace id that the
    completion stored (the ambient id at that time, else the fresh one),
    whatever the ambient trace id is when [report] is called, together
    with the router's goal and the given success flag and score; it
    sends the reason only for a failure, and no metadata. *)
Theorem report_uses_completion_trace_id (sv : Services) (am : Ambient)
  (msgs : list Message) (opts : CompletionOptions) (r : Router) (h : list Event)
  (sv' : Services) (am' : Ambient) (success : bool) (reason : option string)
  (score : option number) (a : OutcomeArgs) (b : bool) :
  paths r <> [] ->
  In (a, b)
     (submissions
        (new_events (snd (snd (completion sv am msgs opts (r, h))))
           (snd (report sv' am' success reason score
                   (snd (completion sv am msgs opts (r, h))))))) ->
  Some (oa_traceId a) = lastTraceId (entered am r)
  /\ oa_goal a = goal r
  /\ oa_success a = success
  /\ oa_score a = score
  /\ oa_failureReason a = (if success then None else reason)
  /\ oa_metadata a = None.
Proof.
  intros Hps.
  destruct (completion_frame sv am msgs opts r h Hps) as (Hg & _ & Ht).
  destruct (snd (completion sv am msgs opts (r, h))) as [r3 h3].
  cbn [fst snd] in *.
  assert (Hknown : falsy (lastTraceId r3) = false)
    by (rewrite Ht; apply completion_trace_id_known).
  rewrite <- Ht, <- Hg. clear Ht Hg.
  unfold report.
  destruct (outcomeReported r3).
  { cbn [snd]. rewrite <- (app_nil_r h3) at 2. rewrite new_events_app. intros []. }
  unfold or_string. rewrite Hknown, Hknown.
  match goal with
  | |- context [reportOutcome sv' h3 ?x] => destruct (reportOutcome sv' h3 x)
  end; cbn [snd]; rewrite new_events_app; cbn [submissions flat_map app];
    (intros [H|[]]; injection H as <- _; cbn;
     destruct (lastTraceId r3); [repeat split|discriminate Hknown]).
Qed.

Lemma report_uses_completion_trace_id_witness :
  Some "lxyz123-abc456def789"
  = lastTraceId (entered RouterSamples.sample_ambient
                   (mkRouter "summarize"
                      [RouterSamples.path_gpt4o; RouterSamples.path_claude] None
                      (Num 0.1) true None None None false))
  /\ "summarize" = "summarize"
  /\ false = false
  /\ @None number = None
  /\ Some "too short" = Some "too short"
  /\ @None (list (string * string)) = None.
Proof.
  refine (report_uses_completion_trace_id
            RouterSamples.services_openai_down RouterSamples.sample_ambient []
            (mkCompletionOptions (Some "claude-3-sonnet") None None None None)
            (mkRouter "summarize"
               [RouterSamples.path_gpt4o; RouterSamples.path_claude] None
               (Num 0.1) true None None None false)
            []
            RouterSamples.services_openai_down
            (mkAmbient (Some "another-trace") "m0" "m1")
            false (Some "too short") None
            (mkOutcomeArgs "lxyz123-abc456def789" "summarize" false None
               (Some "too short") None)
            true _ _).
  - discriminate.
  - vm_compute. left. reflexivity.
Defined.

Lemma report_frame (sv : Services) (am : Ambient) (success : bool)
  (reason : option string) (score : option number) (st : State) :
  same_but_flag (fst st) (fst (report sv am success reason score st)).
Proof.
  destruct st as [r h].
  destruct (report_inv sv am success reason score r h)
    as (aevs & r' & -> & [[_ ->]|(a & b & _ & _ & _ & ->)]); cbn [fst];
    [now left|]. destruct b; [now right|now left].
Qed.

Lemma do_calls_paths (cs : list RouterCall) :
  forall st, paths (fst st) <> [] ->
  paths (fst (do_calls cs st)) = paths (fst st) ++ added_paths cs
  /\ goal (fst (do_calls cs st)) = goal (fst st).
Proof.
  induction cs as [|c cs IH]; intros st Hne.
  - cbn. now rewrite app_nil_r.
  - cbn [do_calls fold_left]. fold (do_calls cs (do_call c st)).
    assert (Hstep : paths (fst (do_call c st))
                    = paths (fst st) ++ added_paths [c]
                    /\ goal (fst (do_call c st)) = goal (fst st)).
    { destruct c as [m t p|sv am msgs opts|sv am success reason score]; cbn [do_call].
      - split; reflexivity.
      - destruct st as [r h]. cbn [fst] in *.
        destruct (completion_frame sv am msgs opts r h Hne) as (Hg & Hp & _).
        cbn [added_paths flat_map]. rewrite app_nil_r. now split.
      - destruct (same_but_flag_fields _ _ (report_frame sv am success reason score st))
          as (Hg & Hp & _).
        cbn [added_paths flat_map]. rewrite app_nil_r. now split. }
    destruct Hstep as (Hp & Hg).
    destruct (IH (do_call c st)) as (Hp' & Hg').
    { rewrite Hp. intros E. apply app_eq_nil in E as [E _]. contradiction. }
    rewrite Hp', Hg', Hp, Hg. split; [|reflexivity].
    rewrite <- app_assoc. f_equal.
    change (c :: cs) with ([c] ++ cs). unfold added_paths. now rewrite flat_map_app.
Qed.

(** X10. The path list of a router is append-only. A router made by the
    constructor starts with the normalised paths of its configuration,
    at least one; after any sequence of [addPath], [completion] and
    [report] calls it holds those paths followed by the added ones, in
    order, and its goal is unchanged. So a router never runs out of
    paths. *)
Theorem router_paths_append_only (cfg : RouterConfig) (r0 : Router)
  (cs : list RouterCall) (h0 : list Event) :
  new_Router cfg = Ok r0 ->
  paths r0 = map normalizePath (match c_paths cfg with Some l => l | None => [] end)
  /\ paths r0 <> []
  /\ paths (fst (do_calls cs (r0, h0))) = paths r0 ++ added_paths cs
  /\ paths (fst (do_calls cs (r0, h0))) <> []
  /\ goal (fst (do_calls cs (r0, h0))) = c_goal cfg.
Proof.
  unfold new_Router.
  destruct (map normalizePath (match c_paths cfg with Some l => l | None => [] end))
    as [|p ps] eqn:E; [discriminate|].
  intros [= <-]. cbn [paths].
  destruct (do_calls_paths cs (mkRouter (c_goal cfg) (p :: ps) (c_successWhen cfg)
              (match c_explorationRate cfg with Some x => x | None => Num 0.1 end)
              (match c_autoRegister cfg with Some b => b | None => true end)
              None None None false, h0)) as (Hp & Hg); [discriminate|].
  cbn [fst paths goal] in Hp, Hg.
  repeat split; try discriminate; auto.
  rewrite Hp. discriminate.
Qed.

Lemma router_paths_append_only_witness :
  paths (fst (do_calls
                [DoCompletion RouterSamples.services_openai_down
                   RouterSamples.sample_ambient [] RouterSamples.no_completion_options;
                 DoAddPath "gemini-1.5-pro" None None;
                 DoReport RouterSamples.services_openai_down
                   RouterSamples.sample_ambient true None None]
                (RouterSamples.sample_router, [])))
  = [RouterSamples.path_gpt4o; RouterSamples.path_claude;
     mkPath "gemini-1.5-pro" None None].
Proof.
  exact (proj1 (proj2 (proj2 (router_paths_append_only
           (mkRouterConfig "summarize"
              (Some [SpecModel "gpt-4o"; SpecModel "claude-3-sonnet"])
              (Some (fun _ _ => Ok true)) None None)
           RouterSamples.sample_router _ [] eq_refl)))).
Defined.

End RouterMore.

(** ** Trace capsule: last hop, serialised form, the module's capsule *)

Module CapsuleMore.
Import JsString Js Capsule CapsuleStore Reference Reference2 CapsuleFacts.

Lemma nth_error_snoc {A : Type} (l : list A) (x : A) :
  nth_error (l ++ [x]) (List.length (l ++ [x]) - 1) = Some x.
Proof.
  rewrite length_app. cbn [List.length].
  replace (List.length l + 1 - 1)%nat with (List.length l) by lia.
  rewrite nth_error_app2 by lia. now rewrite Nat.sub_diag.
Qed.

(** X11. Right after [appendHop(hop)], [getLastHop()] is that hop, carrying
    the number of hops held before the call as its index; this holds
    whether or not an older hop was evicted, and for a capsule of any
    size. *)
Theorem getLastHop_after_appendHop (hop : CapsuleHop) (nowIso : string)
  (c : TraceCapsule) :
  getLastHop (appendHop hop nowIso c)
  = Some (with_hop_index hop (Z.of_nat (getHopCount c))).
Proof.
  unfold getLastHop, appendHop, getHopCount. cbn [lastNHops].
  set (x := with_hop_index hop (Z.of_nat (List.length (lastNHops c)))).
  destruct (MAX_HOPS <? List.length (lastNHops c ++ [x]))%nat eqn:E.
  - apply Nat.ltb_lt in E. rewrite length_app in E. cbn [List.length] in E.
    unfold MAX_HOPS in E.
    destruct (lastNHops c) as [|y l]; [cbn in E; lia|].
    cbn [app tl].
    replace (0 <? List.length (l ++ [x]))%nat with true.
    + apply nth_error_snoc.
    + symmetry. apply Nat.ltb_lt. rewrite length_app. cbn. lia.
  - replace (0 <? List.length (lastNHops c ++ [x]))%nat with true.
    + apply nth_error_snoc.
    + symmetry. apply Nat.ltb_lt. rewrite length_app. cbn. lia.
Qed.

Lemma or_else_truthy (s d : string) : s <> "" -> or_else (Some s) d = s.
Proof.
  intros H. unfold or_else. destruct (String.eqb_spec s ""); [contradiction|reflexivity].
Qed.


Lemma if_has_keys_default (m : list (string * string)) :
  match if_has_keys m with Some x => x | None => [] end = m.
Proof. now destruct m. Qed.

Lemma if_truthy_idem (x : option string) : if_truthy (if_truthy x) = if_truthy x.
Proof. unfold if_truthy. destruct (falsy x) eqn:E; [reflexivity|now rewrite E]. Qed.

(** X12. [fromDict(toDict())] of a capsule with a non-empty trace id keeps
    the trace id, the hops, both aggregates (unrounded) and the
    metadata, keeps tenant and workflow id unless they are empty
    strings, and does not keep the context of the runtime: the copy has
    a new context token, no parent context token and the time of the
    call as its timestamp. *)
Theorem fromDict_toDict (c : TraceCapsule) (w : CapsuleWorld) :
  traceId c <> "" ->
  traceId (fromDict (toDict c) w) = traceId c
  /\ lastNHops (fromDict (toDict c) w) = lastNHops c
  /\ aggregateCostUsd (fromDict (toDict c) w) = aggregateCostUsd c
  /\ aggregateLatencyMs (fromDict (toDict c) w) = aggregateLatencyMs c
  /\ metadata (fromDict (toDict c) w) = metadata c
  /\ tenantId (fromDict (toDict c) w) = if_truthy (tenantId c)
  /\ workflowId (fromDict (toDict c) w) = if_truthy (workflowId c)
  /\ timestamp (fromDict (toDict c) w) = cw_iso w
  /\ contextToken (fromDict (toDict c) w) = cw_newTraceId2 w
  /\ parentContextToken (fromDict (toDict c) w) = None.
Proof.
  intros Ht. unfold fromDict, toDict, new_TraceCapsule.
  cbn -[or_else if_truthy if_has_keys].
  rewrite (or_else_truthy _ _ Ht), if_has_keys_default.
  repeat split.
Qed.

Lemma fromDict_toDict_witness :
  traceId (fromDict (toDict CapsuleSamples.fresh_capsule)
             (mkCapsuleWorld "2026-01-02T00:00:00.000Z" "m1-a" "m2-b"))
  = "lxyz123-abc456"
  /\ contextToken (fromDict (toDict CapsuleSamples.fresh_capsule)
                     (mkCapsuleWorld "2026-01-02T00:00:00.000Z" "m1-a" "m2-b"))
     = "m2-b".
Proof.
  pose proof (fromDict_toDict CapsuleSamples.fresh_capsule
                (mkCapsuleWorld "2026-01-02T00:00:00.000Z" "m1-a" "m2-b")
                ltac:(discriminate)) as H.
  split; [exact (proj1 H)|].
  exact (proj1 (proj2 (proj2 (proj2 (proj2 (proj2 (proj2 (proj2 (proj2 H))))))))).
Defined.



(** *** The module's capsule *)

Lemma getOrCreate_global (parse : string -> result Error TraceCapsuleData)
  (w : StoreWorld) (g : Global) :
  (exists c, g = Some c /\ getOrCreateCapsule parse None w g = (c, Some c))
  \/ (g = None
      /\ exists c, getOrCreateCapsule parse None w g = (c, Some c)
                   /\ lastNHops c = [] /\ metadata c = []
                   /\ aggregateCostUsd c = Num 0 /\ aggregateLatencyMs c = Num 0).
Proof.
  unfold getOrCreateCapsule. cbn [falsy negb].
  destruct g as [c|]; [left; now exists c|right].
  split; [reflexivity|]. eexists. split; [reflexivity|]. repeat split.
Qed.

Lemma appendHop_within (hop : CapsuleHop) (t : string) (c : TraceCapsule) :
  (getHopCount c <= MAX_HOPS)%nat -> (getHopCount (appendHop hop t c) <= MAX_HOPS)%nat.
Proof.
  unfold getHopCount. intros H. rewrite (appendHop_hops hop t c H), lastn_length.
  apply Nat.le_min_r.
Qed.

Lemma store_call_within (parse : string -> result Error TraceCapsuleData)
  (c : StoreCall) (g : Global) :
  is_deserialize c = false -> within_window g -> within_window (store_call parse c g).
Proof.
  intros Hc Hg.
  destruct c as [h w| |k v w|json w| |hop t w]; cbn [store_call]; try discriminate Hc.
  - unfold getOrCreateCapsule. destruct (negb (falsy h)); [exact Hg|].
    destruct g; [exact Hg|]. cbn. unfold MAX_HOPS. lia.
  - exact I.
  - unfold setCapsuleMetadata.
    destruct (getOrCreate_global parse w g)
      as [(c & -> & ->)|(-> & c & -> & Hh & _)]; cbn [within_window];
      unfold getHopCount, with_metadata; cbn [lastNHops].
    + exact Hg.
    + rewrite Hh. cbn. unfold MAX_HOPS. lia.
  - unfold flushCapsule. destruct g as [c|]; [|exact I].
    destruct (List.length (lastNHops c) =? 0)%nat; [exact Hg|exact I].
  - unfold addHopToCapsule.
    destruct (getOrCreate_global parse w g)
      as [(c & -> & ->)|(-> & c & -> & Hh & _)]; cbn [within_window];
      apply appendHop_within; [exact Hg|].
    unfold getHopCount. rewrite Hh. cbn. unfold MAX_HOPS. lia.
Qed.

(** X14. Whatever sequence of [getOrCreateCapsule], [clearCapsule],
    [setCapsuleMetadata], [flushCapsule] and [addHopToCapsule] calls is
    made, the module's capsule never holds more than [MAX_HOPS] hops,
    provided it did not before (it is [null] when the module loads).
    [deserializeCapsule] is left out: it installs what the payload
    lists. *)
Theorem store_keeps_window (parse : string -> result Error TraceCapsuleData)
  (cs : list StoreCall) (g : Global) :
  forallb (fun c => negb (is_deserialize c)) cs = true ->
  within_window g ->
  within_window (store_calls parse cs g).
Proof.
  revert g. induction cs as [|c cs IH]; intros g Hcs Hg; [exact Hg|].
  cbn [forallb] in Hcs. apply andb_prop in Hcs as [Hc Hcs].
  cbn [store_calls fold_left]. apply IH; [exact Hcs|].
  apply store_call_within; [|exact Hg]. now destruct (is_deserialize c).
Qed.

Lemma store_keeps_window_witness :
  within_window
    (store_calls (fun _ => Err (mkError "Unexpected token"))
       (map (fun h => CallAddHop (fst h) (snd h)
                        (mkStoreWorld None "lxyz123-abc456"
                           CapsuleSamples.sample_capsule_world))
            (CapsuleSamples.sample_appends 7)
        ++ [CallSetMetadata "team" "search"
              (mkStoreWorld None "lxyz123-abc456" CapsuleSamples.sample_capsule_world)])
       None).
Proof.
  apply store_keeps_window; [reflexivity|exact I].
Defined.

Lemma set_key_get (m : list (string * string)) (k v k' : string) :
  k <> k' -> metadata_get (set_key m k v) k' = metadata_get m k'.
Proof.
  intros Hne. unfold set_key.
  destruct (String.eqb k "__proto__" && negb (mem_string k (map fst m)));
    [reflexivity|].
  rewrite SpanMore.assign_key_get.
  destruct (String.eqb_spec k k'); [contradiction|reflexivity].
Qed.

(** X15. [setCapsuleMetadata(key, value)] always leaves a capsule in place
    (creating one if needed), with the hops and aggregates it had; it
    changes no other metadata key; and afterwards the capsule's own
    [key] holds [value], unless [key] is ['__proto__'] and the metadata
    object has no own key of that name, in which case the value is
    dropped and the metadata is unchanged. *)
Theorem setCapsuleMetadata_sets_key (parse : string -> result Error TraceCapsuleData)
  (key value : string) (w : StoreWorld) (g : Global) :
  exists c,
    setCapsuleMetadata parse key value w g = Some c
    /\ lastNHops c = lastNHops (fst (getOrCreateCapsule parse None w g))
    /\ aggregateCostUsd c = aggregateCostUsd (fst (getOrCreateCapsule parse None w g))
    /\ (forall k, key <> k ->
        metadata_get (metadata c) k
        = metadata_get (metadata (fst (getOrCreateCapsule parse None w g))) k)
    /\ (key <> "__proto__" -> metadata_get (metadata c) key = Some value)
    /\ (key = "__proto__" ->
        match metadata_get (metadata (fst (getOrCreateCapsule parse None w g))) key with
        | Some _ => metadata_get (metadata c) key = Some value
        | None => metadata c = metadata (fst (getOrCreateCapsule parse None w g))
        end).
Proof.
  unfold setCapsuleMetadata.
  destruct (getOrCreateCapsule parse None w g) as [c0 g0]. cbn [fst].
  eexists. split; [reflexivity|]. unfold with_metadata. cbn [lastNHops aggregateCostUsd metadata].
  split; [reflexivity|]. split; [reflexivity|]. split; [|split].
  - intros k Hk. now apply set_key_get.
  - intros Hk. unfold set_key.
    destruct (String.eqb_spec key "__proto__"); [contradiction|]. cbn [andb].
    rewrite SpanMore.assign_key_get. now rewrite String.eqb_refl.
  - intros ->. unfold set_key. cbn [String.eqb Ascii.eqb Bool.eqb andb].
    destruct (metadata_get (metadata c0) "__proto__") eqn:E.
    + replace (mem_string "__proto__" (map fst (metadata c0))) with true.
      * cbn [negb]. rewrite SpanMore.assign_key_get. reflexivity.
      * symmetry. unfold mem_string. apply existsb_exists.
        exists "__proto__". split; [|reflexivity].
        clear -E. unfold metadata_get in E.
        induction (metadata c0) as [|[k0 v0] m IH]; [discriminate E|].
        cbn [own_property] in E. cbn [map fst In].
        destruct (String.eqb_spec k0 "__proto__"); [now left|right; now apply IH].
    + replace (mem_string "__proto__" (map fst (metadata c0))) with false;
        [reflexivity|].
      symmetry. unfold mem_string. apply not_true_is_false. intros H.
      apply existsb_exists in H as (x & Hin & Hx).
      apply String.eqb_eq in Hx. subst x.
      clear -E Hin. unfold metadata_get in E.
      induction (metadata c0) as [|[k0 v0] m IH]; [destruct Hin|].
      cbn [own_property] in E. cbn [map fst In] in Hin.
      destruct (String.eqb_spec k0 "__proto__") as [|Hne]; [discriminate E|].
      destruct Hin as [Hin|Hin]; [contradiction|]. now apply IH.
Qed.

End CapsuleMore.

(** ** Function wrappers *)

Module WrapperMore.
Import JsString Js Cost Span Wrappers Reference Reference2 SpanFacts.

Lemma start_span_required (b : SpanBuilder) (w : StartWorld) :
  ps_provider (start_span b w) = ps_provider (b_span b)
  /\ ps_model_id (start_span b w) = ps_model_id (b_span b)
  /\ ps_operation (start_span b w) = ps_operation (b_span b).
Proof.
  unfold start_span; cbv zeta.
  repeat match goal with
  | |- context [if ?c then _ else _] => destruct c
  | |- context [match ?x with _ => _ end] => destruct x
  end; repeat split; reflexivity.
Qed.

Lemma when_truthy_cases (x : option string) (set : string -> SpanBuilder -> SpanBuilder)
  (b : SpanBuilder) :
  when_truthy x set b = b \/ exists v, when_truthy x set b = set v b.
Proof.
  unfold when_truthy. destruct x as [v|]; [|now left].
  destruct (String.eqb v ""); [now left|right; now exists v].
Qed.

(** What [withSpan] has set on its builder when it calls [start()]. *)
Lemma withSpan_builder_span (o : WithSpanOptions) :
  ps_provider (b_span (withSpan_builder o)) = Some (wo_provider o)
  /\ ps_model_id (b_span (withSpan_builder o)) = Some (wo_modelId o)
  /\ ps_operation (b_span (withSpan_builder o)) = Some (wo_operation o)
  /\ ps_tenant_id (b_span (withSpan_builder o)) = None
  /\ ps_span_id (b_span (withSpan_builder o)) = None
  /\ b_client (withSpan_builder o) = None.
Proof.
  unfold withSpan_builder; cbv zeta.
  destruct (wo_metadata o);
    destruct (when_truthy_cases (wo_endpoint o) setEndpoint
                (when_truthy (wo_workflowId o) setWorkflowId
                   (when_truthy (wo_parentSpanId o) (fun v => setParentSpanId (Some v))
                      (when_truthy (wo_traceId o) setTraceId
                         (setOperation (wo_operation o)
                            (setModel (wo_modelId o)
                               (setProvider (wo_provider o) new_SpanBuilder)))))))
      as [->|(v4 & ->)];
    destruct (when_truthy_cases (wo_workflowId o) setWorkflowId
                (when_truthy (wo_parentSpanId o) (fun v => setParentSpanId (Some v))
                   (when_truthy (wo_traceId o) setTraceId
                      (setOperation (wo_operation o)
                         (setModel (wo_modelId o)
                            (setProvider (wo_provider o) new_SpanBuilder))))))
      as [->|(v3 & ->)];
    destruct (when_truthy_cases (wo_parentSpanId o) (fun v => setParentSpanId (Some v))
                (when_truthy (wo_traceId o) setTraceId
                   (setOperation (wo_operation o)
                      (setModel (wo_modelId o)
                         (setProvider (wo_provider o) new_SpanBuilder)))))
      as [->|(v2 & ->)];
    destruct (when_truthy_cases (wo_traceId o) setTraceId
                (setOperation (wo_operation o)
                   (setModel (wo_modelId o)
                      (setProvider (wo_provider o) new_SpanBuilder))))
      as [->|(v1 & ->)];
    repeat split; reflexivity.
Qed.


Lemma started_client (b : SpanBuilder) (w : StartWorld) :
  b_client b = None -> ss_client (snd (start b w)) = w_singleton w.
Proof. intros H. cbn. unfold start_client. now rewrite H. Qed.

Lemma started_tenant (b : SpanBuilder) (w : StartWorld) :
  b_client b = None -> ps_tenant_id (b_span b) = None ->
  ps_tenant_id (ss_span (snd (start b w))) = option_map getTenantId (w_singleton w).
Proof.
  intros Hc Ht. cbn [start snd ss_span].
  rewrite SpanMore.start_span_tenant_id. unfold start_client. rewrite Hc, Ht.
  now destruct (w_singleton w).
Qed.

(** [error] is [finish] with other options, so it fails validation on
    the same spans. *)
Lemma error_invalid (ss : StartedSpan) (e : ErrorValue) (options : FinishOptions)
  (endTime : Z) (endTimestamp : string) (f : RequiredField) :
  first_missing (ss_span ss) = Some f ->
  error ss e options endTime endTimestamp = (Err (validation_error f), []).
Proof. intros H. unfold error. now apply finish_invalid. Qed.






(** What a resolved or posting [withSpan] call looked like. *)
Lemma withSpan_started (o : WithSpanOptions) (w : StartWorld) :
  ps_provider (ss_span (snd (start (withSpan_builder o) w))) = Some (wo_provider o)
  /\ ps_model_id (ss_span (snd (start (withSpan_builder o) w))) = Some (wo_modelId o)
  /\ ps_operation (ss_span (snd (start (withSpan_builder o) w))) = Some (wo_operation o)
  /\ ps_tenant_id (ss_span (snd (start (withSpan_builder o) w)))
     = option_map getTenantId (w_singleton w)
  /\ ss_client (snd (start (withSpan_builder o) w)) = w_singleton w.
Proof.
  destruct (withSpan_builder_span o) as (Hp & Hmo & Ho & Ht & _ & Hc).
  split; [|split; [|split; [|split]]].
  - cbn [start snd ss_span].
    now rewrite (proj1 (start_span_required _ w)).
  - cbn [start snd ss_span].
    now rewrite (proj1 (proj2 (start_span_required _ w))).
  - cbn [start snd ss_span].
    now rewrite (proj2 (proj2 (start_span_required _ w))).
  - now apply started_tenant.
  - now apply started_client.
Qed.

(** How [finish] settles on a span with a client and no [autoSend]
    option: one POST of the completed span, or none when validation
    fails. *)
Lemma finish_with_client (ss : StartedSpan) (options : FinishOptions)
  (endTime : Z) (endTimestamp : string) (cl : Kalibr) :
  ss_client ss = Some cl -> autoSend options = None ->
  (exists f, first_missing (ss_span ss) = Some f
             /\ finish ss options endTime endTimestamp = (Err (validation_error f), []))
  \/ (exists prov,
        ps_provider (ss_span ss) = Some prov
        /\ first_missing (ss_span ss) = None
        /\ ((fst (sendSpans cl [completeSpan ss prov options endTime endTimestamp]) = Ok tt
             /\ finish ss options endTime endTimestamp
                = (Ok (completeSpan ss prov options endTime endTimestamp),
                   [[completeSpan ss prov options endTime endTimestamp]]))
            \/ (exists e,
                  fst (sendSpans cl [completeSpan ss prov options endTime endTimestamp])
                  = Err e
                  /\ finish ss options endTime endTimestamp
                     = (Err e, [[completeSpan ss prov options endTime endTimestamp]])))).
Proof.
  intros Hcl Hauto.
  destruct (first_missing (ss_span ss)) as [f|] eqn:Hf.
  - left. exists f. split; [reflexivity|]. now apply finish_invalid.
  - right. revert Hf.
    unfold first_missing, required_fields, finish; cbn [find unset]; cbv zeta.
    destruct (ps_provider (ss_span ss)) as [prov|]; [|discriminate].
    destruct (falsy (ps_model_id (ss_span ss))); [discriminate|].
    destruct (falsy (ps_operation (ss_span ss))); [discriminate|].
    destruct (falsy (ps_tenant_id (ss_span ss))); [discriminate|].
    intros _. exists prov. split; [reflexivity|]. split; [reflexivity|].
    rewrite Hauto, Hcl. unfold sendSpan, sendSpans.
    destruct (fetchFn cl (cfg_endpoint cl) _) as [[] st text|e]; cbn [fst].
    + left. split; reflexivity.
    + right. eexists. split; reflexivity.
    + right. eexists. split; reflexivity.
Qed.

(** X18. [withSpan] resolves only when the telemetry went through: the
    wrapped function resolved with that result, a singleton client with
    a non-empty tenant id was there, and exactly one request was made,
    which the backend accepted; it carried one span, with status
    success, the token counts the function returned, and the provider,
    model and operation of the options. *)
Theorem withSpan_resolves {T : Type} (present : Error -> Thrown)
  (o : WithSpanOptions) (fn : result Thrown (T * Z * Z)) (w : StartWorld)
  (t1 t2 : Clock) (v : T) :
  fst (withSpan present o fn w t1 t2) = Ok v ->
  exists i out cl s,
    fn = Ok (v, i, out)
    /\ w_singleton w = Some cl
    /\ cfg_tenantId cl <> ""
    /\ snd (withSpan present o fn w t1 t2) = [[s]]
    /\ fst (sendSpans cl [s]) = Ok tt
    /\ status s = st_success
    /\ input_tokens s = i /\ output_tokens s = out
    /\ provider s = wo_provider o
    /\ model_id s = wo_modelId o
    /\ operation s = wo_operation o
    /\ tenant_id s = cfg_tenantId cl.
Proof.
  destruct (withSpan_started o w) as (Hp & Hmo & Hop & Hten & Hcl).
  unfold withSpan; cbv zeta.
  set (ss := snd (start (withSpan_builder o) w)) in *.
  destruct fn as [[[v' i] out]|e].
  2:{ destruct (error ss (th_value e) zero_options (c_now t2) (c_iso t2)) as [[?|?] ?];
      discriminate. }
  destruct (w_singleton w) as [cl|] eqn:Hw.
  2:{ assert (exists f, first_missing (ss_span ss) = Some f) as (f & Hf').
      { unfold first_missing, required_fields. cbn [find unset].
        rewrite Hp, Hmo, Hop, Hten. cbn [option_map falsy].
        destruct (String.eqb (wo_modelId o) ""); [now eexists|].
        destruct (String.eqb (wo_operation o) ""); now eexists. }
      rewrite (finish_invalid _ _ _ _ _ Hf'), (error_invalid _ _ _ _ _ _ Hf').
      discriminate. }
  destruct (finish_with_client ss (success_options i out) (c_now t1) (c_iso t1) cl
              Hcl eq_refl)
    as [(f & Hf & ->)|(prov & Hprov & Hf & [(Hsend & ->)|(e & Hsend & ->)])].
  - rewrite (error_invalid _ _ _ _ _ _ Hf). discriminate.
  - cbn [fst snd]. intros [= ->].
    exists i, out, cl, (completeSpan ss prov (success_options i out) (c_now t1) (c_iso t1)).
    assert (prov = wo_provider o) by congruence. subst prov.
    revert Hf. unfold first_missing, required_fields. cbn [find unset].
    rewrite Hp, Hmo, Hop, Hten. cbn [option_map].
    destruct (falsy (Some (wo_modelId o))); [discriminate|].
    destruct (falsy (Some (wo_operation o))); [discriminate|].
    destruct (falsy (Some (getTenantId cl))) eqn:Eten; [discriminate|]. intros _.
    split; [reflexivity|]. split; [reflexivity|].
    split.
    { intros E. unfold getTenantId in Eten. rewrite E in Eten. discriminate Eten. }
    split; [reflexivity|]. split; [exact Hsend|].
    unfold completeSpan; cbv zeta.
    cbn [status input_tokens output_tokens provider model_id operation tenant_id
         success_options opt_status inputTokens outputTokens nullish].
    rewrite Hmo, Hop, Hten. cbn [option_map nullish]. repeat split.
  - destruct (error ss (th_value (present e)) zero_options (c_now t2) (c_iso t2))
      as [[?|?] ?]; discriminate.
Qed.

Lemma withSpan_resolves_witness :
  exists i out cl s,
    WrapperSamples.sample_fn = Ok ("the answer", i, out)
    /\ w_singleton (WrapperSamples.world_with (Some WrapperSamples.accepting_client))
       = Some cl
    /\ cfg_tenantId cl <> ""
    /\ snd (withSpan WrapperSamples.sample_present
              WrapperSamples.sample_withSpan_options WrapperSamples.sample_fn
              (WrapperSamples.world_with (Some WrapperSamples.accepting_client))
              WrapperSamples.clock1 WrapperSamples.clock2) = [[s]]
    /\ fst (sendSpans cl [s]) = Ok tt
    /\ status s = st_success
    /\ input_tokens s = i /\ output_tokens s = out
    /\ provider s = wo_provider WrapperSamples.sample_withSpan_options
    /\ model_id s = wo_modelId WrapperSamples.sample_withSpan_options
    /\ operation s = wo_operation WrapperSamples.sample_withSpan_options
    /\ tenant_id s = cfg_tenantId cl.
Proof.
  apply (withSpan_resolves WrapperSamples.sample_present
           WrapperSamples.sample_withSpan_options WrapperSamples.sample_fn
           (WrapperSamples.world_with (Some WrapperSamples.accepting_client))
           WrapperSamples.clock1 WrapperSamples.clock2 "the answer").
  vm_compute. reflexivity.
Defined.

Lemma error_is_finish (ss : StartedSpan) (err : ErrorValue) (options : FinishOptions)
  (endTime : Z) (endTimestamp : string) :
  error ss err options endTime endTimestamp
  = finish ss (error_finish_options err options) endTime endTimestamp.
Proof. reflexivity. Qed.

(** The requests of one [finish]: none, or one carrying the completed span. *)
Lemma finish_sent_shape (ss : StartedSpan) (options : FinishOptions)
  (endTime : Z) (endTimestamp : string) :
  snd (finish ss options endTime endTimestamp) = []
  \/ exists prov,
       ps_provider (ss_span ss) = Some prov
       /\ snd (finish ss options endTime endTimestamp)
          = [[completeSpan ss prov options endTime endTimestamp]].
Proof.
  unfold finish; cbv zeta.
  destruct (ps_provider (ss_span ss)) as [prov|]; [|now left].
  destruct (falsy (ps_model_id (ss_span ss))); [now left|].
  destruct (falsy (ps_operation (ss_span ss))); [now left|].
  destruct (falsy (ps_tenant_id (ss_span ss))); [now left|].
  destruct (autoSend options) as [[]|], (ss_client ss) as [cl|];
    try (now left); right; exists prov; (split; [reflexivity|]);
    unfold sendSpan, sendSpans;
    destruct (fetchFn cl (cfg_endpoint cl) _) as [[] ? ?|?]; reflexivity.
Qed.

(** The requests of one [withSpan] call: those of the [finish] in the
    [try] block, then those of the [error] in the [catch] block when it
    is entered. *)
Lemma withSpan_sent {T : Type} (present : Error -> Thrown) (o : WithSpanOptions)
  (fn : result Thrown (T * Z * Z)) (w : StartWorld) (t1 t2 : Clock) :
  snd (withSpan present o fn w t1 t2)
  = match fn with
    | Ok (_, i, out) =>
        snd (finish (snd (start (withSpan_builder o) w)) (success_options i out)
               (c_now t1) (c_iso t1))
        ++ match fst (finish (snd (start (withSpan_builder o) w)) (success_options i out)
                        (c_now t1) (c_iso t1)) with
           | Ok _ => []
           | Err e =>
               snd (finish (snd (start (withSpan_builder o) w))
                      (error_finish_options (th_value (present e)) zero_options)
                      (c_now t2) (c_iso t2))
           end
    | Err e =>
        snd (finish (snd (start (withSpan_builder o) w))
               (error_finish_options (th_value e) zero_options) (c_now t2) (c_iso t2))
    end.
Proof.
  unfold withSpan; cbv zeta.
  destruct fn as [[[v i] out]|e]; cbv beta; rewrite ?error_is_finish.
  - destruct (finish _ (success_options i out) _ _) as [[s|e] sent]; cbn [fst snd].
    + now rewrite app_nil_r.
    + try rewrite error_is_finish.
      destruct (finish _ (error_finish_options _ _) _ _) as [[?|?] ?]; reflexivity.
  - destruct (finish _ (error_finish_options _ _) _ _) as [[?|?] ?]; reflexivity.
Qed.

Lemma withSpan_span_id (o : WithSpanOptions) (w : StartWorld) :
  ps_span_id (ss_span (snd (start (withSpan_builder o) w))) = Some (w_id2 w).
Proof.
  cbn [start snd ss_span]. rewrite SpanMore.start_span_span_id.
  destruct (withSpan_builder_span o) as (_ & _ & _ & _ & -> & _). reflexivity.
Qed.

(** X19. One [withSpan] call makes at most two requests, each carrying one
    span with the generated span id. When the wrapped function threw,
    there is at most one, an error span with the thrown message and zero
    tokens. Two requests are made exactly when the function resolved and
    its success span was refused: the call then rejects although the
    function had a result, and the second request reports the same span
    id with status error. *)
Theorem withSpan_posts {T : Type} (present : Error -> Thrown)
  (o : WithSpanOptions) (fn : result Thrown (T * Z * Z)) (w : StartWorld)
  (t1 t2 : Clock) :
  (List.length (snd (withSpan present o fn w t1 t2)) <= 2)%nat
  /\ (forall t, In t (snd (withSpan present o fn w t1 t2)) ->
        exists s, t = [s] /\ span_id s = Some (w_id2 w))
  /\ (forall e, fn = Err e ->
        (List.length (snd (withSpan present o fn w t1 t2)) <= 1)%nat
        /\ forall s, In [s] (snd (withSpan present o fn w t1 t2)) ->
             status s = st_error
             /\ error_message s = Some (ev_message (th_value e))
             /\ input_tokens s = 0%Z /\ output_tokens s = 0%Z)
  /\ (List.length (snd (withSpan present o fn w t1 t2)) = 2%nat ->
      exists v i out s1 s2 e,
        fn = Ok (v, i, out)
        /\ snd (withSpan present o fn w t1 t2) = [[s1]; [s2]]
        /\ fst (withSpan present o fn w t1 t2) = Err e
        /\ status s1 = st_success /\ input_tokens s1 = i /\ output_tokens s1 = out
        /\ status s2 = st_error
        /\ span_id s2 = span_id s1).
Proof.
  pose proof (withSpan_span_id o w) as Hid.
  rewrite withSpan_sent.
  unfold withSpan; cbv zeta.
  set (ss := snd (start (withSpan_builder o) w)) in *.
  destruct fn as [[[v i] out]|e]; cbv beta; rewrite ?error_is_finish.
  - destruct (finish_sent_shape ss (success_options i out) (c_now t1) (c_iso t1))
      as [H1|(p1 & Hp1 & H1)]; rewrite H1;
      destruct (finish ss (success_options i out) (c_now t1) (c_iso t1))
        as [[s|e] sent]; cbn [fst snd app] in *.
    + repeat split; try (cbn; lia); try discriminate; intros; contradiction.
    + try rewrite error_is_finish.
      destruct (finish_sent_shape ss
                  (error_finish_options (th_value (present e)) zero_options)
                  (c_now t2) (c_iso t2)) as [H2|(p2 & Hp2 & H2)]; rewrite H2.
      * repeat split; try (cbn; lia); try discriminate; intros; contradiction.
      * split; [cbn; lia|]. split.
        { intros t [<-|[]]. eexists. split; [reflexivity|exact Hid]. }
        split; [discriminate|]. cbn. discriminate.
    + split; [cbn; lia|]. split.
      { intros t [<-|[]]. eexists. split; [reflexivity|exact Hid]. }
      split; [discriminate|]. cbn. discriminate.
    + try rewrite error_is_finish.
      destruct (finish_sent_shape ss
                  (error_finish_options (th_value (present e)) zero_options)
                  (c_now t2) (c_iso t2)) as [H2|(p2 & Hp2 & H2)]; rewrite H2.
      * split; [cbn; lia|]. split.
        { intros t [<-|[]]. eexists. split; [reflexivity|exact Hid]. }
        split; [discriminate|]. cbn. discriminate.
      * split; [cbn; lia|]. split.
        { intros t [<-|[<-|[]]]; eexists; (split; [reflexivity|exact Hid]). }
        split; [discriminate|]. intros _.
        destruct (finish ss (error_finish_options (th_value (present e)) zero_options)
                    (c_now t2) (c_iso t2)) as [[s2|e2] sent2]; cbn [fst];
          do 6 eexists; repeat split.
  - destruct (finish_sent_shape ss (error_finish_options (th_value e) zero_options)
                (c_now t2) (c_iso t2)) as [H2|(p2 & Hp2 & H2)]; rewrite H2.
    + repeat split; try (cbn; lia); try discriminate; intros; contradiction.
    + split; [cbn; lia|]. split.
      { intros t [<-|[]]. eexists. split; [reflexivity|exact Hid]. }
      split; [|cbn; discriminate].
      intros e' [= <-]. split; [cbn; lia|].
      intros s [[= <-]|[]]. repeat split.
Qed.

(** The second request does happen: with a backend that answers 503 the
    sample call makes two requests and rejects. *)
Example withSpan_posts_twice :
  List.length (snd (withSpan WrapperSamples.sample_present
                      WrapperSamples.sample_withSpan_options WrapperSamples.sample_fn
                      (WrapperSamples.world_with (Some WrapperSamples.refusing_client))
                      WrapperSamples.clock1 WrapperSamples.clock2)) = 2%nat
  /\ fst (withSpan WrapperSamples.sample_present
            WrapperSamples.sample_withSpan_options WrapperSamples.sample_fn
            (WrapperSamples.world_with (Some WrapperSamples.refusing_client))
            WrapperSamples.clock1 WrapperSamples.clock2)
     = Err (WrapperSamples.sample_present
              (mkError "Kalibr API error 503: unavailable")).
Proof. split; vm_compute; reflexivity. Qed.

End WrapperMore.

(** ** Identifiers *)

Module IdsMore.
Import JsString Ids Reference2.

Lemma remove_dashes_app (a b : string) :
  remove_dashes (a ++ b) = (remove_dashes a ++ remove_dashes b)%string.
Proof.
  induction a as [|c a IH]; cbn [String.append remove_dashes]; [reflexivity|].
  destruct (Ascii.eqb c "-"); [exact IH|]. cbn [String.append]. now rewrite IH.
Qed.

Lemma hex_digit_not_dash (c : ascii) : is_hex_digit c = true -> Ascii.eqb c "-" = false.
Proof.
  intros H. destruct (Ascii.eqb_spec c "-") as [->|]; [discriminate H|reflexivity].
Qed.

Lemma all_hex_app (a b : string) :
  all_hex (a ++ b) = all_hex a && all_hex b.
Proof.
  unfold all_hex. induction a as [|c a IH]; cbn [String.append list_ascii_of_string forallb];
    [reflexivity|]. now rewrite IH, andb_assoc.
Qed.

Lemma length_app_string (a b : string) :
  String.length (a ++ b) = (String.length a + String.length b)%nat.
Proof. induction a as [|c a IH]; cbn; [reflexivity|now rewrite IH]. Qed.

(** Dropping the dashes after [n] hexadecimal digits keeps the digits. *)
Lemma take_hex_digits (n : nat) :
  forall s rest, take_hex n s = Some rest ->
  exists h, s = (h ++ rest)%string /\ String.length h = n /\ all_hex h = true
            /\ remove_dashes h = h.
Proof.
  induction n as [|n IH]; intros s rest H.
  - cbn in H. injection H as <-. exists ""%string. repeat split.
  - cbn [take_hex] in H. destruct s as [|c t]; [discriminate H|].
    destruct (is_hex_digit c) eqn:Hc; [|discriminate H].
    destruct (IH t rest H) as (h & -> & Hlen & Hhex & Hrd).
    exists (String c h). split; [reflexivity|]. split; [cbn; now rewrite Hlen|].
    split.
    + unfold all_hex in *. cbn [list_ascii_of_string forallb]. now rewrite Hc, Hhex.
    + cbn [remove_dashes]. now rewrite (hex_digit_not_dash c Hc), Hrd.
Qed.

Lemma hex_groups_digits (groups : list nat) :
  forall s, hex_groups groups s = true ->
  String.length (remove_dashes s) = list_sum groups
  /\ all_hex (remove_dashes s) = true.
Proof.
  induction groups as [|n groups IH]; intros s H; [discriminate H|].
  destruct groups as [|m groups].
  - cbn [hex_groups] in H.
    destruct (take_hex n s) as [rest|] eqn:E; [|discriminate H].
    destruct rest; [|discriminate H].
    destruct (take_hex_digits n s _ E) as (h & -> & Hlen & Hhex & Hrd).
    rewrite remove_dashes_app, Hrd. cbn [remove_dashes list_sum].
    rewrite length_app_string, all_hex_app, Hhex, Hlen. cbn. split; [lia|reflexivity].
  - change (hex_groups (n :: m :: groups) s)
      with (match take_hex n s with
            | Some (String c t) => Ascii.eqb c "-" && hex_groups (m :: groups) t
            | _ => false
            end) in H.
    destruct (take_hex n s) as [rest|] eqn:E; [|discriminate H].
    destruct rest as [|c t]; [discriminate H|].
    apply andb_prop in H as [Hdash Hrest].
    apply Ascii.eqb_eq in Hdash. subst c.
    destruct (take_hex_digits n s _ E) as (h & -> & Hlen & Hhex & Hrd).
    destruct (IH t Hrest) as (Hl & Hh).
    rewrite remove_dashes_app, Hrd. cbn [remove_dashes Ascii.eqb Bool.eqb].
    rewrite length_app_string, all_hex_app, Hhex, Hlen, Hl, Hh.
    split; reflexivity.
Qed.

(** One draw of [Math.random()] in [0, 1) appends one hexadecimal digit. *)
Lemma append_digit_hex (result : string) (r : Q) :
  0 <= r -> r < 1 ->
  exists c, append_digit result r = (result ++ String c EmptyString)%string
            /\ is_hex_digit c = true.
Proof.
  intros H0 H1. unfold append_digit.
  assert (Hk : (0 <= Qfloor (r * 16) < 16)%Z).
  { split.
    - change 0%Z with (Qfloor 0). apply Qfloor_resp_le.
      apply Qmult_le_0_compat; [exact H0|discriminate].
    - rewrite Zlt_Qlt.
      apply Qle_lt_trans with (r * 16); [apply Qfloor_le|].
      change (inject_Z 16) with (1 * 16). apply Qmult_lt_compat_r; [reflexivity|exact H1]. }
  remember (Qfloor (r * 16)) as k eqn:Ek. clear Ek.
  replace (k <? 0)%Z with false by (symmetry; apply Z.ltb_ge; lia).
  assert (Hcases : (k = 0 \/ k = 1 \/ k = 2 \/ k = 3 \/ k = 4 \/ k = 5 \/ k = 6 \/ k = 7
                    \/ k = 8 \/ k = 9 \/ k = 10 \/ k = 11 \/ k = 12 \/ k = 13
                    \/ k = 14 \/ k = 15)%Z) by lia.
  repeat (destruct Hcases as [->|Hcases]); try subst k;
    (eexists; split; [reflexivity|reflexivity]).
Qed.

Lemma generateId_loop_hex (random : nat -> Q) :
  (forall i, 0 <= random i /\ random i < 1) ->
  forall count i result,
  exists d, generateId_loop random count i result = (result ++ d)%string
            /\ String.length d = count /\ all_hex d = true.
Proof.
  intros Hr. induction count as [|count IH]; intros i result.
  - exists ""%string. cbn. split; [|split; reflexivity].
    induction result as [|c t IHt]; cbn; [reflexivity|now rewrite <- IHt].
  - cbn [generateId_loop].
    destruct (append_digit_hex result (random i) (proj1 (Hr i)) (proj2 (Hr i)))
      as (c & -> & Hc).
    destruct (IH (S i) (result ++ String c "")%string) as (d & -> & Hlen & Hhex).
    exists (String c d). split; [|split].
    + clear. induction result as [|a t IHt]; cbn; [reflexivity|now rewrite IHt].
    + cbn. now rewrite Hlen.
    + unfold all_hex in *. cbn [list_ascii_of_string forallb]. now rewrite Hc, Hhex.
Qed.

(** X20. [generateId] returns 32 lower-case hexadecimal digits on either
    branch: from [crypto.randomUUID()] when it returns the canonical
    text of a UUID, and from the fallback loop when every draw of
    [Math.random()] lies in [0, 1). *)
Theorem generateId_is_32_hex (randomUUID : option string) (random : nat -> Q) :
  match randomUUID with
  | Some uuid => is_uuid uuid = true
  | None => forall i, 0 <= random i /\ random i < 1
  end ->
  String.length (generateId randomUUID random) = 32%nat
  /\ all_hex (generateId randomUUID random) = true.
Proof.
  unfold generateId. destruct randomUUID as [uuid|]; intros H.
  - exact (hex_groups_digits _ uuid H).
  - destruct (generateId_loop_hex random H 32 0%nat ""%string) as (d & -> & Hlen & Hhex).
    cbn [String.append]. split; assumption.
Qed.

Lemma generateId_is_32_hex_witness :
  generateId (Some "123e4567-e89b-42d3-a456-426614174000") (fun _ => 0)
  = "123e4567e89b42d3a456426614174000"
  /\ String.length (generateId (Some "123e4567-e89b-42d3-a456-426614174000")
                      (fun _ => 0)) = 32%nat.
Proof.
  split; [reflexivity|].
  exact (proj1 (generateId_is_32_hex (Some "123e4567-e89b-42d3-a456-426614174000")
                  (fun _ => 0) eq_refl)).
Defined.

End IdsMore.

(** ** Provider detection and response conversion *)

Module RoutingMore.
Import JsString Js Router Responses Reference2 JsStringFacts.

Lemma startsWith_self_app (s t : string) : startsWith (s ++ t) s = true.
Proof.
  induction s as [|c s IH]; cbn [String.append startsWith].
  - now destruct t.
  - now rewrite Ascii.eqb_refl, IH.
Qed.

Lemma includes_app_r (a s p : string) : includes s p = true -> includes (a ++ s) p = true.
Proof.
  intros H. induction a as [|c a IH]; cbn [String.append]; [exact H|].
  cbn [includes]. rewrite IH. apply orb_true_r.
Qed.

Lemma includes_infix (a s b : string) : includes (a ++ s ++ b) s = true.
Proof.
  apply includes_app_r.
  assert (H : startsWith (s ++ b) s = true) by apply startsWith_self_app.
  destruct (s ++ b)%string; cbn [includes]; now rewrite H.
Qed.

Lemma startsWith_app (s t p : string) :
  startsWith s p = true -> startsWith (s ++ t) p = true.
Proof.
  revert s. induction p as [|a p IH]; intros s H.
  - now destruct (s ++ t)%string.
  - destruct s as [|c s]; [discriminate H|]. cbn [String.append startsWith] in *.
    apply andb_prop in H as [-> H]. now rewrite (IH s H).
Qed.

(** Once a string is as long as the pattern, what is appended to it
    does not matter. *)
Lemma startsWith_app_long (s t p : string) :
  (String.length p <= String.length s)%nat ->
  startsWith (s ++ t) p = startsWith s p.
Proof.
  revert s. induction p as [|a p IH]; intros s H.
  - destruct s; cbn; [now destruct t|reflexivity].
  - destruct s as [|c s]; [cbn in H; lia|]. cbn [String.append startsWith].
    rewrite IH; [reflexivity|cbn in H; lia].
Qed.

Lemma includes_app (s t p : string) : includes s p = true -> includes (s ++ t) p = true.
Proof.
  induction s as [|c s IH]; cbn [includes String.append]; intros H.
  - rewrite orb_false_r in H. destruct p; [now destruct t|discriminate H].
  - apply orb_prop in H as [H|H].
    + change (String c (s ++ t)) with (String c s ++ t)%string.
      now rewrite (startsWith_app _ t _ H).
    + rewrite (IH H). apply orb_true_r.
Qed.

Lemma startsWith_length (s p : string) :
  startsWith s p = true -> (String.length p <= String.length s)%nat.
Proof.
  revert s. induction p as [|a p IH]; intros s H; [cbn; lia|].
  destruct s as [|c s]; [discriminate H|]. cbn in *.
  apply andb_prop in H as [_ H]. specialize (IH s H). lia.
Qed.

Lemma includes_length (s p : string) :
  includes s p = true -> (String.length p <= String.length s)%nat.
Proof.
  induction s as [|c s IH]; cbn [includes]; intros H.
  - rewrite orb_false_r in H. now apply startsWith_length.
  - apply orb_prop in H as [H|H]; [now apply startsWith_length|].
    specialize (IH H). cbn. lia.
Qed.

Lemma toLowerCase_app (a b : string) :
  toLowerCase (a ++ b) = (toLowerCase a ++ toLowerCase b)%string.
Proof. induction a as [|c a IH]; cbn; [reflexivity|now rewrite IH]. Qed.

Lemma toLowerCase_length (s : string) : String.length (toLowerCase s) = String.length s.
Proof. induction s as [|c s IH]; cbn; [reflexivity|now rewrite IH]. Qed.

(** X21. [detectProvider] reads only the lower-cased identifier, so two
    spellings of a model that differ in case go to the same provider or
    are both rejected; a rejection quotes the identifier as it was
    given. *)
Theorem detectProvider_ignores_case (m m' : string) :
  toLowerCase m = toLowerCase m' ->
  match detectProvider m with
  | Ok p => detectProvider m' = Ok p
  | Err e =>
      includes (message e) m = true
      /\ exists e', detectProvider m' = Err e' /\ includes (message e') m' = true
  end.
Proof.
  intros H. unfold detectProvider; cbv zeta. rewrite <- H.
  destruct (startsWith (toLowerCase m) "gpt-" || startsWith (toLowerCase m) "o1-"
            || startsWith (toLowerCase m) "o3-"); [reflexivity|].
  destruct (startsWith (toLowerCase m) "claude-"); [reflexivity|].
  destruct (startsWith (toLowerCase m) "gemini-"
            || includes (toLowerCase m) "models/gemini"); [reflexivity|].
  destruct (startsWith (toLowerCase m) "command"); [reflexivity|].
  cbn [message]. split; [apply includes_infix|].
  eexists. split; [reflexivity|]. cbn [message]. apply includes_infix.
Qed.

Lemma detectProvider_ignores_case_witness :
  detectProvider "claude-3-opus" = Ok llm_anthropic.
Proof.
  exact (detectProvider_ignores_case "Claude-3-Opus" "claude-3-opus" eq_refl).
Defined.

(** X22. A longer identifier keeps the provider of its beginning: when [m]
    goes to OpenAI, Anthropic or Google, so does [m] followed by any
    suffix (a version or a date). This does not extend to Cohere:
    ['command'] goes to Cohere, ['command-models/gemini'] to Google. *)
Theorem detectProvider_keeps_provider_of_prefix (m suffix : string) (p : LLMProvider) :
  detectProvider m = Ok p ->
  p <> llm_cohere ->
  detectProvider (m ++ suffix) = Ok p.
Proof.
  unfold detectProvider; cbv zeta. rewrite toLowerCase_app.
  set (a := toLowerCase m). set (b := toLowerCase suffix).
  destruct (startsWith a "gpt-") eqn:E1.
  { cbn [orb]. intros [= <-] _. now rewrite (startsWith_app a b _ E1). }
  destruct (startsWith a "o1-") eqn:E2.
  { cbn [orb]. intros [= <-] _. rewrite (startsWith_app a b _ E2).
    now rewrite orb_true_r. }
  destruct (startsWith a "o3-") eqn:E3.
  { cbn [orb]. intros [= <-] _. rewrite (startsWith_app a b _ E3).
    now rewrite !orb_true_r. }
  cbn [orb].
  assert (Hlong : forall q, (String.length q <= 7)%nat ->
                    (startsWith a "claude-" = true \/ startsWith a "gemini-" = true
                     \/ includes a "models/gemini" = true) ->
                    startsWith (a ++ b) q = startsWith a q).
  { intros q Hq Hm. apply startsWith_app_long.
    destruct Hm as [Hm|[Hm|Hm]];
      [apply startsWith_length in Hm|apply startsWith_length in Hm
      |apply includes_length in Hm]; cbn in Hm; lia. }
  destruct (startsWith a "claude-") eqn:E4.
  { intros [= <-] _.
    rewrite !Hlong by (cbn; first [lia | now left]).
    now rewrite E1, E2, E3, E4. }
  destruct (startsWith a "gemini-") eqn:E5.
  { cbn [orb]. intros [= <-] _.
    rewrite !Hlong by (cbn; first [lia | right; now left]).
    now rewrite E1, E2, E3, E4, E5. }
  destruct (includes a "models/gemini") eqn:E6.
  { cbn [orb]. intros [= <-] _.
    rewrite !Hlong by (cbn; first [lia | right; now right]).
    rewrite E1, E2, E3, E4, E5. cbn [orb]. now rewrite (includes_app a b _ E6). }
  cbn [orb]. destruct (startsWith a "command"); [|discriminate].
  intros [= <-] Hp. now contradiction Hp.
Qed.

Lemma detectProvider_keeps_provider_of_prefix_witness :
  detectProvider "gpt-4o-2024-08-06" = Ok llm_openai.
Proof.
  exact (detectProvider_keeps_provider_of_prefix "gpt-4o" "-2024-08-06" llm_openai
           eq_refl ltac:(discriminate)).
Defined.

(** The exception named above. *)
Example detectProvider_cohere_prefix :
  detectProvider "command" = Ok llm_cohere
  /\ detectProvider "command-models/gemini" = Ok llm_google.
Proof. split; reflexivity. Qed.

Lemma or_str_nonempty (x : option string) (d : string) : d <> "" -> or_str x d <> "".
Proof.
  intros Hd. unfold or_str. destruct x as [s|]; [|exact Hd].
  destruct (String.eqb_spec s ""); [exact Hd|assumption].
Qed.

Lemma map_choices_spec (cs : list OpenAIChoice) :
  forall i k c,
  nth_error (map_choices i cs) k = Some c ->
  index c = (i + Z.of_nat k)%Z
  /\ message_content c <> None
  /\ finish_reason c <> "".
Proof.
  induction cs as [|x cs IH]; intros i k c H.
  - destruct k; discriminate H.
  - destruct k as [|k]; cbn [map_choices nth_error] in H.
    + injection H as <-. cbn [index message_content finish_reason].
      split; [lia|]. split; [discriminate|]. apply or_str_nonempty. discriminate.
    + destruct (IH _ _ _ H) as (Hi & Hc & Hf). split; [lia|]. now split.
Qed.

Lemma map_choices_length (cs : list OpenAIChoice) :
  forall i, List.length (map_choices i cs) = List.length cs.
Proof. induction cs as [|x cs IH]; intros i; cbn; [reflexivity|now rewrite IH]. Qed.

(** X23. Whatever the provider answered, the completion handed back is well
    formed. From Anthropic, Google and Cohere it holds exactly one
    choice, of index 0, whose text is present (so [successWhen] is
    evaluated on it) and whose finish reason is not empty; for Google
    the finish reason is in lower case. From OpenAI it holds as many
    choices as the provider gave, numbered from 0, each with a text and
    a non-empty finish reason. For Anthropic and Cohere the total token
    count is the sum of the two parts, missing counts being zero. *)
Theorem converted_responses_well_formed :
  (forall response nowMs,
     single_choice (convertAnthropicResponse response nowMs)
     /\ total_tokens (convertAnthropicResponse response nowMs)
        = (prompt_tokens (convertAnthropicResponse response nowMs)
           + completion_tokens (convertAnthropicResponse response nowMs))%Z)
  /\ (forall response model generatedId nowMs,
        single_choice (convertGoogleResponse response model generatedId nowMs)
        /\ completion_model (convertGoogleResponse response model generatedId nowMs)
           = model
        /\ forall c,
             In c (choices (convertGoogleResponse response model generatedId nowMs)) ->
             toLowerCase (finish_reason c) = finish_reason c)
  /\ (forall response model generatedId nowMs,
        single_choice (convertCohereResponse response model generatedId nowMs)
        /\ completion_model (convertCohereResponse response model generatedId nowMs)
           = model
        /\ total_tokens (convertCohereResponse response model generatedId nowMs)
           = (prompt_tokens (convertCohereResponse response model generatedId nowMs)
              + completion_tokens
                  (convertCohereResponse response model generatedId nowMs))%Z)
  /\ (forall response,
        List.length (choices (callOpenAI_result response))
        = List.length (oa_choices response)
        /\ forall k c,
             nth_error (choices (callOpenAI_result response)) k = Some c ->
             index c = Z.of_nat k
             /\ message_content c <> None
             /\ finish_reason c <> "").
Proof.
  split; [|split; [|split]].
  - intros response nowMs. split; [|reflexivity].
    eexists. split; [reflexivity|]. split; [reflexivity|]. split; [reflexivity|].
    cbn [finish_reason].
    destruct (a_stop_reason response) as [r|]; [|discriminate].
    destruct (String.eqb r "end_turn"); [discriminate|].
    apply or_str_nonempty. discriminate.
  - intros response model generatedId nowMs. split; [|split; [reflexivity|]].
    + eexists. split; [reflexivity|]. split; [reflexivity|]. split; [reflexivity|].
      cbn [finish_reason].
      destruct (match first_candidate response with
                | Some c => cand_finishReason c
                | None => None
                end) as [r|]; [|discriminate].
      destruct (String.eqb r "STOP"); [discriminate|].
      apply or_str_nonempty. discriminate.
    + intros c [<-|[]]. cbn [finish_reason].
      destruct (match first_candidate response with
                | Some c => cand_finishReason c
                | None => None
                end) as [r|]; [|reflexivity].
      destruct (String.eqb r "STOP"); [reflexivity|].
      unfold or_str. destruct (String.eqb (toLowerCase r) ""); [reflexivity|].
      apply toLowerCase_idem.
  - intros response model generatedId nowMs. split; [|split; reflexivity].
    eexists. split; [reflexivity|]. split; [reflexivity|]. split; [reflexivity|].
    cbn [finish_reason]. apply or_str_nonempty. discriminate.
  - intros response. split; [apply map_choices_length|].
    intros k c H. exact (map_choices_spec _ 0%Z k c H).
Qed.

End RoutingMore.
